(** * A shallow embedding of the video studio's editing session,
      command dispatcher and agent loop ([src/index.tsx]).

    The module-level variables and the DOM widgets of [index.tsx] become
    one explicit [State]; every handler becomes a function on that state.
    Calls into collaborators the source only reaches through an interface
    (the FFmpeg engine, the network, the chat model) are taken through
    type classes, so every theorem holds for every behaviour of them.

    The second half takes in the rest of the page: the strings it builds
    ([formatTime], the name of the download), the recorder, the listeners
    of the settings, the player and the merge bin, the library of saved
    clips with its database, the whole of [generate] with its [catch]
    block, and the shape of an exchange with the agent. *)

From Stdlib Require Import QArith Qround Qabs Qpower Lqa ZArith Lia Bool List.
From Stdlib Require Import String Ascii.
From Stdlib Require Qcanon.
From stdpp Require Import base option strings list gmap pretty.

Local Open Scope string_scope.
Local Open Scope list_scope.

(* ===================================================================== *)
(** ** JavaScript values the program computes with *)
(* ===================================================================== *)

Module JS.

(** A JavaScript number: [NaN], or a finite Number, which is a binary64
    value.  [Fin q] for a [q] that is no binary64 value stands for a
    literal or a text that spells [q]: the arithmetic ([add], [sub],
    [toFixed1]) and [parseFloat] take it as the Number nearest to [q]
    ([number]); comparisons compare the values as given.  [NaN] is kept because
    the source tests for it and because it is what [video.duration] reads
    before the metadata of a source is loaded.  The infinities are not
    modelled: above the largest binary64 value, about [1.8e308], the
    rounding below goes on with larger exponents. *)
Inductive num : Type :=
  | NaN
  | Fin (q : Q).

Definition isNaN (n : num) : bool :=
  match n with NaN => true | Fin _ => false end.

(** [2 ^ k] *)
Definition pow2 (k : Z) : Q := (2 ^ k)%Q.

(** The integer [e] with [2 ^ e <= a < 2 ^ (e + 1)], for [a] above 0. *)
Definition floor_log2 (a : Q) : Z :=
  let k := (Z.log2 (Qnum a) - Z.log2 (Zpos (Qden a)))%Z in
  if Qle_bool (pow2 k) a then k else (k - 1)%Z.

(** The integer nearest to [x], the even one of the two on a tie. *)
Definition round_half_even (x : Q) : Z :=
  let f := Qfloor x in
  match (x - inject_Z f ?= 1 # 2)%Q with
  | Lt => f
  | Gt => (f + 1)%Z
  | Eq => if Z.even f then f else (f + 1)%Z
  end.

(** The binary64 value nearest to [a], for [a] above 0: 53 significant
    bits, the exponent of the last one not below -1074. *)
Definition round64_pos (a : Q) : Q :=
  let p := Z.max (floor_log2 a - 52) (-1074) in
  (inject_Z (round_half_even (a / pow2 p)) * pow2 p)%Q.

(** The Number a real number is rounded to: the nearest binary64 value,
    on a tie the one with an even significand. *)
Definition round64 (q : Q) : Q :=
  Qred match (q ?= 0)%Q with
       | Eq => 0
       | Gt => round64_pos q
       | Lt => - round64_pos (- q)
       end%Q.

(** A binary64 value: a significand of at most 53 bits times a power of
    two that is not below [2 ^ -1074]. *)
Definition is_double (q : Q) : Prop :=
  exists (m p : Z),
    (Z.abs m <= 2 ^ 53)%Z /\ (-1074 <= p)%Z /\ (q == inject_Z m * pow2 p)%Q.

(** The Number a literal or a text stands for. *)
Definition number (n : num) : num :=
  match n with NaN => NaN | Fin q => Fin (round64 q) end.

(** [parseFloat(s)], for the text [s] that spells [n] ([NaN] when it
    spells no number). *)
Definition parseFloat (n : num) : num := number n.

(** A number that is neither [NaN] nor in need of rounding: what a
    Number the browser hands out is. *)
Definition is_number (n : num) : bool :=
  match n with NaN => false | Fin q => Qeq_bool (round64 q) q end.

(** A number of at most [2 ^ 40] in magnitude. *)
Definition moderate (n : num) : bool :=
  match n with NaN => false | Fin q => Qle_bool (Qabs q) 1099511627776 end.

Definition Qltb (a b : Q) : bool := negb (Qle_bool b a).

(** Relational operators: every comparison with [NaN] is false. *)
Definition lt (a b : num) : bool :=
  match a, b with Fin x, Fin y => Qltb x y | _, _ => false end.
Definition le (a b : num) : bool :=
  match a, b with Fin x, Fin y => Qle_bool x y | _, _ => false end.
Definition gt (a b : num) : bool := lt b a.
Definition ge (a b : num) : bool := le b a.

(** [a + b] and [a - b]: the exact result, rounded. *)
Definition add (a b : num) : num :=
  match number a, number b with
  | Fin x, Fin y => Fin (round64 (x + y))
  | _, _ => NaN
  end.
Definition sub (a b : num) : num :=
  match number a, number b with
  | Fin x, Fin y => Fin (round64 (x - y))
  | _, _ => NaN
  end.

(** [Math.max] and [Math.min]: [NaN] as soon as one argument is. *)
Definition max (a b : num) : num :=
  match a, b with
  | Fin x, Fin y => Fin (if Qle_bool x y then y else x)
  | _, _ => NaN
  end.
Definition min (a b : num) : num :=
  match a, b with
  | Fin x, Fin y => Fin (if Qle_bool x y then x else y)
  | _, _ => NaN
  end.

(** The multiple of one tenth nearest to [x], the larger one in
    magnitude on a tie. *)
Definition round1 (x : Q) : Q :=
  (if Qle_bool 0 x
   then Qmake (Qfloor (x * 10 + (1 # 2))) 10
   else - Qmake (Qfloor (- x * 10 + (1 # 2))) 10)%Q.

(** [x.toFixed(1)]: the decimal the text spells, which is the multiple of
    one tenth nearest to the exact value of the Number [x]. *)
Definition toFixed1 (n : num) : num :=
  match number n with NaN => NaN | Fin x => Fin (round1 x) end.

Definition zero : num := Fin 0%Q.
Definition tenth : num := Fin (1 # 10)%Q.
Definition two : num := Fin 2%Q.
Definition of_nat (n : nat) : num := Fin (inject_Z (Z.of_nat n)).

(** A piece of text.  Template literals keep the numbers they embed
    symbolic: [PNum n] stands for [String(n)], [PFix1 n] for
    [n.toFixed(1)]. *)
Inductive piece : Type :=
  | PStr (s : string)
  | PNum (n : num)
  | PFix1 (n : num).

Definition text : Type := list piece.

Definition lit (s : string) : text := [PStr s].

(** Characters that cannot be typed inside a string literal. *)
Definition dquote : string := String (ascii_of_nat 34) EmptyString.
Definition newline : string := String (ascii_of_nat 10) EmptyString.

(** Truthiness of a string: the empty string is falsy. *)
Definition truthy_string (s : string) : bool :=
  match s with EmptyString => false | String _ _ => true end.

(** [arr.join(sep)] *)
Fixpoint join (sep : string) (l : list string) : string :=
  match l with
  | [] => EmptyString
  | [x] => x
  | x :: rest => x ++ sep ++ join sep rest
  end.

(** Property names every object literal inherits from [Object.prototype].
    [obj[name]] finds them when [obj] has no own property of that name. *)
Definition object_prototype_names : list string :=
  [ "constructor"; "toString"; "toLocaleString"; "valueOf";
    "hasOwnProperty"; "isPrototypeOf"; "propertyIsEnumerable";
    "__proto__"; "__defineGetter__"; "__defineSetter__";
    "__lookupGetter__"; "__lookupSetter__" ].

(** The outcome of the property read [obj[name]] on an object literal. *)
Inductive lookup_result (V : Type) : Type :=
  | Own (v : V)
  | Inherited (name : string)
  | Undefined.
Arguments Own {V} v.
Arguments Inherited {V} name.
Arguments Undefined {V}.

Definition get {V : Type} (own : gmap string V) (name : string) : lookup_result V :=
  match own !! name with
  | Some v => Own v
  | None =>
      if bool_decide (name ∈ object_prototype_names)
      then Inherited name
      else Undefined
  end.

End JS.

(* ===================================================================== *)
(** ** Control flow of [async] functions: state, [throw] and [return] *)
(* ===================================================================== *)

Module Flow.

(** What a thrown value is, as far as the program can tell. *)
Inductive error : Type :=
  | EngineError            (* a rejected FFmpeg call *)
  | FetchError             (* a rejected [fetch] *)
  | TypeError              (* a property read on [undefined], a call of a non-function *)
  | ChatError              (* a rejected [chat.sendMessage] *)
  | Error (message : string).   (* [new Error(message)] *)

(** How a block of statements ends. *)
Inductive result (A : Type) : Type :=
  | Value (a : A)          (* ran to its end *)
  | Raise (e : error)      (* a [throw], or a rejected [await] *)
  | Return.                (* an early [return;] *)
Arguments Value {A} a.
Arguments Raise {A} e.
Arguments Return {A}.

(** A block of statements over the program state [S].  Writes made before
    a [throw] stay made: the state is threaded through every outcome. *)
Definition M (S A : Type) : Type := S -> S * result A.

Definition ret {S A} (a : A) : M S A := fun s => (s, Value a).
Definition raise {S A} (e : error) : M S A := fun s => (s, Raise e).
Definition return_ {S A} : M S A := fun s => (s, Return).
Definition modify {S} (f : S -> S) : M S unit := fun s => (f s, Value tt).
Definition gets {S A} (f : S -> A) : M S A := fun s => (s, Value (f s)).

Definition bind {S A B} (m : M S A) (k : A -> M S B) : M S B :=
  fun s =>
    match m s with
    | (s', Value a) => k a s'
    | (s', Raise e) => (s', Raise e)
    | (s', Return) => (s', Return)
    end.

(** [try { body } catch (e) { handler } finally { cleanup }] where the
    handler ignores [e] and neither handler nor cleanup throws. *)
Definition try_catch_finally {S} (body : M S unit)
    (handler cleanup : S -> S) (s : S) : S :=
  match body s with
  | (s', Value _) => cleanup s'
  | (s', Return) => cleanup s'
  | (s', Raise _) => cleanup (handler s')
  end.

End Flow.

Notation "'do' x <- m ; k" := (Flow.bind m (fun x => k))
  (at level 10, x name, m at level 100, k at level 200).
Notation "'step' m ; k" := (Flow.bind m (fun _ => k))
  (at level 10, m at level 100, k at level 200).
Notation "s |> f" := (f s) (at level 45, left associativity, only parsing).

(* ===================================================================== *)
(** ** The browser objects the program holds on to *)
(* ===================================================================== *)

(** [video.src].  Object URLs made by [URL.createObjectURL] are told
    apart from every other URL, as [openEditor] does with
    [startsWith('blob:')]. *)
Inductive Src : Type :=
  | SrcEmpty
  | SrcBlob (id : nat)
  | SrcOther (url : string).

Definition src_truthy (s : Src) : bool :=
  match s with SrcEmpty => false | _ => true end.

Definition src_startsWith_blob (s : Src) : bool :=
  match s with SrcBlob _ => true | _ => false end.

(** A [<select>]: assigning [value] selects the option of that value, or
    no option at all (reading back the empty string) when there is none. *)
Record Select : Type := { options : list string; selected : string }.

Definition select_assign (v : string) (s : Select) : Select :=
  {| options := options s;
     selected := if bool_decide (v ∈ options s) then v else EmptyString |}.

(** A slider or a numeric input, as far as the program writes and reads
    it: its [value] and its [max], each the number last assigned.  The
    snapping a browser applies to a range input is not part of the source
    and is not modelled. *)
Record Range : Type := { val : JS.num; maxv : JS.num }.

Definition set_val (v : JS.num) (r : Range) : Range := {| val := v; maxv := maxv r |}.
Definition set_maxv (m : JS.num) (r : Range) : Range := {| val := val r; maxv := m |}.

(** A value held by one of the configuration variables. *)
Inductive value : Type :=
  | VUndefined
  | VString (s : string)
  | VNumber (n : JS.num)
  | VBuiltin (name : string).   (* a member of [Object.prototype] *)

(** The text of a member of [Object.prototype], as V8 prints it. *)
Definition builtin_text (name : string) : string :=
  if String.eqb name "__proto__" then "[object Object]"
  else if String.eqb name "constructor" then "function Object() { [native code] }"
  else "function " ++ name ++ "() { [native code] }".

(** Conversion to a string, as a template literal or an assignment to
    [el.value] does. *)
Definition to_DOMString (v : value) : JS.text :=
  match v with
  | VUndefined => JS.lit "undefined"
  | VString s => JS.lit s
  | VNumber n => [JS.PNum n]
  | VBuiltin name => JS.lit (builtin_text name)
  end.

Definition text_as_string (t : JS.text) : string :=
  match t with
  | [JS.PStr s] => s
  | _ => EmptyString
  end.

Definition of_option_string (o : option string) : value :=
  match o with Some s => VString s | None => VUndefined end.
Definition of_option_num (o : option JS.num) : value :=
  match o with Some n => VNumber n | None => VUndefined end.

(** What is written into the FFmpeg file system. *)
Inductive FileData (Blob : Type) : Type :=
  | FBlob (b : Blob)
  | FText (t : JS.text).
Arguments FBlob {Blob} b.
Arguments FText {Blob} t.

(** The FFmpeg engine ([@ffmpeg/ffmpeg]), an external collaborator.  [FS]
    is the state of one engine instance.  A call either resolves or
    rejects (the boolean, [None] for [readFile]).  [exec] resolves also
    when FFmpeg fails, with an exit code the program does not read: such
    a run is an [ff_exec] that answers [true] and writes no output. *)
Class MediaEngine (Blob FS : Type) : Type := {
  ff_new : FS;
  ff_load : FS -> FS * bool;
  ff_writeFile : JS.text -> FileData Blob -> FS -> FS * bool;
  ff_exec : list JS.text -> FS -> FS * bool;
  ff_readFile : JS.text -> FS -> option Blob;
}.

(** What the browser and the network answer. *)
Class Browser (Blob : Type) : Type := {
  (** [video.duration] once the metadata of a source is loaded *)
  media_duration : Blob -> JS.num;
  (** [fetch] of a URL that is not an object URL *)
  fetch_url : string -> option Blob;
  (** [decodeURIComponent] *)
  decodeURIComponent : string -> option string;
  (** [process.env.API_KEY] *)
  GEMINI_API_KEY : string;
}.

(** The calls made on the engine, in order (a ghost trace). *)
Inductive EngineCall (Blob : Type) : Type :=
  | CallWriteFile (name : JS.text) (data : FileData Blob)
  | CallExec (command : list JS.text)
  | CallReadFile (name : JS.text).
Arguments CallWriteFile {Blob} name data.
Arguments CallExec {Blob} command.
Arguments CallReadFile {Blob} name.

Definition is_exec {Blob} (c : EngineCall Blob) : bool :=
  match c with CallExec _ => true | _ => false end.

(* ===================================================================== *)
(** ** The session state *)
(* ===================================================================== *)

(** The [<video>] element.  [loadedmetadata_once] counts the one-shot
    [loadedmetadata] listeners [handleApplyEffect] has registered and that
    have not run yet; [timeupdate_listener] tells whether
    [handleTimeUpdateForTrim] is registered. *)
Record Video : Type := {
  video_src : Src;
  video_duration : JS.num;
  video_currentTime : JS.num;
  loadedmetadata_once : nat;
  timeupdate_listener : bool
}.

Definition set_video_src (v : Src) (x : Video) : Video :=
  {| video_src := v; video_duration := video_duration x;
     video_currentTime := video_currentTime x;
     loadedmetadata_once := loadedmetadata_once x;
     timeupdate_listener := timeupdate_listener x |}.
Definition set_video_duration (v : JS.num) (x : Video) : Video :=
  {| video_src := video_src x; video_duration := v;
     video_currentTime := video_currentTime x;
     loadedmetadata_once := loadedmetadata_once x;
     timeupdate_listener := timeupdate_listener x |}.
Definition set_video_currentTime (v : JS.num) (x : Video) : Video :=
  {| video_src := video_src x; video_duration := video_duration x;
     video_currentTime := v; loadedmetadata_once := loadedmetadata_once x;
     timeupdate_listener := timeupdate_listener x |}.
Definition set_loadedmetadata_once (v : nat) (x : Video) : Video :=
  {| video_src := video_src x; video_duration := video_duration x;
     video_currentTime := video_currentTime x; loadedmetadata_once := v;
     timeupdate_listener := timeupdate_listener x |}.
Definition set_timeupdate_listener (v : bool) (x : Video) : Video :=
  {| video_src := video_src x; video_duration := video_duration x;
     video_currentTime := video_currentTime x;
     loadedmetadata_once := loadedmetadata_once x;
     timeupdate_listener := v |}.

(** The editor: [isEditorOpen] and the widgets of the editor panel. *)
Record Editor : Type := {
  isEditorOpen : bool;
  trimStartSlider : Range;
  trimEndSlider : Range;
  trimStartTimeInput : Range;
  trimEndTimeInput : Range;
  effectsSelect : Select;
  editButton_disabled : bool;
  applyTrimButton_disabled : bool;
  cancelTrimButton_disabled : bool;
  applyEffectButton_disabled : bool
}.

Definition set_isEditorOpen (v : bool) (x : Editor) : Editor :=
  {| isEditorOpen := v; trimStartSlider := trimStartSlider x;
     trimEndSlider := trimEndSlider x;
     trimStartTimeInput := trimStartTimeInput x;
     trimEndTimeInput := trimEndTimeInput x;
     effectsSelect := effectsSelect x;
     editButton_disabled := editButton_disabled x;
     applyTrimButton_disabled := applyTrimButton_disabled x;
     cancelTrimButton_disabled := cancelTrimButton_disabled x;
     applyEffectButton_disabled := applyEffectButton_disabled x |}.
Definition on_trimStartSlider (f : Range -> Range) (x : Editor) : Editor :=
  {| isEditorOpen := isEditorOpen x;
     trimStartSlider := f (trimStartSlider x);
     trimEndSlider := trimEndSlider x;
     trimStartTimeInput := trimStartTimeInput x;
     trimEndTimeInput := trimEndTimeInput x;
     effectsSelect := effectsSelect x;
     editButton_disabled := editButton_disabled x;
     applyTrimButton_disabled := applyTrimButton_disabled x;
     cancelTrimButton_disabled := cancelTrimButton_disabled x;
     applyEffectButton_disabled := applyEffectButton_disabled x |}.
Definition on_trimEndSlider (f : Range -> Range) (x : Editor) : Editor :=
  {| isEditorOpen := isEditorOpen x; trimStartSlider := trimStartSlider x;
     trimEndSlider := f (trimEndSlider x);
     trimStartTimeInput := trimStartTimeInput x;
     trimEndTimeInput := trimEndTimeInput x;
     effectsSelect := effectsSelect x;
     editButton_disabled := editButton_disabled x;
     applyTrimButton_disabled := applyTrimButton_disabled x;
     cancelTrimButton_disabled := cancelTrimButton_disabled x;
     applyEffectButton_disabled := applyEffectButton_disabled x |}.
Definition on_trimStartTimeInput (f : Range -> Range) (x : Editor) : Editor :=
  {| isEditorOpen := isEditorOpen x; trimStartSlider := trimStartSlider x;
     trimEndSlider := trimEndSlider x;
     trimStartTimeInput := f (trimStartTimeInput x);
     trimEndTimeInput := trimEndTimeInput x;
     effectsSelect := effectsSelect x;
     editButton_disabled := editButton_disabled x;
     applyTrimButton_disabled := applyTrimButton_disabled x;
     cancelTrimButton_disabled := cancelTrimButton_disabled x;
     applyEffectButton_disabled := applyEffectButton_disabled x |}.
Definition on_trimEndTimeInput (f : Range -> Range) (x : Editor) : Editor :=
  {| isEditorOpen := isEditorOpen x; trimStartSlider := trimStartSlider x;
     trimEndSlider := trimEndSlider x;
     trimStartTimeInput := trimStartTimeInput x;
     trimEndTimeInput := f (trimEndTimeInput x);
     effectsSelect := effectsSelect x;
     editButton_disabled := editButton_disabled x;
     applyTrimButton_disabled := applyTrimButton_disabled x;
     cancelTrimButton_disabled := cancelTrimButton_disabled x;
     applyEffectButton_disabled := applyEffectButton_disabled x |}.
Definition on_effectsSelect (f : Select -> Select) (x : Editor) : Editor :=
  {| isEditorOpen := isEditorOpen x; trimStartSlider := trimStartSlider x;
     trimEndSlider := trimEndSlider x;
     trimStartTimeInput := trimStartTimeInput x;
     trimEndTimeInput := trimEndTimeInput x;
     effectsSelect := f (effectsSelect x);
     editButton_disabled := editButton_disabled x;
     applyTrimButton_disabled := applyTrimButton_disabled x;
     cancelTrimButton_disabled := cancelTrimButton_disabled x;
     applyEffectButton_disabled := applyEffectButton_disabled x |}.
Definition set_editButton_disabled (v : bool) (x : Editor) : Editor :=
  {| isEditorOpen := isEditorOpen x; trimStartSlider := trimStartSlider x;
     trimEndSlider := trimEndSlider x;
     trimStartTimeInput := trimStartTimeInput x;
     trimEndTimeInput := trimEndTimeInput x;
     effectsSelect := effectsSelect x; editButton_disabled := v;
     applyTrimButton_disabled := applyTrimButton_disabled x;
     cancelTrimButton_disabled := cancelTrimButton_disabled x;
     applyEffectButton_disabled := applyEffectButton_disabled x |}.
Definition set_applyTrimButton_disabled (v : bool) (x : Editor) : Editor :=
  {| isEditorOpen := isEditorOpen x; trimStartSlider := trimStartSlider x;
     trimEndSlider := trimEndSlider x;
     trimStartTimeInput := trimStartTimeInput x;
     trimEndTimeInput := trimEndTimeInput x;
     effectsSelect := effectsSelect x;
     editButton_disabled := editButton_disabled x;
     applyTrimButton_disabled := v;
     cancelTrimButton_disabled := cancelTrimButton_disabled x;
     applyEffectButton_disabled := applyEffectButton_disabled x |}.
Definition set_cancelTrimButton_disabled (v : bool) (x : Editor) : Editor :=
  {| isEditorOpen := isEditorOpen x; trimStartSlider := trimStartSlider x;
     trimEndSlider := trimEndSlider x;
     trimStartTimeInput := trimStartTimeInput x;
     trimEndTimeInput := trimEndTimeInput x;
     effectsSelect := effectsSelect x;
     editButton_disabled := editButton_disabled x;
     applyTrimButton_disabled := applyTrimButton_disabled x;
     cancelTrimButton_disabled := v;
     applyEffectButton_disabled := applyEffectButton_disabled x |}.
Definition set_applyEffectButton_disabled (v : bool) (x : Editor) : Editor :=
  {| isEditorOpen := isEditorOpen x; trimStartSlider := trimStartSlider x;
     trimEndSlider := trimEndSlider x;
     trimStartTimeInput := trimStartTimeInput x;
     trimEndTimeInput := trimEndTimeInput x;
     effectsSelect := effectsSelect x;
     editButton_disabled := editButton_disabled x;
     applyTrimButton_disabled := applyTrimButton_disabled x;
     cancelTrimButton_disabled := cancelTrimButton_disabled x;
     applyEffectButton_disabled := v |}.

(** What an [await] has produced so far.  The answers of a service the
    program waits for are given as a list, and a loop over them is still
    waiting when the list is used up. *)
Inductive awaited (A : Type) : Type :=
  | Settled (a : A)
  | Pending.
Arguments Settled {A} a.
Arguments Pending {A}.

Section Model.

Context {Blob FS : Type}.
Context `{Eng : !MediaEngine Blob FS} `{Br : !Browser Blob}.

(** [interface Clip] *)
Record Clip : Type := {
  clip_id : option nat;
  clip_name : string;
  clip_blob : Blob;
  clip_thumbnail : string
}.

(** [GenerateVideosParameters], as [generateContent] builds it. *)
Record GenerateVideosParameters : Type := {
  gv_prompt : value;
  gv_image : option string;
  gv_aspectRatio : value;
  gv_durationSeconds : value;
  gv_resolution : value;
  gv_numberOfVideos : nat
}.

(** The generation settings: the module variables and their widgets.
    [controls_disabled] is the [disabled] flag of the eight controls
    [generate] disables and re-enables together. *)
Record Config : Type := {
  prompt : value;
  promptEl : JS.text;
  aspectRatio : value;
  aspectRatioSelect : Select;
  duration : value;
  durationInput : JS.text;
  resolution : value;
  qualitySelect : Select;
  base64data : string;
  recordedVideoBlob : option Blob;
  controls_disabled : bool
}.

Definition set_prompt (v : value) (x : Config) : Config :=
  {| prompt := v; promptEl := promptEl x; aspectRatio := aspectRatio x;
     aspectRatioSelect := aspectRatioSelect x; duration := duration x;
     durationInput := durationInput x; resolution := resolution x;
     qualitySelect := qualitySelect x; base64data := base64data x;
     recordedVideoBlob := recordedVideoBlob x;
     controls_disabled := controls_disabled x |}.
Definition set_promptEl (v : JS.text) (x : Config) : Config :=
  {| prompt := prompt x; promptEl := v; aspectRatio := aspectRatio x;
     aspectRatioSelect := aspectRatioSelect x; duration := duration x;
     durationInput := durationInput x; resolution := resolution x;
     qualitySelect := qualitySelect x; base64data := base64data x;
     recordedVideoBlob := recordedVideoBlob x;
     controls_disabled := controls_disabled x |}.
Definition set_aspectRatio (v : value) (x : Config) : Config :=
  {| prompt := prompt x; promptEl := promptEl x; aspectRatio := v;
     aspectRatioSelect := aspectRatioSelect x; duration := duration x;
     durationInput := durationInput x; resolution := resolution x;
     qualitySelect := qualitySelect x; base64data := base64data x;
     recordedVideoBlob := recordedVideoBlob x;
     controls_disabled := controls_disabled x |}.
Definition on_aspectRatioSelect (f : Select -> Select) (x : Config) : Config :=
  {| prompt := prompt x; promptEl := promptEl x;
     aspectRatio := aspectRatio x;
     aspectRatioSelect := f (aspectRatioSelect x); duration := duration x;
     durationInput := durationInput x; resolution := resolution x;
     qualitySelect := qualitySelect x; base64data := base64data x;
     recordedVideoBlob := recordedVideoBlob x;
     controls_disabled := controls_disabled x |}.
Definition set_duration (v : value) (x : Config) : Config :=
  {| prompt := prompt x; promptEl := promptEl x;
     aspectRatio := aspectRatio x; aspectRatioSelect := aspectRatioSelect x;
     duration := v; durationInput := durationInput x;
     resolution := resolution x; qualitySelect := qualitySelect x;
     base64data := base64data x; recordedVideoBlob := recordedVideoBlob x;
     controls_disabled := controls_disabled x |}.
Definition set_durationInput (v : JS.text) (x : Config) : Config :=
  {| prompt := prompt x; promptEl := promptEl x;
     aspectRatio := aspectRatio x; aspectRatioSelect := aspectRatioSelect x;
     duration := duration x; durationInput := v; resolution := resolution x;
     qualitySelect := qualitySelect x; base64data := base64data x;
     recordedVideoBlob := recordedVideoBlob x;
     controls_disabled := controls_disabled x |}.
Definition set_resolution (v : value) (x : Config) : Config :=
  {| prompt := prompt x; promptEl := promptEl x;
     aspectRatio := aspectRatio x; aspectRatioSelect := aspectRatioSelect x;
     duration := duration x; durationInput := durationInput x;
     resolution := v; qualitySelect := qualitySelect x;
     base64data := base64data x; recordedVideoBlob := recordedVideoBlob x;
     controls_disabled := controls_disabled x |}.
Definition on_qualitySelect (f : Select -> Select) (x : Config) : Config :=
  {| prompt := prompt x; promptEl := promptEl x;
     aspectRatio := aspectRatio x; aspectRatioSelect := aspectRatioSelect x;
     duration := duration x; durationInput := durationInput x;
     resolution := resolution x; qualitySelect := f (qualitySelect x);
     base64data := base64data x; recordedVideoBlob := recordedVideoBlob x;
     controls_disabled := controls_disabled x |}.
Definition set_base64data (v : string) (x : Config) : Config :=
  {| prompt := prompt x; promptEl := promptEl x;
     aspectRatio := aspectRatio x; aspectRatioSelect := aspectRatioSelect x;
     duration := duration x; durationInput := durationInput x;
     resolution := resolution x; qualitySelect := qualitySelect x;
     base64data := v; recordedVideoBlob := recordedVideoBlob x;
     controls_disabled := controls_disabled x |}.
Definition set_recordedVideoBlob (v : option Blob) (x : Config) : Config :=
  {| prompt := prompt x; promptEl := promptEl x;
     aspectRatio := aspectRatio x; aspectRatioSelect := aspectRatioSelect x;
     duration := duration x; durationInput := durationInput x;
     resolution := resolution x; qualitySelect := qualitySelect x;
     base64data := base64data x; recordedVideoBlob := v;
     controls_disabled := controls_disabled x |}.
Definition set_controls_disabled (v : bool) (x : Config) : Config :=
  {| prompt := prompt x; promptEl := promptEl x;
     aspectRatio := aspectRatio x; aspectRatioSelect := aspectRatioSelect x;
     duration := duration x; durationInput := durationInput x;
     resolution := resolution x; qualitySelect := qualitySelect x;
     base64data := base64data x; recordedVideoBlob := recordedVideoBlob x;
     controls_disabled := v |}.

(** The whole session.  [urls] is the table of live object URLs;
    [engine_calls] and [submitted] are ghost traces of the calls made on the
    engine and of the generation requests sent; [pending_fetches] are the
    downloads [generateContent] has started and that have not completed. *)
Record State : Type := {
  config : Config;
  video : Video;
  editor : Editor;
  ffmpeg : option FS;
  engine_calls : list (EngineCall Blob);
  urls : gmap nat Blob;
  statusEl : JS.text;
  mergeBin : list Clip;
  mergeVideosButton_disabled : bool;
  submitted : list GenerateVideosParameters;
  pending_fetches : list string
}.

Definition on_config (f : Config -> Config) (x : State) : State :=
  {| config := f (config x); video := video x; editor := editor x;
     ffmpeg := ffmpeg x; engine_calls := engine_calls x; urls := urls x;
     statusEl := statusEl x; mergeBin := mergeBin x;
     mergeVideosButton_disabled := mergeVideosButton_disabled x;
     submitted := submitted x; pending_fetches := pending_fetches x |}.
Definition on_video (f : Video -> Video) (x : State) : State :=
  {| config := config x; video := f (video x); editor := editor x;
     ffmpeg := ffmpeg x; engine_calls := engine_calls x; urls := urls x;
     statusEl := statusEl x; mergeBin := mergeBin x;
     mergeVideosButton_disabled := mergeVideosButton_disabled x;
     submitted := submitted x; pending_fetches := pending_fetches x |}.
Definition on_editor (f : Editor -> Editor) (x : State) : State :=
  {| config := config x; video := video x; editor := f (editor x);
     ffmpeg := ffmpeg x; engine_calls := engine_calls x; urls := urls x;
     statusEl := statusEl x; mergeBin := mergeBin x;
     mergeVideosButton_disabled := mergeVideosButton_disabled x;
     submitted := submitted x; pending_fetches := pending_fetches x |}.
Definition set_ffmpeg (v : option FS) (x : State) : State :=
  {| config := config x; video := video x; editor := editor x; ffmpeg := v;
     engine_calls := engine_calls x; urls := urls x; statusEl := statusEl x;
     mergeBin := mergeBin x;
     mergeVideosButton_disabled := mergeVideosButton_disabled x;
     submitted := submitted x; pending_fetches := pending_fetches x |}.
Definition set_engine_calls (v : list (EngineCall Blob)) (x : State) : State :=
  {| config := config x; video := video x; editor := editor x;
     ffmpeg := ffmpeg x; engine_calls := v; urls := urls x;
     statusEl := statusEl x; mergeBin := mergeBin x;
     mergeVideosButton_disabled := mergeVideosButton_disabled x;
     submitted := submitted x; pending_fetches := pending_fetches x |}.
Definition set_urls (v : gmap nat Blob) (x : State) : State :=
  {| config := config x; video := video x; editor := editor x;
     ffmpeg := ffmpeg x; engine_calls := engine_calls x; urls := v;
     statusEl := statusEl x; mergeBin := mergeBin x;
     mergeVideosButton_disabled := mergeVideosButton_disabled x;
     submitted := submitted x; pending_fetches := pending_fetches x |}.
Definition set_statusEl (v : JS.text) (x : State) : State :=
  {| config := config x; video := video x; editor := editor x;
     ffmpeg := ffmpeg x; engine_calls := engine_calls x; urls := urls x;
     statusEl := v; mergeBin := mergeBin x;
     mergeVideosButton_disabled := mergeVideosButton_disabled x;
     submitted := submitted x; pending_fetches := pending_fetches x |}.
Definition set_mergeBin (v : list Clip) (x : State) : State :=
  {| config := config x; video := video x; editor := editor x;
     ffmpeg := ffmpeg x; engine_calls := engine_calls x; urls := urls x;
     statusEl := statusEl x; mergeBin := v;
     mergeVideosButton_disabled := mergeVideosButton_disabled x;
     submitted := submitted x; pending_fetches := pending_fetches x |}.
Definition set_mergeVideosButton_disabled (v : bool) (x : State) : State :=
  {| config := config x; video := video x; editor := editor x;
     ffmpeg := ffmpeg x; engine_calls := engine_calls x; urls := urls x;
     statusEl := statusEl x; mergeBin := mergeBin x;
     mergeVideosButton_disabled := v; submitted := submitted x;
     pending_fetches := pending_fetches x |}.
Definition set_submitted (v : list GenerateVideosParameters) (x : State) : State :=
  {| config := config x; video := video x; editor := editor x;
     ffmpeg := ffmpeg x; engine_calls := engine_calls x; urls := urls x;
     statusEl := statusEl x; mergeBin := mergeBin x;
     mergeVideosButton_disabled := mergeVideosButton_disabled x;
     submitted := v; pending_fetches := pending_fetches x |}.
Definition set_pending_fetches (v : list string) (x : State) : State :=
  {| config := config x; video := video x; editor := editor x;
     ffmpeg := ffmpeg x; engine_calls := engine_calls x; urls := urls x;
     statusEl := statusEl x; mergeBin := mergeBin x;
     mergeVideosButton_disabled := mergeVideosButton_disabled x;
     submitted := submitted x; pending_fetches := v |}.

(* --------------------------------------------------------------------- *)
(** *** Object URLs, the video element, the engine *)
(* --------------------------------------------------------------------- *)

(** The object URL the player holds, if it holds one. *)
Definition held_url (st : State) : gset nat :=
  match video_src (video st) with
  | SrcBlob id => {[ id ]}
  | _ => ∅
  end.

(** [URL.createObjectURL(blob)]: the URL it returns is a new one, neither
    live nor held by the player. *)
Definition createObjectURL (b : Blob) : Flow.M State Src :=
  fun st =>
    let id := fresh (dom (urls st) ∪ held_url st) in
    (st |> set_urls (<[id := b]> (urls st)), Flow.Value (SrcBlob id)).

(** [URL.revokeObjectURL(url)]: does nothing unless [url] is an object URL. *)
Definition revokeObjectURL (u : Src) (st : State) : State :=
  match u with
  | SrcBlob id => set_urls (delete id (urls st)) st
  | _ => st
  end.

(** The blob behind a URL, if any. *)
Definition resource (u : Src) (st : State) : option Blob :=
  match u with
  | SrcBlob id => urls st !! id
  | SrcOther url => fetch_url url
  | SrcEmpty => None
  end.

(** [await fetchFile(url)] *)
Definition fetchFile (u : Src) : Flow.M State Blob :=
  fun st =>
    match resource u st with
    | Some b => (st, Flow.Value b)
    | None => (st, Flow.Raise Flow.FetchError)
    end.

(** [video.src = url]: the element starts loading the new source, and
    until its metadata is there [video.duration] is [NaN]. *)
Definition assign_video_src (u : Src) (st : State) : State :=
  st |> on_video (fun v =>
    v |> set_video_src u |> set_video_duration JS.NaN |> set_video_currentTime JS.zero).

(** [await ffmpeg.writeFile(name, data)] *)
Definition ffmpeg_writeFile (name : JS.text) (data : FileData Blob) : Flow.M State unit :=
  fun st =>
    match ffmpeg st with
    | Some fs =>
        let '(fs', ok) := ff_writeFile name data fs in
        (st |> set_engine_calls (engine_calls st ++ [CallWriteFile name data])
            |> set_ffmpeg (Some fs'),
         if ok then Flow.Value tt else Flow.Raise Flow.EngineError)
    | None => (st, Flow.Raise Flow.TypeError)
    end.

(** [await ffmpeg.exec(command)] *)
Definition ffmpeg_exec (command : list JS.text) : Flow.M State unit :=
  fun st =>
    match ffmpeg st with
    | Some fs =>
        let '(fs', ok) := ff_exec command fs in
        (st |> set_engine_calls (engine_calls st ++ [CallExec command])
            |> set_ffmpeg (Some fs'),
         if ok then Flow.Value tt else Flow.Raise Flow.EngineError)
    | None => (st, Flow.Raise Flow.TypeError)
    end.

(** [new Blob([(await ffmpeg.readFile(name)).buffer])] *)
Definition ffmpeg_readFile (name : JS.text) : Flow.M State Blob :=
  fun st =>
    match ffmpeg st with
    | Some fs =>
        let st' := st |> set_engine_calls (engine_calls st ++ [CallReadFile name]) in
        match ff_readFile name fs with
        | Some b => (st', Flow.Value b)
        | None => (st', Flow.Raise Flow.EngineError)
        end
    | None => (st, Flow.Raise Flow.TypeError)
    end.

(** [el.click()]: returns at once on a disabled form control (HTML
    Standard, "The click() method steps", step 1); otherwise the click
    listener runs. *)
Definition click (disabled : bool) (listener : State -> State) (st : State) : State :=
  if disabled then st else listener st.

(** [loadFFmpeg] *)
Definition loadFFmpeg : Flow.M State unit :=
  fun st =>
    match ffmpeg st with
    | Some _ => (st, Flow.Value tt)
    | None =>
        let st := st |> set_statusEl (JS.lit "Loading video editor...") in
        let '(fs', ok) := ff_load ff_new in
        let st := st |> set_ffmpeg (Some fs') in
        if ok
        then (st |> set_statusEl (JS.lit "Editor loaded."), Flow.Value tt)
        else (st, Flow.Raise Flow.EngineError)
    end.

(* --------------------------------------------------------------------- *)
(** *** The editor panel *)
(* --------------------------------------------------------------------- *)

(** [updateTrimUI]: the two numeric inputs follow the sliders.  (The
    [value] of a widget is a text; [val] is the number the text spells.) *)
Definition updateTrimUI (st : State) : State :=
  let start := JS.parseFloat (val (trimStartSlider (editor st))) in
  let end_ := JS.parseFloat (val (trimEndSlider (editor st))) in
  st |> on_editor (fun e =>
    e |> on_trimStartTimeInput (set_val (JS.toFixed1 start))
      |> on_trimEndTimeInput (set_val (JS.toFixed1 end_))).

(** The [click] listener of [editButton]. *)
Definition editButton_onclick (st : State) : State :=
  fst ((step loadFFmpeg;
        Flow.modify (fun st =>
          let duration := video_duration (video st) in
          st |> on_editor (fun e =>
                  e |> set_isEditorOpen true
                    |> on_trimStartSlider (set_maxv duration)
                    |> on_trimEndSlider (set_maxv duration)
                    |> on_trimStartSlider (set_val JS.zero)
                    |> on_trimEndSlider (set_val duration)
                    |> on_trimStartTimeInput (set_maxv duration)
                    |> on_trimEndTimeInput (set_maxv duration))
             |> updateTrimUI
             |> on_video (set_timeupdate_listener true))) st).

(** The [click] listener of [cancelTrimButton]. *)
Definition cancelTrimButton_onclick (st : State) : State :=
  st |> on_editor (set_isEditorOpen false)
     |> on_video (set_timeupdate_listener false)
     |> on_editor (on_effectsSelect (select_assign "none")).

(** The [input] listener of [trimStartSlider]. *)
Definition trimStartSlider_oninput (st : State) : State :=
  let startValue := JS.parseFloat (val (trimStartSlider (editor st))) in
  let endValue := JS.parseFloat (val (trimEndSlider (editor st))) in
  let st :=
    if JS.ge startValue endValue
    then
      let newStart := JS.sub endValue JS.tenth in
      st |> on_editor (on_trimStartSlider (set_val (JS.toFixed1 (JS.max JS.zero newStart))))
    else st in
  let st := updateTrimUI st in
  st |> on_video (set_video_currentTime
                    (JS.parseFloat (val (trimStartSlider (editor st))))).

(** The [input] listener of [trimEndSlider]. *)
Definition trimEndSlider_oninput (st : State) : State :=
  let startValue := JS.parseFloat (val (trimStartSlider (editor st))) in
  let endValue := JS.parseFloat (val (trimEndSlider (editor st))) in
  let st :=
    if JS.le endValue startValue
    then
      let newEnd := JS.add startValue JS.tenth in
      let maxDuration := JS.parseFloat (maxv (trimEndSlider (editor st))) in
      st |> on_editor (on_trimEndSlider (set_val (JS.toFixed1 (JS.min maxDuration newEnd))))
    else st in
  let st := updateTrimUI st in
  st |> on_video (set_video_currentTime
                    (JS.parseFloat (val (trimStartSlider (editor st))))).

(** The [change] listener of [trimStartTimeInput].  ([x.toString()]
    spells the Number [x] so that it is read back as [x].) *)
Definition trimStartTimeInput_onchange (st : State) : State :=
  let startValue := JS.parseFloat (val (trimStartTimeInput (editor st))) in
  let endValue := JS.parseFloat (val (trimEndSlider (editor st))) in
  let maxDuration := video_duration (video st) in
  let startValue := JS.max JS.zero (JS.min startValue maxDuration) in
  let startValue :=
    if JS.ge startValue endValue
    then JS.max JS.zero (JS.sub endValue JS.tenth)
    else startValue in
  st |> on_editor (on_trimStartSlider (set_val startValue))
     |> updateTrimUI
     |> on_video (set_video_currentTime startValue).

(** The [change] listener of [trimEndTimeInput]. *)
Definition trimEndTimeInput_onchange (st : State) : State :=
  let endValue := JS.parseFloat (val (trimEndTimeInput (editor st))) in
  let startValue := JS.parseFloat (val (trimStartSlider (editor st))) in
  let maxDuration := video_duration (video st) in
  let endValue := JS.max JS.zero (JS.min endValue maxDuration) in
  let endValue :=
    if JS.le endValue startValue
    then JS.min maxDuration (JS.add startValue JS.tenth)
    else endValue in
  st |> on_editor (on_trimEndSlider (set_val endValue))
     |> updateTrimUI
     |> on_video (set_video_currentTime startValue).

(** A mutation of the trim range by the user: the widget takes the value
    [v], then its listener runs. *)
Inductive TrimMutation : Type :=
  | MoveStartSlider (v : JS.num)
  | MoveEndSlider (v : JS.num)
  | TypeStartTime (v : JS.num)
  | TypeEndTime (v : JS.num).

Definition mutate_trim (m : TrimMutation) (st : State) : State :=
  match m with
  | MoveStartSlider v =>
      trimStartSlider_oninput (st |> on_editor (on_trimStartSlider (set_val v)))
  | MoveEndSlider v =>
      trimEndSlider_oninput (st |> on_editor (on_trimEndSlider (set_val v)))
  | TypeStartTime v =>
      trimStartTimeInput_onchange (st |> on_editor (on_trimStartTimeInput (set_val v)))
  | TypeEndTime v =>
      trimEndTimeInput_onchange (st |> on_editor (on_trimEndTimeInput (set_val v)))
  end.

Definition trimStart (st : State) : JS.num := val (trimStartSlider (editor st)).
Definition trimEnd (st : State) : JS.num := val (trimEndSlider (editor st)).

Definition set_edit_buttons_disabled (b : bool) (st : State) : State :=
  st |> on_editor (fun e =>
    e |> set_applyTrimButton_disabled b
      |> set_cancelTrimButton_disabled b
      |> set_applyEffectButton_disabled b).


(* --------------------------------------------------------------------- *)
(** *** Transforms: trim, effects, merge *)
(* --------------------------------------------------------------------- *)

Definition inputFileName : JS.text := JS.lit "input.mp4".
Definition outputFileName : JS.text := JS.lit "output.mp4".

(** The command [applyTrim] passes to [ffmpeg.exec]. *)
Definition trim_command (startTime endTime : JS.num) : list JS.text :=
  [ JS.lit "-i"; inputFileName; JS.lit "-ss"; [JS.PNum startTime];
    JS.lit "-to"; [JS.PNum endTime]; JS.lit "-c"; JS.lit "copy"; outputFileName ].

(** [video.src] is replaced by an object URL of [newBlob] and the old
    object URL is revoked. *)
Definition replace_video (newBlob : Blob) : Flow.M State unit :=
  do newUrl <- createObjectURL newBlob;
  do old <- Flow.gets (fun st => video_src (video st));
  step Flow.modify (revokeObjectURL old);
  Flow.modify (assign_video_src newUrl).

(** The [try] block of [applyTrim]. *)
Definition applyTrim_try : Flow.M State unit :=
  do src <- Flow.gets (fun st => video_src (video st));
  do file <- fetchFile src;
  step ffmpeg_writeFile inputFileName (FBlob file);
  do startTime <- Flow.gets trimStart;
  do endTime <- Flow.gets trimEnd;
  step ffmpeg_exec (trim_command startTime endTime);
  do newBlob <- ffmpeg_readFile outputFileName;
  step replace_video newBlob;
  step Flow.modify (set_statusEl (JS.lit "Trim successful!"));
  Flow.modify (fun st =>
    click (cancelTrimButton_disabled (editor st)) cancelTrimButton_onclick st).

(** [applyTrim] *)
Definition applyTrim (st : State) : State :=
  match ffmpeg st, src_truthy (video_src (video st)) with
  | Some _, true =>
      st |> set_statusEl (JS.lit "Trimming video... Please wait.")
         |> set_edit_buttons_disabled true
         |> Flow.try_catch_finally applyTrim_try
              (set_statusEl (JS.lit "An error occurred during trimming."))
              (set_edit_buttons_disabled false)
  | _, _ => st
  end.

(** The [-vf] argument of each effect; [None] is the [default:] branch
    of the [switch]. *)
Definition effect_filter (effect : string) (duration : JS.num) : option JS.text :=
  if String.eqb effect "grayscale" then Some (JS.lit "format=gray")
  else if String.eqb effect "sepia" then
    Some (JS.lit "colorchannelmixer=.393:.769:.189:0:.349:.686:.168:0:.272:.534:.131")
  else if String.eqb effect "vignette" then Some (JS.lit "vignette=PI/5")
  else if String.eqb effect "fade" then
    Some [ JS.PStr "fade=t=in:st=0:d=1,fade=t=out:st=";
           JS.PNum (JS.sub duration (JS.Fin 1)); JS.PStr ":d=1" ]
  else if String.eqb effect "slowmo" then Some (JS.lit "setpts=2.0*PTS")
  else if String.eqb effect "fastforward" then Some (JS.lit "setpts=0.5*PTS")
  else None.

Definition effect_command (filter : JS.text) : list JS.text :=
  [ JS.lit "-i"; inputFileName; JS.lit "-vf"; filter; outputFileName ].

(** The one-shot [loadedmetadata] listener [handleApplyEffect] registers. *)
Definition reset_trim_range (st : State) : State :=
  let newDuration := video_duration (video st) in
  st |> on_editor (fun e =>
          e |> on_trimStartSlider (set_maxv newDuration)
            |> on_trimEndSlider (set_maxv newDuration)
            |> on_trimStartSlider (set_val JS.zero)
            |> on_trimEndSlider (set_val newDuration)
            |> on_trimStartTimeInput (set_maxv newDuration)
            |> on_trimEndTimeInput (set_maxv newDuration))
     |> updateTrimUI.

(** The test of the [fade] case: the clip is too short for a fade. *)
Definition fade_too_short (effect : string) (duration : JS.num) : bool :=
  String.eqb effect "fade" && (JS.isNaN duration || JS.lt duration JS.two).

(** The [try] block of [handleApplyEffect]. *)
Definition handleApplyEffect_try (effect : string) : Flow.M State unit :=
  do src <- Flow.gets (fun st => video_src (video st));
  do file <- fetchFile src;
  step ffmpeg_writeFile inputFileName (FBlob file);
  do duration <- Flow.gets (fun st => video_duration (video st));
  if fade_too_short effect duration
  then
    step Flow.modify (set_statusEl (JS.lit "Video is too short for a fade effect."));
    step Flow.modify (set_edit_buttons_disabled false);
    Flow.return_
  else
    match effect_filter effect duration with
    | None => Flow.raise (Flow.Error "Unknown effect selected")
    | Some filter =>
        step ffmpeg_exec (effect_command filter);
        do newBlob <- ffmpeg_readFile outputFileName;
        step replace_video newBlob;
        step Flow.modify (on_video (fun v =>
               set_loadedmetadata_once (S (loadedmetadata_once v)) v));
        step Flow.modify (set_statusEl (JS.lit "Effect applied successfully!"));
        Flow.modify (on_editor (on_effectsSelect (select_assign "none")))
    end.

(** [handleApplyEffect] *)
Definition handleApplyEffect (st : State) : State :=
  match ffmpeg st, src_truthy (video_src (video st)) with
  | Some _, true =>
      let effect := selected (effectsSelect (editor st)) in
      if String.eqb effect "none" then st
      else
        st |> set_statusEl [JS.PStr "Applying "; JS.PStr effect;
                            JS.PStr " effect... Please wait."]
           |> set_edit_buttons_disabled true
           |> Flow.try_catch_finally (handleApplyEffect_try effect)
                (set_statusEl (JS.lit "An error occurred while applying the effect."))
                (set_edit_buttons_disabled false)
  | _, _ => st
  end.

(** The browser has read the metadata of the current source: it sets
    [video.duration] and fires [loadedmetadata], which runs and removes
    the one-shot listeners. *)
Definition video_onloadedmetadata (st : State) : State :=
  match resource (video_src (video st)) st with
  | Some b =>
      let n := loadedmetadata_once (video st) in
      st |> on_video (fun v =>
              v |> set_video_duration (media_duration b) |> set_loadedmetadata_once 0)
         |> Nat.iter n reset_trim_range
  | None => st
  end.

(** [renderMergeBin], as far as it touches what the program reads. *)
Definition renderMergeBin (st : State) : State :=
  st |> set_mergeVideosButton_disabled (List.length (mergeBin st) <? 2)%nat.

(** [addToMergeBin] *)
Definition addToMergeBin (clip : Clip) (st : State) : State :=
  st |> set_mergeBin (mergeBin st ++ [clip]) |> renderMergeBin.

(** The [click] listener of [clearMergeBinButton]. *)
Definition clearMergeBinButton_onclick (st : State) : State :=
  st |> set_mergeBin [] |> renderMergeBin.

Definition merge_input_name (i : nat) : JS.text :=
  [JS.PStr "input"; JS.PNum (JS.of_nat i); JS.PStr ".mp4"].

Definition merge_list_line (i : nat) : JS.text :=
  [JS.PStr "file '"] ++ merge_input_name i ++ [JS.PStr ("'" ++ JS.newline)].

(** The [for] loop of the merge: clip [i] of the bin is written as
    [input<i>.mp4] and listed on line [i] of the list file.  ([fetchFile]
    of a blob that is at hand does not fail.) *)
Fixpoint merge_write_inputs (i : nat) (clips : list Clip) (fileListContent : JS.text)
    : Flow.M State JS.text :=
  match clips with
  | [] => Flow.ret fileListContent
  | clip :: rest =>
      step ffmpeg_writeFile (merge_input_name i) (FBlob (clip_blob clip));
      merge_write_inputs (S i) rest (fileListContent ++ merge_list_line i)
  end.

Definition concat_command : list JS.text :=
  [ JS.lit "-f"; JS.lit "concat"; JS.lit "-safe"; JS.lit "0"; JS.lit "-i";
    JS.lit "mylist.txt"; JS.lit "-c"; JS.lit "copy"; outputFileName ].

(** The [try] block of the merge. *)
Definition merge_try : Flow.M State unit :=
  do bin <- Flow.gets mergeBin;
  do fileListContent <- merge_write_inputs 0 bin [];
  step ffmpeg_writeFile (JS.lit "mylist.txt") (FText fileListContent);
  step ffmpeg_exec concat_command;
  do newBlob <- ffmpeg_readFile outputFileName;
  step replace_video newBlob;
  step Flow.modify (set_statusEl (JS.lit "Merge successful!"));
  step Flow.modify (set_mergeBin []);
  Flow.modify renderMergeBin.

(** The [click] listener of [mergeVideosButton]. *)
Definition mergeVideosButton_onclick (st : State) : State :=
  match (List.length (mergeBin st) <? 2)%nat, ffmpeg st with
  | false, Some _ =>
      st |> set_statusEl (JS.lit "Merging videos... This may take a moment.")
         |> set_mergeVideosButton_disabled true
         |> Flow.try_catch_finally merge_try
              (set_statusEl (JS.lit "An error occurred during merging."))
              (set_mergeVideosButton_disabled false)
  | _, _ => st |> set_statusEl (JS.lit "Add at least 2 videos to merge.")
  end.


(* --------------------------------------------------------------------- *)
(** *** Generation *)
(* --------------------------------------------------------------------- *)

(** [v.video.uri] of a generated video. *)
Record GeneratedVideo : Type := { video_uri : string }.

(** A long-running operation: [operation.done] and
    [operation.response?.generatedVideos]. *)
Record Operation : Type := {
  done : bool;
  generatedVideos : option (list GeneratedVideo)
}.

Definition progress_messages : list string :=
  [ "Analyzing your prompt..."; "Warming up the digital canvas...";
    "Composing the opening scene..."; "Rendering keyframes...";
    "Adding final touches..."; "Almost there, preparing your video!" ].

(** [while (!operation.done) { ... }]: each answer of the service comes
    with the index [Math.random] picked for the progress message; [None]
    is a rejected [getVideosOperation]. *)
Fixpoint poll (operation : Operation) (answers : list (nat * option Operation))
    : Flow.M State (awaited Operation) :=
  if done operation then Flow.ret (Settled operation)
  else
    match answers with
    | [] => Flow.ret Pending
    | (k, answer) :: rest =>
        step Flow.modify (set_statusEl
               [ JS.PStr "Generating... (";
                 JS.PStr (nth (k mod 6) progress_messages EmptyString); JS.PStr ")" ]);
        match answer with
        | Some operation' => poll operation' rest
        | None => Flow.raise Flow.FetchError
        end
    end.

(** The URL a generated video is downloaded from:
    [`${decodeURIComponent(v.video.uri)}&key=${GEMINI_API_KEY}`]. *)
Definition download_url (v : GeneratedVideo) : option string :=
  match decodeURIComponent (video_uri v) with
  | Some url => Some (url ++ "&key=" ++ GEMINI_API_KEY)%string
  | None => None
  end.

(** The body of the callback of [videos.forEach], up to its first
    [await]: the download of one video is started. *)
Definition start_download (v : GeneratedVideo) (st : State) : State :=
  match download_url v with
  | Some url => st |> set_pending_fetches (pending_fetches st ++ [url])
  | None => st
  end.

(** [generateContent], from the first answer of [ai.models.generateVideos]
    on.  It returns as soon as the downloads are started. *)
Definition generateContent (first : option Operation)
    (answers : list (nat * option Operation)) : Flow.M State (awaited unit) :=
  match first with
  | None => Flow.raise Flow.FetchError
  | Some operation =>
      do polled <- poll operation answers;
      match polled with
      | Pending => Flow.ret Pending
      | Settled operation =>
          match generatedVideos operation with
          | None | Some [] => Flow.raise (Flow.Error "No videos generated")
          | Some videos =>
              step Flow.modify (fun st => fold_left (fun st v => start_download v st) videos st);
              Flow.ret (Settled tt)
          end
      end
  end.

(** The rest of the [forEach] callback: the [i]-th of the started
    downloads completes, the blob gets an object URL and becomes the
    source of the player.  A download that fails rejects a promise nobody
    awaits. *)
Definition download_completes (i : nat) (st : State) : State :=
  match pending_fetches st !! i with
  | Some url =>
      let st := st |> set_pending_fetches (delete i (pending_fetches st)) in
      match fetch_url url with
      | Some blob =>
          fst ((do objectURL <- createObjectURL blob;
                Flow.modify (assign_video_src objectURL)) st)
      | None => st
      end
  | None => st
  end.

(** [generate], up to its first [await] that leaves the program. *)
Definition generate (isPreview : bool) (st : State) : State :=
  let finalDuration := if isPreview then VNumber (JS.Fin 1) else duration (config st) in
  let finalResolution := if isPreview then VString "720p" else resolution (config st) in
  let statusGenerating :=
    if isPreview then "Generating preview..."
    else "Generating... This may take a few minutes." in
  let st := st |> set_statusEl (JS.lit "Preparing...")
               |> on_config (set_controls_disabled true) in
  match recordedVideoBlob (config st) with
  | Some _ => st |> set_statusEl (JS.lit "Processing recorded video frame...")
  | None =>
      let imageBytes := base64data (config st) in
      st |> set_statusEl (JS.lit statusGenerating)
         |> set_submitted (submitted st ++
              [ {| gv_prompt := prompt (config st);
                   gv_image := if JS.truthy_string imageBytes then Some imageBytes else None;
                   gv_aspectRatio := aspectRatio (config st);
                   gv_durationSeconds := finalDuration;
                   gv_resolution := finalResolution;
                   gv_numberOfVideos := 1 |} ])
  end.


(* --------------------------------------------------------------------- *)
(** *** The dispatcher: [tools] *)
(* --------------------------------------------------------------------- *)

(** The argument object of a function call.  A declared argument is
    either there, with its declared type, or missing ([undefined]). *)
Record Args : Type := {
  newPrompt : option string;
  newAspectRatio : option string;
  newDuration : option JS.num;
  newQuality : option string;
  startTime : option JS.num;
  endTime : option JS.num;
  effectName : option string
}.

Definition no_args : Args :=
  {| newPrompt := None; newAspectRatio := None; newDuration := None;
     newQuality := None; startTime := None; endTime := None; effectName := None |}.

(** What calling an entry of [tools] evaluates to. *)
Inductive ToolValue : Type :=
  | TText (t : JS.text)
  | TObject
  | TBool (b : bool).

(** [args.field]: a [TypeError] when [args] itself is [undefined]. *)
Definition arg {A} (field : Args -> option A) (args : option Args)
    : Flow.M State (option A) :=
  match args with
  | Some a => Flow.ret (field a)
  | None => Flow.raise Flow.TypeError
  end.

(** [x.toString()] on a number that may be [undefined]. *)
Definition num_toString (x : option JS.num) : Flow.M State JS.num :=
  match x with
  | Some n => Flow.ret n
  | None => Flow.raise Flow.TypeError
  end.

(** [ToNumber]: [undefined] compares as [NaN]. *)
Definition to_num (x : option JS.num) : JS.num :=
  match x with Some n => n | None => JS.NaN end.

Definition qualityMap : gmap string string :=
  list_to_map [ ("standard", "720p"); ("high", "1080p") ].

Definition of_lookup (r : JS.lookup_result string) : value :=
  match r with
  | JS.Own s => VString s
  | JS.Inherited name => VBuiltin name
  | JS.Undefined => VUndefined
  end.

Definition tools_setPrompt (args : option Args) : Flow.M State ToolValue :=
  do p <- arg newPrompt args;
  let p := of_option_string p in
  step Flow.modify (on_config (set_promptEl (to_DOMString p)));
  step Flow.modify (on_config (set_prompt p));
  Flow.ret (TText ([JS.PStr ("Prompt set to: " ++ JS.dquote)] ++ to_DOMString p
                   ++ [JS.PStr JS.dquote])).

Definition tools_setAspectRatio (args : option Args) : Flow.M State ToolValue :=
  do r <- arg newAspectRatio args;
  let r := of_option_string r in
  step Flow.modify (on_config (on_aspectRatioSelect
         (select_assign (text_as_string (to_DOMString r)))));
  step Flow.modify (on_config (set_aspectRatio r));
  Flow.ret (TText ([JS.PStr "Aspect ratio set to: "] ++ to_DOMString r)).

Definition tools_setDuration (args : option Args) : Flow.M State ToolValue :=
  do d <- arg newDuration args;
  do n <- num_toString d;
  step Flow.modify (on_config (set_durationInput [JS.PNum n]));
  step Flow.modify (on_config (set_duration (of_option_num d)));
  Flow.ret (TText [JS.PStr "Duration set to: "; JS.PNum n; JS.PStr " seconds"]).

Definition tools_setQuality (args : option Args) : Flow.M State ToolValue :=
  do q <- arg newQuality args;
  let q := of_option_string q in
  let newResolution := of_lookup (JS.get qualityMap (text_as_string (to_DOMString q))) in
  step Flow.modify (on_config (on_qualitySelect
         (select_assign (text_as_string (to_DOMString newResolution)))));
  step Flow.modify (on_config (set_resolution newResolution));
  Flow.ret (TText ([JS.PStr "Video quality set to: "] ++ to_DOMString q ++ [JS.PStr " ("]
                   ++ to_DOMString newResolution ++ [JS.PStr ")"])).

Definition tools_clickGenerate (args : option Args) : Flow.M State ToolValue :=
  step Flow.modify (generate false);
  Flow.ret (TText (JS.lit "Starting video generation...")).

Definition tools_openEditor (args : option Args) : Flow.M State ToolValue :=
  do src <- Flow.gets (fun st => video_src (video st));
  if negb (src_truthy src) || negb (src_startsWith_blob src)
  then Flow.ret (TText (JS.lit
         "A video must be generated or loaded before you can open the editor."))
  else
    do isOpen <- Flow.gets (fun st => isEditorOpen (editor st));
    if isOpen then Flow.ret (TText (JS.lit "The editor is already open."))
    else
      step Flow.modify (fun st =>
             click (editButton_disabled (editor st)) editButton_onclick st);
      Flow.ret (TText (JS.lit "Video editor opened.")).

Definition tools_closeEditor (args : option Args) : Flow.M State ToolValue :=
  do isOpen <- Flow.gets (fun st => isEditorOpen (editor st));
  if negb isOpen then Flow.ret (TText (JS.lit "The editor is already closed."))
  else
    step Flow.modify (fun st =>
           click (cancelTrimButton_disabled (editor st)) cancelTrimButton_onclick st);
    Flow.ret (TText (JS.lit "Video editor closed.")).

(** The condition under which [trimVideo] answers "Invalid trim times". *)
Definition invalid_trim_times (duration startTime endTime : JS.num) : bool :=
  JS.isNaN duration || JS.ge startTime endTime || JS.lt startTime JS.zero
  || JS.gt endTime duration.

Definition tools_trimVideo (args : option Args) : Flow.M State ToolValue :=
  do isOpen <- Flow.gets (fun st => isEditorOpen (editor st));
  if negb isOpen
  then Flow.ret (TText (JS.lit "Please open the editor first before trimming."))
  else
    do duration <- Flow.gets (fun st => video_duration (video st));
    if JS.isNaN duration
    then Flow.ret (TText
           [ JS.PStr "Invalid trim times. Start time must be less than end time and within the video bounds (0-";
             JS.PFix1 duration; JS.PStr "s)." ])
    else
      do startTime <- arg startTime args;
      do endTime <- arg endTime args;
      if invalid_trim_times duration (to_num startTime) (to_num endTime)
      then Flow.ret (TText
             [ JS.PStr "Invalid trim times. Start time must be less than end time and within the video bounds (0-";
               JS.PFix1 duration; JS.PStr "s)." ])
      else
        do s <- num_toString startTime;
        step Flow.modify (on_editor (on_trimStartSlider (set_val s)));
        do e <- num_toString endTime;
        step Flow.modify (on_editor (on_trimEndSlider (set_val e)));
        step Flow.modify updateTrimUI;
        step Flow.modify applyTrim;
        Flow.ret (TText (JS.lit "Video trimmed successfully.")).

(** [Array.from(effectsSelect.options).map(o => o.value).filter(v => v !== 'none')] *)
Definition validEffects (st : State) : list string :=
  List.filter (fun v => negb (String.eqb v "none")) (options (effectsSelect (editor st))).

Definition includes (l : list string) (x : option string) : bool :=
  match x with
  | Some s => bool_decide (s ∈ l)
  | None => false
  end.

Definition tools_applyEffect (args : option Args) : Flow.M State ToolValue :=
  do isOpen <- Flow.gets (fun st => isEditorOpen (editor st));
  if negb isOpen
  then Flow.ret (TText (JS.lit "Please open the editor first before applying effects."))
  else
    do valid <- Flow.gets validEffects;
    do name <- arg effectName args;
    if negb (includes valid name)
    then Flow.ret (TText
           [ JS.PStr "Invalid effect. Please choose from: ";
             JS.PStr (JS.join ", " valid); JS.PStr "." ])
    else
      let name := of_option_string name in
      step Flow.modify (on_editor (on_effectsSelect
             (select_assign (text_as_string (to_DOMString name)))));
      step Flow.modify handleApplyEffect;
      Flow.ret (TText ([JS.PStr "Applied the "] ++ to_DOMString name
                       ++ [JS.PStr " effect successfully."])).

(** The table [tools]. *)
Definition tools : gmap string (option Args -> Flow.M State ToolValue) :=
  list_to_map
    [ ("setPrompt", tools_setPrompt);
      ("setAspectRatio", tools_setAspectRatio);
      ("setDuration", tools_setDuration);
      ("setQuality", tools_setQuality);
      ("clickGenerate", tools_clickGenerate);
      ("openEditor", tools_openEditor);
      ("closeEditor", tools_closeEditor);
      ("trimVideo", tools_trimVideo);
      ("applyEffect", tools_applyEffect) ].

(** The arguments [toolDefinitions] declares as required, by tool. *)
Definition declared_args (name : string) (args : option Args) : Prop :=
  match args with
  | None =>
      name = "clickGenerate" \/ name = "openEditor" \/ name = "closeEditor"
  | Some a =>
      (name = "setPrompt" -> is_Some (newPrompt a)) /\
      (name = "setAspectRatio" -> is_Some (newAspectRatio a)) /\
      (name = "setDuration" -> is_Some (newDuration a)) /\
      (name = "setQuality" -> is_Some (newQuality a)) /\
      (name = "trimVideo" -> is_Some (startTime a) /\ is_Some (endTime a)) /\
      (name = "applyEffect" -> is_Some (effectName a))
  end.


(* --------------------------------------------------------------------- *)
(** *** The agent loop: [sendMessage] *)
(* --------------------------------------------------------------------- *)

Record FunctionCall : Type := { fc_name : string; fc_args : option Args }.

(** A part of a response; only its [functionCall] is looked at. *)
Record Part : Type := { functionCall : option FunctionCall }.

(** [candidate.content.parts]; [None] when [content] is missing. *)
Record Candidate : Type := { content_parts : option (list Part) }.

Record GenerateContentResponse : Type := {
  candidates : option (list Candidate);
  response_text : option string
}.

(** What the program sends to the model. *)
Inductive Outgoing : Type :=
  | UserMessage (message : string)
  | FunctionResponse (name : string) (content : ToolValue).

(** The chat session with the model, an external collaborator: [H] is
    its state, and a [sendMessage] that rejects answers [None]. *)
Class ChatModel (H : Type) : Type := {
  chat_sendMessage : Outgoing -> H -> H * option GenerateContentResponse
}.

Context {H : Type} `{Chat : !ChatModel H}.

(** A message shown in the chat window by [addMessage]. *)
Inductive Bubble : Type :=
  | UserBubble (message : string)
  | ToolBubble (name : string) (args : option Args)
  | AgentBubble (message : option string).

(** The session together with the agent panel.  [sent] is the ghost trace
    of the messages sent to the model, one for each round trip. *)
Record Agent : Type := {
  session : State;
  chat : H;
  sent : list Outgoing;
  chatWindow : list Bubble;
  agentInput : string;
  agentSendButton_disabled : bool
}.

Definition on_session (f : State -> State) (x : Agent) : Agent :=
  {| session := f (session x); chat := chat x; sent := sent x;
     chatWindow := chatWindow x; agentInput := agentInput x;
     agentSendButton_disabled := agentSendButton_disabled x |}.
Definition set_agentInput (v : string) (x : Agent) : Agent :=
  {| session := session x; chat := chat x; sent := sent x;
     chatWindow := chatWindow x; agentInput := v;
     agentSendButton_disabled := agentSendButton_disabled x |}.
Definition set_agentSendButton_disabled (v : bool) (x : Agent) : Agent :=
  {| session := session x; chat := chat x; sent := sent x;
     chatWindow := chatWindow x; agentInput := agentInput x;
     agentSendButton_disabled := v |}.

(** [addMessage] *)
Definition addMessage (b : Bubble) (x : Agent) : Agent :=
  {| session := session x; chat := chat x; sent := sent x;
     chatWindow := chatWindow x ++ [b]; agentInput := agentInput x;
     agentSendButton_disabled := agentSendButton_disabled x |}.

(** [await chat.sendMessage(...)] *)
Definition chat_send (out : Outgoing) : Flow.M Agent GenerateContentResponse :=
  fun x =>
    let '(h, answer) := chat_sendMessage out (chat x) in
    ({| session := session x; chat := h; sent := sent x ++ [out];
        chatWindow := chatWindow x; agentInput := agentInput x;
        agentSendButton_disabled := agentSendButton_disabled x |},
     match answer with
     | Some response => Flow.Value response
     | None => Flow.Raise Flow.ChatError
     end).

(** A block over the session run inside the agent. *)
Definition in_session {A} (m : Flow.M State A) : Flow.M Agent A :=
  fun x => let '(st, r) := m (session x) in (on_session (fun _ => st) x, r).

(** Calling a member of [Object.prototype] as a plain function, with
    [this] undefined. *)
Definition call_inherited (name : string) (args : option Args) : Flow.M State ToolValue :=
  if String.eqb name "constructor" then Flow.ret TObject
  else if String.eqb name "toString" then Flow.ret (TText (JS.lit "[object Undefined]"))
  else if String.eqb name "isPrototypeOf" then
    match args with
    | None => Flow.ret (TBool false)
    | Some _ => Flow.raise Flow.TypeError
    end
  else Flow.raise Flow.TypeError.

Definition has_functionCall (part : Part) : bool :=
  match functionCall part with Some _ => true | None => false end.

(** [const tool = tools[name]; if (tool) ...]: what is called, if anything. *)
Definition tool_of (name : string) : option (option Args -> Flow.M State ToolValue) :=
  match JS.get tools name with
  | JS.Own tool => Some tool
  | JS.Inherited member => Some (call_inherited member)
  | JS.Undefined => None
  end.

Definition unknown_tool_message (name : string) : string :=
  "Error: Unknown tool " ++ JS.dquote ++ name ++ JS.dquote.

(** The [while] loop of [sendMessage].  [fuel] bounds the number of
    iterations, which nothing in the program does. *)
Fixpoint tool_loop (fuel : nat) (response : GenerateContentResponse)
    : Flow.M Agent (awaited GenerateContentResponse) :=
  match fuel with
  | O => Flow.ret Pending
  | S fuel =>
      match candidates response with
      | None => Flow.ret (Settled response)
      | Some [] => Flow.raise Flow.TypeError
      | Some (candidate :: _) =>
          match content_parts candidate with
          | None => Flow.raise Flow.TypeError
          | Some parts =>
              if negb (existsb has_functionCall parts)
              then Flow.ret (Settled response)
              else
                match List.find has_functionCall parts with
                | Some {| functionCall := Some call |} =>
                    let name := fc_name call in
                    let args := fc_args call in
                    match tool_of name with
                    | Some tool =>
                        do toolResult <- in_session (tool args);
                        step Flow.modify (addMessage (ToolBubble name args));
                        do response' <- chat_send (FunctionResponse name toolResult);
                        tool_loop fuel response'
                    | None =>
                        step Flow.modify (addMessage
                               (AgentBubble (Some (unknown_tool_message name))));
                        Flow.ret (Settled response)
                    end
                | _ => Flow.ret (Settled response)
                end
          end
      end
  end.

Fixpoint trim_left (s : string) : string :=
  match s with
  | String c rest => if Ascii.is_space c then trim_left rest else s
  | EmptyString => EmptyString
  end.

(** [s.trim()] *)
Definition trim (s : string) : string :=
  String.rev (trim_left (String.rev (trim_left s))).

(** [sendMessage] *)
Definition sendMessage (fuel : nat) (x : Agent) : awaited Agent :=
  let userInput := trim (agentInput x) in
  if negb (JS.truthy_string userInput) then Settled x
  else
    let x := x |> addMessage (UserBubble userInput)
               |> set_agentInput EmptyString
               |> set_agentSendButton_disabled true in
    match
      (do response <- chat_send (UserMessage userInput);
       do final <- tool_loop fuel response;
       match final with
       | Pending => Flow.ret Pending
       | Settled response =>
           step Flow.modify (addMessage (AgentBubble (response_text response)));
           Flow.ret (Settled tt)
       end) x
    with
    | (_, Flow.Value Pending) => Pending
    | (x', Flow.Value (Settled _)) | (x', Flow.Return) =>
        Settled (set_agentSendButton_disabled false x')
    | (x', Flow.Raise _) =>
        Settled (x' |> addMessage (AgentBubble
                         (Some "Sorry, I encountered an error. Please try again."))
                    |> set_agentSendButton_disabled false)
    end.

(* --------------------------------------------------------------------- *)
(** *** Vocabulary of the statements *)
(* --------------------------------------------------------------------- *)

(** The trim range as the program reads it: [parseFloat] of the values
    of the two sliders. *)
Definition readStart (st : State) : JS.num := JS.parseFloat (trimStart st).
Definition readEnd (st : State) : JS.num := JS.parseFloat (trimEnd st).

(** A mutation of the trim range has room when the bound it moves can be
    put strictly on its side of the other.  The value given is a number.
    The bound that stays is a number of at most [2 ^ 40] in magnitude, so
    that the tenth the clamp keeps from it survives the rounding.  When
    the start moves, the end is above [0], which the start is clamped at;
    when the end moves, the start is below what the end is clamped at:
    the maximum of the slider as [toFixed(1)] prints it, or the duration
    of the video for the numeric input.  The numeric inputs clamp at the
    duration of the video first, which is a Number (not [NaN]). *)
Definition has_room (m : TrimMutation) (st : State) : bool :=
  match m with
  | MoveStartSlider v =>
      negb (JS.isNaN v) && JS.moderate (readEnd st) && JS.lt JS.zero (readEnd st)
  | TypeStartTime v =>
      negb (JS.isNaN v) && JS.is_number (video_duration (video st))
      && JS.moderate (readEnd st) && JS.lt JS.zero (readEnd st)
  | MoveEndSlider v =>
      negb (JS.isNaN v) && JS.moderate (readStart st)
      && JS.lt (readStart st)
               (JS.parseFloat
                  (JS.toFixed1 (JS.parseFloat (maxv (trimEndSlider (editor st))))))
  | TypeEndTime v =>
      negb (JS.isNaN v) && JS.is_number (video_duration (video st))
      && JS.moderate (readStart st)
      && JS.lt (readStart st) (video_duration (video st))
  end.

(** The session after the polls that were answered by the operations
    [later], each with the index [Math.random] picked for its progress
    message: every poll writes its message on the status line. *)
Definition polled (later : list (nat * Operation)) (st : State) : State :=
  fold_left
    (fun st a =>
       st |> set_statusEl
               [ JS.PStr "Generating... (";
                 JS.PStr (nth (fst a mod 6) progress_messages EmptyString);
                 JS.PStr ")" ])
    later st.

(** The answers of the service to the polls: the operations [later], and
    whatever it would answer after them. *)
Definition answered (later : list (nat * Operation))
    (rest : list (nat * option Operation)) : list (nat * option Operation) :=
  map (fun a => (fst a, Some (snd a))) later ++ rest.

(** The two edits of the editor panel. *)
Inductive Edit : Type := EditTrim | EditEffect.

Definition apply_edit (k : Edit) (st : State) : State :=
  match k with
  | EditTrim => applyTrim st
  | EditEffect => handleApplyEffect st
  end.

(** The command an edit runs on the engine, if it gets to run one. *)
Definition edit_command (k : Edit) (st : State) : option (list JS.text) :=
  match k with
  | EditTrim => Some (trim_command (trimStart st) (trimEnd st))
  | EditEffect =>
      let effect := selected (effectsSelect (editor st)) in
      let duration := video_duration (video st) in
      if fade_too_short effect duration then None
      else option_map effect_command (effect_filter effect duration)
  end.

(** An edit succeeds, with output [newBlob], when the engine is there, the
    source of the player can be fetched, and the three calls on the
    engine (write the input, run the command, read the output) resolve. *)
Definition edit_succeeds (k : Edit) (st : State) (newBlob : Blob) : Prop :=
  exists fs file command fs1 fs2,
    ffmpeg st = Some fs /\
    resource (video_src (video st)) st = Some file /\
    edit_command k st = Some command /\
    ff_writeFile inputFileName (FBlob file) fs = (fs1, true) /\
    ff_exec command fs1 = (fs2, true) /\
    ff_readFile outputFileName fs2 = Some newBlob.

(** The input of an edit can be staged: the source of the player can be
    fetched and the engine accepts it as [input.mp4]. *)
Definition staged (st : State) : bool :=
  match resource (video_src (video st)) st, ffmpeg st with
  | Some file, Some fs => snd (ff_writeFile inputFileName (FBlob file) fs)
  | _, _ => false
  end.

(** The commands run on the engine so far. *)
Definition commands_run (st : State) : list (EngineCall Blob) :=
  List.filter is_exec (engine_calls st).

(** An edit asked for through the dispatcher. *)
Inductive EditRequest : Type :=
  | TrimRequest (s e : JS.num)       (* [trimVideo({startTime: s, endTime: e})] *)
  | EffectRequest (name : string).   (* [applyEffect({effectName: name})] *)

Definition request_kind (r : EditRequest) : Edit :=
  match r with
  | TrimRequest _ _ => EditTrim
  | EffectRequest _ => EditEffect
  end.

Definition request_args (r : EditRequest) : Args :=
  match r with
  | TrimRequest s e =>
      {| newPrompt := None; newAspectRatio := None; newDuration := None;
         newQuality := None; startTime := Some s; endTime := Some e;
         effectName := None |}
  | EffectRequest name =>
      {| newPrompt := None; newAspectRatio := None; newDuration := None;
         newQuality := None; startTime := None; endTime := None;
         effectName := Some name |}
  end.

Definition dispatch (r : EditRequest) : Flow.M State ToolValue :=
  match r with
  | TrimRequest _ _ => tools_trimVideo (Some (request_args r))
  | EffectRequest _ => tools_applyEffect (Some (request_args r))
  end.

(** The request passes the checks the dispatcher makes on its arguments. *)
Definition valid_request (r : EditRequest) (st : State) : bool :=
  match r with
  | TrimRequest s e => negb (invalid_trim_times (video_duration (video st)) s e)
  | EffectRequest name => bool_decide (name ∈ validEffects st)
  end.

(** The session once the dispatcher has written the request into the
    widgets, which is where the edit starts from. *)
Definition requested (r : EditRequest) (st : State) : State :=
  match r with
  | TrimRequest s e =>
      st |> on_editor (on_trimStartSlider (set_val s))
         |> on_editor (on_trimEndSlider (set_val e))
         |> updateTrimUI
  | EffectRequest name =>
      st |> on_editor (on_effectsSelect (select_assign name))
  end.

(** The string the dispatcher returns after the edit. *)
Definition confirmation (r : EditRequest) : JS.text :=
  match r with
  | TrimRequest _ _ => JS.lit "Video trimmed successfully."
  | EffectRequest name =>
      [JS.PStr "Applied the "; JS.PStr name; JS.PStr " effect successfully."]
  end.

(** The writes of the merge loop, on the engine alone: clip [k] of
    [clips] goes to [input<i+k>.mp4], in the order of the list, until a
    write is rejected. *)
Fixpoint stage_inputs (i : nat) (clips : list Clip) (fs : FS) : FS * bool :=
  match clips with
  | [] => (fs, true)
  | clip :: rest =>
      let '(fs', ok) := ff_writeFile (merge_input_name i) (FBlob (clip_blob clip)) fs in
      if ok then stage_inputs (S i) rest fs' else (fs', false)
  end.

Fixpoint staging_calls (i : nat) (clips : list Clip) : list (EngineCall Blob) :=
  match clips with
  | [] => []
  | clip :: rest =>
      CallWriteFile (merge_input_name i) (FBlob (clip_blob clip))
      :: staging_calls (S i) rest
  end.

(** The list file of the merge: one line for each clip, in the order of
    the list. *)
Fixpoint merge_list (i : nat) (clips : list Clip) : JS.text :=
  match clips with
  | [] => []
  | _ :: rest => merge_list_line i ++ merge_list (S i) rest
  end.

(** A merge succeeds, with output [newBlob], when the engine is there and
    every call on it resolves. *)
Definition merge_succeeds (st : State) (newBlob : Blob) : Prop :=
  exists fs fs1 fs2 fs3,
    ffmpeg st = Some fs /\
    stage_inputs 0 (mergeBin st) fs = (fs1, true) /\
    ff_writeFile (JS.lit "mylist.txt") (FText (merge_list 0 (mergeBin st))) fs1
      = (fs2, true) /\
    ff_exec concat_command fs2 = (fs3, true) /\
    ff_readFile outputFileName fs3 = Some newBlob.

(** The answer a dispatcher operation gives when a precondition of it
    does not hold (no video in the player, the editor closed or open
    already, trim times out of bounds or out of order, an effect that is
    not in the list), if one does not hold. *)
Definition precondition_violation (name : string) (args : option Args) (st : State)
    : option JS.text :=
  let src := video_src (video st) in
  let isOpen := isEditorOpen (editor st) in
  if String.eqb name "openEditor" then
    if negb (src_truthy src) || negb (src_startsWith_blob src)
    then Some (JS.lit "A video must be generated or loaded before you can open the editor.")
    else if isOpen then Some (JS.lit "The editor is already open.")
    else None
  else if String.eqb name "closeEditor" then
    if negb isOpen then Some (JS.lit "The editor is already closed.") else None
  else if String.eqb name "trimVideo" then
    if negb isOpen then Some (JS.lit "Please open the editor first before trimming.")
    else
      match args with
      | Some a =>
          if invalid_trim_times (video_duration (video st))
               (to_num (startTime a)) (to_num (endTime a))
          then Some [ JS.PStr "Invalid trim times. Start time must be less than end time and within the video bounds (0-";
                      JS.PFix1 (video_duration (video st)); JS.PStr "s)." ]
          else None
      | None => None
      end
  else if String.eqb name "applyEffect" then
    if negb isOpen
    then Some (JS.lit "Please open the editor first before applying effects.")
    else
      match args with
      | Some a =>
          if negb (includes (validEffects st) (effectName a))
          then Some [ JS.PStr "Invalid effect. Please choose from: ";
                      JS.PStr (JS.join ", " (validEffects st)); JS.PStr "." ]
          else None
      | None => None
      end
  else None.

(** The resolution [setQuality] finds for a quality. *)
Definition quality_resolution (q : string) : value :=
  if String.eqb q "standard" then VString "720p"
  else if String.eqb q "high" then VString "1080p"
  else if bool_decide (q ∈ JS.object_prototype_names) then VBuiltin q
  else VUndefined.

(** A response of the model that asks for one function call. *)
Definition call_response (name : string) (args : option Args) : GenerateContentResponse :=
  {| candidates :=
       Some [ {| content_parts :=
                   Some [ {| functionCall := Some {| fc_name := name; fc_args := args |} |} ] |} ];
     response_text := None |}.

(** The function call a response asks for, the one the loop takes. *)
Definition requested_call (response : GenerateContentResponse) : option FunctionCall :=
  match candidates response with
  | Some (candidate :: _) =>
      match content_parts candidate with
      | Some parts =>
          match List.find has_functionCall parts with
          | Some part => functionCall part
          | None => None
          end
      | None => None
      end
  | _ => None
  end.

End Model.

(* ===================================================================== *)
(** ** Recording from the camera: the timer *)
(* ===================================================================== *)

Module Recording.

Definition MAX_RECORDING_DURATION : nat := 30.
Definition WARNING_START_TIME : nat := 25.

(** The recording variables of the program and what the browser keeps
    for them.  Interval handles are positive, so a handle is truthy.
    [timers] are the intervals that are set; [pending_starts] counts the
    calls of [startRecording] waiting for [getUserMedia]; [stopped] is the
    ghost trace of the recorders [mediaRecorder.stop()] was called on. *)
Record Recorder : Type := {
  mediaRecorder : option nat;
  isVideoRecording : bool;
  recordingTimerInterval : option positive;
  recordingSeconds : nat;
  nearing_limit : bool;
  timers : list positive;
  next_timer : positive;
  next_recorder : nat;
  pending_starts : nat;
  stopped : list nat
}.

Definition initial : Recorder :=
  {| mediaRecorder := None; isVideoRecording := false;
     recordingTimerInterval := None; recordingSeconds := 0;
     nearing_limit := false; timers := []; next_timer := 1%positive;
     next_recorder := 0; pending_starts := 0; stopped := [] |}.

(** [clearInterval(recordingTimerInterval); recordingTimerInterval = null],
    under [if (recordingTimerInterval)]. *)
Definition clear_timer (r : Recorder) : Recorder :=
  match recordingTimerInterval r with
  | Some t =>
      {| mediaRecorder := mediaRecorder r; isVideoRecording := isVideoRecording r;
         recordingTimerInterval := None; recordingSeconds := recordingSeconds r;
         nearing_limit := nearing_limit r;
         timers := List.filter (fun t' => negb (Pos.eqb t' t)) (timers r);
         next_timer := next_timer r; next_recorder := next_recorder r;
         pending_starts := pending_starts r; stopped := stopped r |}
  | None => r
  end.

(** [stopRecording] *)
Definition stopRecording (r : Recorder) : Recorder :=
  match mediaRecorder r with
  | Some recorder =>
      clear_timer
        {| mediaRecorder := mediaRecorder r; isVideoRecording := false;
           recordingTimerInterval := recordingTimerInterval r;
           recordingSeconds := recordingSeconds r; nearing_limit := false;
           timers := timers r; next_timer := next_timer r;
           next_recorder := next_recorder r; pending_starts := pending_starts r;
           stopped := stopped r ++ [recorder] |}
  | None => r
  end.

(** [resetRecordingState], as far as the timer goes. *)
Definition resetRecordingState (r : Recorder) : Recorder :=
  clear_timer
    {| mediaRecorder := mediaRecorder r; isVideoRecording := isVideoRecording r;
       recordingTimerInterval := recordingTimerInterval r;
       recordingSeconds := recordingSeconds r; nearing_limit := false;
       timers := timers r; next_timer := next_timer r;
       next_recorder := next_recorder r; pending_starts := pending_starts r;
       stopped := stopped r |}.

(** The callback [startRecording] passes to [setInterval]. *)
Definition timer_callback (r : Recorder) : Recorder :=
  let seconds := S (recordingSeconds r) in
  let r :=
    {| mediaRecorder := mediaRecorder r; isVideoRecording := isVideoRecording r;
       recordingTimerInterval := recordingTimerInterval r;
       recordingSeconds := seconds;
       nearing_limit :=
         if (WARNING_START_TIME <=? seconds)%nat && (seconds <? MAX_RECORDING_DURATION)%nat
         then true else nearing_limit r;
       timers := timers r; next_timer := next_timer r;
       next_recorder := next_recorder r; pending_starts := pending_starts r;
       stopped := stopped r |} in
  if (MAX_RECORDING_DURATION <=? seconds)%nat then stopRecording r else r.

(** [startRecording] after [getUserMedia] has resolved: a new recorder
    is started and a new interval is set. *)
Definition startRecording_resume (r : Recorder) : Recorder :=
  {| mediaRecorder := Some (next_recorder r); isVideoRecording := true;
     recordingTimerInterval := Some (next_timer r); recordingSeconds := 0;
     nearing_limit := nearing_limit r;
     timers := timers r ++ [next_timer r]; next_timer := Pos.succ (next_timer r);
     next_recorder := S (next_recorder r); pending_starts := Nat.pred (pending_starts r);
     stopped := stopped r |}.

(** What can happen to the recorder. *)
Inductive Event : Type :=
  | RecordButtonClick                 (* the user clicks [recordButton] *)
  | GetUserMediaResolves              (* a pending [startRecording] goes on *)
  | GetUserMediaRejects               (* it fails instead: [catch] *)
  | TimerFires (t : positive)         (* one second has passed on interval [t] *)
  | UploadChange.                     (* a file is chosen: [resetRecordingState] *)

Definition handle (e : Event) (r : Recorder) : Recorder :=
  match e with
  | RecordButtonClick =>
      if isVideoRecording r then stopRecording r
      else
        {| mediaRecorder := mediaRecorder r; isVideoRecording := isVideoRecording r;
           recordingTimerInterval := recordingTimerInterval r;
           recordingSeconds := recordingSeconds r; nearing_limit := nearing_limit r;
           timers := timers r; next_timer := next_timer r;
           next_recorder := next_recorder r; pending_starts := S (pending_starts r);
           stopped := stopped r |}
  | GetUserMediaResolves =>
      match pending_starts r with
      | O => r
      | S _ => startRecording_resume r
      end
  | GetUserMediaRejects =>
      {| mediaRecorder := mediaRecorder r; isVideoRecording := isVideoRecording r;
         recordingTimerInterval := recordingTimerInterval r;
         recordingSeconds := recordingSeconds r; nearing_limit := nearing_limit r;
         timers := timers r; next_timer := next_timer r;
         next_recorder := next_recorder r; pending_starts := Nat.pred (pending_starts r);
         stopped := stopped r |}
  | TimerFires t =>
      if existsb (Pos.eqb t) (timers r) then timer_callback r else r
  | UploadChange => resetRecordingState r
  end.

Definition run (events : list Event) (r : Recorder) : Recorder :=
  fold_left (fun r e => handle e r) events r.

(** Interval [t] fires [k] times in a row. *)
Definition tick_times (k : nat) (t : positive) (r : Recorder) : Recorder :=
  Nat.iter k (handle (TimerFires t)) r.

(** While a recording is on there is a recorder to stop, and fewer than
    30 ticks have been counted. *)
Definition safe (r : Recorder) : Prop :=
  isVideoRecording r = true ->
  mediaRecorder r <> None /\ recordingSeconds r < MAX_RECORDING_DURATION.

End Recording.

(* ===================================================================== *)
(** ** Strings the program builds: the timer text, the download name *)
(* ===================================================================== *)

Module JSString.

(** [String(n)] for a whole number [n]: its decimal digits.  (JavaScript
    switches to exponent notation from [1e21] on, far above what the
    program counts.) *)
Definition of_nat (n : nat) : string := pretty n.

(** The first [n] characters of [rest] followed by [pad], [pad], ... *)
Fixpoint fill (n : nat) (pad rest : string) : string :=
  match n with
  | O => EmptyString
  | S n' =>
      match rest with
      | String c r => String c (fill n' pad r)
      | EmptyString =>
          match pad with
          | String c r => String c (fill n' pad r)
          | EmptyString => EmptyString
          end
      end
  end.

(** [s.padStart(targetLength, padString)] *)
Definition padStart (targetLength : nat) (padString s : string) : string :=
  if (targetLength <=? String.length s)%nat then s
  else fill (targetLength - String.length s) padString padString ++ s.

Definition is_upper (c : ascii) : bool :=
  (65 <=? nat_of_ascii c)%nat && (nat_of_ascii c <=? 90)%nat.
Definition is_lower (c : ascii) : bool :=
  (97 <=? nat_of_ascii c)%nat && (nat_of_ascii c <=? 122)%nat.
Definition is_digit (c : ascii) : bool :=
  (48 <=? nat_of_ascii c)%nat && (nat_of_ascii c <=? 57)%nat.

(** Text of ASCII characters, on which the functions below are those of
    JavaScript.  (Outside ASCII, [toLowerCase] and the white space of
    [trim] and [\s] follow Unicode.) *)
Definition ascii_text (s : string) : bool :=
  forallb (fun c => (nat_of_ascii c <? 128)%nat) (list_ascii_of_string s).

Definition toLowerCase_char (c : ascii) : ascii :=
  if is_upper c then ascii_of_nat (nat_of_ascii c + 32) else c.

(** [s.toLowerCase()] *)
Fixpoint toLowerCase (s : string) : string :=
  match s with
  | EmptyString => EmptyString
  | String c rest => String (toLowerCase_char c) (toLowerCase rest)
  end.

(** [s.replace(/[^a-z0-9\s-]/g, '')]: the characters of the class are
    kept, every other one is removed. *)
Definition in_class (c : ascii) : bool :=
  is_lower c || is_digit c || Ascii.is_space c || Ascii.eqb c "-".

Fixpoint remove_outside_class (s : string) : string :=
  match s with
  | EmptyString => EmptyString
  | String c rest =>
      if in_class c then String c (remove_outside_class rest)
      else remove_outside_class rest
  end.

(** [s.replace(/\s+/g, '-')]: every maximal run of white space becomes
    one hyphen.  [in_run] tells that the character before was white space. *)
Fixpoint dash_runs (in_run : bool) (s : string) : string :=
  match s with
  | EmptyString => EmptyString
  | String c rest =>
      if Ascii.is_space c
      then if in_run then dash_runs true rest else String "-" (dash_runs true rest)
      else String c (dash_runs false rest)
  end.

(** [s.slice(0, n)] *)
Fixpoint slice_to (n : nat) (s : string) : string :=
  match n, s with
  | S n', String c rest => String c (slice_to n' rest)
  | _, _ => EmptyString
  end.

(** [s.split(',')[1]]: what stands between the first comma and the
    second, [None] ([undefined]) when there is no comma. *)
Fixpoint upto_comma (s : string) : string :=
  match s with
  | EmptyString => EmptyString
  | String c rest => if Ascii.eqb c "," then EmptyString else String c (upto_comma rest)
  end.

Fixpoint split_comma_1 (s : string) : option string :=
  match s with
  | EmptyString => None
  | String c rest => if Ascii.eqb c "," then Some (upto_comma rest) else split_comma_1 rest
  end.

End JSString.

(** [formatTime] *)
Definition formatTime (seconds : nat) : string :=
  let minutes := (seconds / 60)%nat in
  let remainingSeconds := (seconds mod 60)%nat in
  let formattedMinutes := JSString.padStart 2 "0" (JSString.of_nat minutes) in
  let formattedSeconds := JSString.padStart 2 "0" (JSString.of_nat remainingSeconds) in
  formattedMinutes ++ ":" ++ formattedSeconds.

(** The name the download button gives the file:
    [prompt.trim().toLowerCase().replace(/[^a-z0-9\s-]/g, '').replace(/\s+/g, '-')],
    cut to 50 characters, or a fixed name when nothing is left. *)
Definition safePrompt (prompt : string) : string :=
  JSString.dash_runs false
    (JSString.remove_outside_class (JSString.toLowerCase (trim prompt))).

Definition download_filename (prompt : string) : string :=
  let cut := JSString.slice_to 50 (safePrompt prompt) in
  if JS.truthy_string cut then cut else "veo-generated-video".


(** The character of a decimal digit. *)
Definition digit (n : nat) : ascii := ascii_of_nat (48 + n).

(** [recordingTimer.textContent] once a recording has been started: the
    program writes [formatTime(recordingSeconds)] into it wherever it
    assigns to [recordingSeconds]. *)
Definition recordingTimer (r : Recording.Recorder) : string :=
  formatTime (Recording.recordingSeconds r).

(** A character of a safe file name: [a-z], [0-9] or a hyphen. *)
Definition name_char (c : ascii) : bool :=
  JSString.is_lower c || JSString.is_digit c || Ascii.eqb c "-".

Definition safe_name (s : string) : bool :=
  forallb name_char (list_ascii_of_string s).

(** What a click on the download button hands to the browser: an anchor
    with [href] and [download], clicked once. *)
Record Download : Type := { href : Src; download : string }.


(** Recorder [n] has been left behind: it is not the current one, it was
    made before, and [stop] has not been called on it. *)
Definition left_behind (n : nat) (r : Recording.Recorder) : Prop :=
  Recording.mediaRecorder r <> Some n /\ n < Recording.next_recorder r
  /\ ~ In n (Recording.stopped r).

(** The recorders that were stopped and the current one were made
    before. *)
Definition recorders_made (r : Recording.Recorder) : Prop :=
  (forall n, In n (Recording.stopped r) -> n < Recording.next_recorder r)
  /\ (forall m, Recording.mediaRecorder r = Some m -> m < Recording.next_recorder r).

Section Player.

Context {Blob FS : Type}.
Context `{Eng : !MediaEngine Blob FS} `{Br : !Browser Blob}.

Local Abbreviation St := (@State Blob FS).

(** The [click] listener of [downloadButton].  [currentSrc] is
    [video.currentSrc], the address of the media the player has selected.
    [prompt.trim()] is a [TypeError] when [prompt] does not hold a
    string. *)
Definition downloadButton_onclick (currentSrc : Src) (st : St) : Flow.result Download :=
  if negb (src_truthy currentSrc) then Flow.Return
  else
    match prompt (config st) with
    | VString p =>
        Flow.Value {| href := video_src (video st);
                      download := download_filename p +:+ ".mp4" |}
    | _ => Flow.Raise Flow.TypeError
    end.

(** [handleTimeUpdateForTrim] *)
Definition handleTimeUpdateForTrim (st : St) : St :=
  if negb (isEditorOpen (editor st)) then st
  else
    let start := JS.parseFloat (val (trimStartSlider (editor st))) in
    let end_ := JS.parseFloat (val (trimEndSlider (editor st))) in
    let currentTime := video_currentTime (video st) in
    if JS.lt currentTime start || JS.gt currentTime end_
    then st |> on_video (set_video_currentTime start)
    else st.

(** Playback has moved on to time [t]: the browser fires [timeupdate],
    and the listener runs if it is registered. *)
Definition video_ontimeupdate (t : JS.num) (st : St) : St :=
  let st := st |> on_video (set_video_currentTime t) in
  if timeupdate_listener (video st) then handleTimeUpdateForTrim st else st.

(** The live object URLs but the one the player holds. *)
Definition urls_without_player (st : St) : gmap nat Blob :=
  match video_src (video st) with
  | SrcBlob old => delete old (urls st)
  | _ => urls st
  end.

End Player.

(** [try { body } catch (e) { handler } finally { cleanup }] around a
    body with an [await] that may never resume: nothing runs after a body
    that is still waiting. *)
Definition try_catch_finally_async {S} (body : Flow.M S (awaited unit))
    (handler cleanup : S -> S) (s : S) : S * awaited unit :=
  match body s with
  | (s', Flow.Value Pending) => (s', Pending)
  | (s', Flow.Value (Settled _)) => (cleanup s', Settled tt)
  | (s', Flow.Return) => (cleanup s', Settled tt)
  | (s', Flow.Raise _) => (cleanup (handler s'), Settled tt)
  end.

(** A block keeps the property [P] of the state: when [P] holds before
    it, [P] holds after it, whatever way it ends. *)
Definition keeps {S A} (P : S -> Prop) (m : Flow.M S A) : Prop :=
  forall s, P s -> P (fst (m s)).


(** Whether a value can be called.  The members of [Object.prototype]
    are functions, except [__proto__]. *)
Definition callable (v : value) : bool :=
  match v with
  | VBuiltin name => negb (String.eqb name "__proto__")
  | _ => false
  end.

(** Truthiness of a value. *)
Definition truthy (v : value) : bool :=
  match v with
  | VUndefined => false
  | VString s => JS.truthy_string s
  | VNumber JS.NaN => false
  | VNumber (JS.Fin q) => negb (Qeq_bool q 0)
  | VBuiltin _ => true
  end.

(** What [await generateThumbnail(blob)] comes to: the promise resolves
    with a data URL, rejects with an [Error], or never settles (no
    [seeked] and no [error] event comes). *)
Inductive Thumbnail : Type :=
  | ThumbnailReady (dataUrl : string)
  | ThumbnailFailed (message : string)
  | ThumbnailWaiting.

Section Clips.

Context {Blob FS : Type}.
Context `{Eng : !MediaEngine Blob FS} `{Br : !Browser Blob}.

Local Abbreviation St := (@State Blob FS).
Local Abbreviation Clip := (@Clip Blob).

(* --------------------------------------------------------------------- *)
(** *** The merge bin: its buttons *)
(* --------------------------------------------------------------------- *)

(** The [click] listener of the remove button [renderMergeBin] puts on
    entry [index] of the bin: [mergeBin.splice(index, 1)]. *)
Definition removeMergeClipButton_onclick (index : nat) (st : St) : St :=
  st |> set_mergeBin (delete index (mergeBin st)) |> renderMergeBin.

(** The [try] block of the listener of [addToMergeBinButton]. *)
Definition addToMergeBinButton_try (thumbnail : Blob -> Thumbnail) (now : nat)
    : Flow.M St (awaited unit) :=
  do src <- Flow.gets (fun st => video_src (video st));
  do blob <- fetchFile src;
  match thumbnail blob with
  | ThumbnailWaiting => Flow.ret Pending
  | ThumbnailFailed message => Flow.raise (Flow.Error message)
  | ThumbnailReady dataUrl =>
      let name := "Clip " +:+ JSString.of_nat now in
      step Flow.modify (addToMergeBin
             {| clip_id := None; clip_name := name; clip_blob := blob;
                clip_thumbnail := dataUrl |});
      Flow.ret (Settled tt)
  end.

(** The [click] listener of [addToMergeBinButton].  [thumbnail] is what
    [generateThumbnail] comes to for a blob, [now] is [Date.now()]. *)
Definition addToMergeBinButton_onclick (thumbnail : Blob -> Thumbnail) (now : nat)
    (st : St) : St * awaited unit :=
  if negb (src_truthy (video_src (video st))) then (st, Settled tt)
  else
    st |> set_statusEl (JS.lit "Adding to bin...")
       |> try_catch_finally_async (addToMergeBinButton_try thumbnail now)
            (set_statusEl (JS.lit "Error adding video to bin."))
            (set_statusEl (JS.lit "Added to bin.")).

(* --------------------------------------------------------------------- *)
(** *** My clips: the database and the list *)
(* --------------------------------------------------------------------- *)

(** The object store [clips] of the IndexedDB database, an external
    collaborator.  [DB] is its state; a request that fails answers [None]
    or [false]. *)
Class ClipDatabase (DB : Type) : Type := {
  (** [initDB]: [indexedDB.open(DB_NAME, DB_VERSION)] *)
  idb_open : option DB;
  (** [dbGetClips]: [store.getAll()] *)
  idb_getAll : DB -> option (list Clip);
  (** [dbAddClip]: [store.add(clip)] of a clip with no [id]; the key it
      was given *)
  idb_add : string -> Blob -> string -> DB -> DB * option nat;
  (** [dbDeleteClip]: [store.delete(id)] *)
  idb_delete : nat -> DB -> DB * bool
}.

Context {DB : Type} `{Idb : !ClipDatabase DB}.

(** The session together with the variables [db] and [myClips]. *)
Record Library : Type := {
  studio : St;
  db : option DB;
  myClips : list Clip
}.

Definition on_studio (f : St -> St) (x : Library) : Library :=
  {| studio := f (studio x); db := db x; myClips := myClips x |}.
Definition set_db (v : option DB) (x : Library) : Library :=
  {| studio := studio x; db := v; myClips := myClips x |}.
Definition set_myClips (v : list Clip) (x : Library) : Library :=
  {| studio := studio x; db := db x; myClips := v |}.

(** A block over the session run inside the library. *)
Definition in_studio {A} (m : Flow.M St A) : Flow.M Library A :=
  fun x => let '(st, r) := m (studio x) in (on_studio (fun _ => st) x, r).

(** [db = await initDB(); myClips = await dbGetClips(); renderMyClips();] *)
Definition load_clips : Flow.M Library unit :=
  fun x =>
    match idb_open with
    | Some d =>
        let x := set_db (Some d) x in
        match idb_getAll d with
        | Some clips => (set_myClips clips x, Flow.Value tt)
        | None => (x, Flow.Raise Flow.EngineError)
        end
    | None => (x, Flow.Raise (Flow.Error "Error opening DB"))
    end.

(** The [DOMContentLoaded] listener.  ([console.error] apart, the [catch]
    only writes the status line; a rejected [loadFFmpeg] is a rejection
    nobody handles.) *)
Definition document_onDOMContentLoaded (x : Library) : Library :=
  let x :=
    match load_clips x with
    | (x', Flow.Raise _) =>
        on_studio (set_statusEl (JS.lit "Could not load saved clips.")) x'
    | (x', _) => x'
    end in
  on_studio (fun st => fst (loadFFmpeg st)) x.

(** [await dbAddClip(clip)]; [db.transaction] is a [TypeError] when [db]
    is [null]. *)
Definition dbAddClip (name : string) (blob : Blob) (thumbnail : string)
    : Flow.M Library nat :=
  fun x =>
    match db x with
    | Some d =>
        let '(d', key) := idb_add name blob thumbnail d in
        (set_db (Some d') x,
         match key with
         | Some id => Flow.Value id
         | None => Flow.Raise Flow.EngineError
         end)
    | None => (x, Flow.Raise Flow.TypeError)
    end.

(** [await dbDeleteClip(id)] *)
Definition dbDeleteClip (id : nat) : Flow.M Library unit :=
  fun x =>
    match db x with
    | Some d =>
        let '(d', ok) := idb_delete id d in
        (set_db (Some d') x,
         if ok then Flow.Value tt else Flow.Raise Flow.EngineError)
    | None => (x, Flow.Raise Flow.TypeError)
    end.

(** [prompt(message, default)] in the listeners of the save and rename
    buttons.  The identifier is the variable [prompt] of the module
    ([let prompt = ''], the text of the generation prompt), which hides
    [window.prompt]: the call is a [TypeError] unless the variable holds a
    function, and then [answer] is what the call comes to. *)
Definition call_prompt (answer : value) : Flow.M Library value :=
  fun x =>
    if callable (prompt (config (studio x)))
    then (x, Flow.Value answer)
    else (x, Flow.Raise Flow.TypeError).

(** [name.trim()], and the test [!name || name.trim() === ''] before it:
    [None] when the listener returns there. *)
Definition trimmed_name (name : value) : Flow.M Library (option string) :=
  if negb (truthy name) then Flow.ret None
  else
    match name with
    | VString s =>
        if negb (JS.truthy_string (trim s)) then Flow.ret None
        else Flow.ret (Some (trim s))
    | _ => Flow.raise Flow.TypeError
    end.

(** The [try] block of the listener of [saveClipButton]. *)
Definition saveClipButton_try (name : string) (thumbnail : Blob -> Thumbnail)
    : Flow.M Library (awaited unit) :=
  do src <- Flow.gets (fun x => video_src (video (studio x)));
  do blob <- in_studio (fetchFile src);
  match thumbnail blob with
  | ThumbnailWaiting => Flow.ret Pending
  | ThumbnailFailed message => Flow.raise (Flow.Error message)
  | ThumbnailReady dataUrl =>
      do id <- dbAddClip name blob dataUrl;
      step Flow.modify (fun x =>
             set_myClips (myClips x ++
               [ {| clip_id := Some id; clip_name := name; clip_blob := blob;
                    clip_thumbnail := dataUrl |} ]) x);
      step Flow.modify (on_studio (set_statusEl (JS.lit "Clip saved!")));
      Flow.ret (Settled tt)
  end.

(** The [click] listener of [saveClipButton].  An exception before the
    [try] block is a rejection nobody handles. *)
Definition saveClipButton_onclick (answer : value) (thumbnail : Blob -> Thumbnail)
    : Flow.M Library (awaited unit) :=
  do src <- Flow.gets (fun x => video_src (video (studio x)));
  if negb (src_truthy src) then Flow.return_
  else
    do name <- call_prompt answer;
    do name <- trimmed_name name;
    match name with
    | None => Flow.return_
    | Some name =>
        step Flow.modify (on_studio (set_statusEl (JS.lit "Saving clip...")));
        fun x =>
          let '(x', w) :=
            try_catch_finally_async (saveClipButton_try name thumbnail)
              (on_studio (set_statusEl (JS.lit "Error saving clip.")))
              (fun x => x) x in
          (x', Flow.Value w)
    end.

(** The [click] listener of the load button of entry [i] of the list
    (the listeners are made anew whenever [myClips] changes, so entry [i]
    is [myClips[i]]; a clip of the list has a blob, so [if (clip.blob)] is
    taken).  The URL the player held is not revoked. *)
Definition loadClipButton_onclick (i : nat) (x : Library) : Library :=
  match myClips x !! i with
  | Some clip =>
      x |> on_studio (fun st =>
             fst ((do objectURL <- createObjectURL (clip_blob clip);
                   Flow.modify (assign_video_src objectURL)) st))
  | None => x
  end.

(** The [click] listener of the add-to-bin button of entry [i]. *)
Definition addClipToBinButton_onclick (i : nat) (x : Library) : Library :=
  match myClips x !! i with
  | Some clip => x |> on_studio (addToMergeBin clip)
  | None => x
  end.

(** [if (clip.id)]: an id that is there and is not [0]. *)
Definition truthy_id (id : option nat) : option nat :=
  match id with
  | Some (S n) => Some (S n)
  | _ => None
  end.

(** The [click] listener of the delete button of entry [i]; [confirmed]
    is the answer of [confirm]. *)
Definition deleteClipButton_onclick (i : nat) (confirmed : bool) : Flow.M Library unit :=
  do clips <- Flow.gets myClips;
  match clips !! i with
  | Some clip =>
      if confirmed
      then
        match truthy_id (clip_id clip) with
        | Some id =>
            step dbDeleteClip id;
            Flow.modify (fun x =>
              set_myClips
                (List.filter (fun c => negb (bool_decide (clip_id c = clip_id clip)))
                             (myClips x)) x)
        | None => Flow.ret tt
        end
      else Flow.ret tt
  | None => Flow.ret tt
  end.

End Clips.

Arguments ClipDatabase : clear implicits.
Arguments Library : clear implicits.

Module JSError.

(** [s.includes(needle)] *)
Fixpoint includes (needle s : string) : bool :=
  String.prefix needle s
  || match s with
     | String _ rest => includes needle rest
     | EmptyString => false
     end.

(** What is left of [s] after the prefix [p], when [s] starts with [p]. *)
Fixpoint drop_prefix (p s : string) : option string :=
  match p, s with
  | EmptyString, _ => Some s
  | String a p', String b s' => if Ascii.eqb a b then drop_prefix p' s' else None
  | String _ _, EmptyString => None
  end.

(** What follows the first occurrence of [needle] in [s]. *)
Fixpoint after_first (needle s : string) : option string :=
  match drop_prefix needle s with
  | Some rest => Some rest
  | None =>
      match s with
      | String _ rest => after_first needle rest
      | EmptyString => None
      end
  end.

(** The part of [s] before its first line terminator (a dot of a regular
    expression matches no line terminator). *)
Fixpoint upto_line_end (s : string) : string :=
  match s with
  | String c rest =>
      if Ascii.eqb c "010" || Ascii.eqb c "013" then EmptyString
      else String c (upto_line_end rest)
  | EmptyString => EmptyString
  end.

(** [message.match(re)[1]] for the pattern [re] of the [catch] block:
    the text "[GoogleGenAI Error]:", any white space, and a group that
    takes the rest of the line.  The pattern is found at the first place
    the text stands, [None] when it stands nowhere. *)
Definition match_GoogleGenAI_Error (message : string) : option string :=
  match after_first "[GoogleGenAI Error]:" message with
  | Some rest => Some (upto_line_end (trim_left rest))
  | None => None
  end.

(** What [generate] may catch: an [Error] with its [message], or any
    other value [e], with [String(e)]. *)
Inductive Thrown : Type :=
  | ThrownError (message : string)
  | ThrownOther (text : string).

(** What the [catch] block reads of [JSON.parse(errorMessage)]:
    the text is no JSON (or is [null], whose [.error] cannot be read);
    it has no [error], or a falsy one; it has an [error], and then
    whether [error.code === 429] and what [String(error.message)] is. *)
Inductive ApiError : Type :=
  | NotJson
  | NoError
  | ErrorWith (code_is_429 : bool) (message : JS.text).

End JSError.

Section Generation.

Context {Blob FS : Type}.
Context `{Eng : !MediaEngine Blob FS} `{Br : !Browser Blob}.

Local Abbreviation St := (@State Blob FS).

(** The session together with the quota panel ([quotaErrorEl]), the one
    element [generate] and its [catch] block show and hide. *)
Record Page : Type := {
  page : St;
  quotaError_shown : bool
}.

Definition on_page (f : St -> St) (x : Page) : Page :=
  {| page := f (page x); quotaError_shown := quotaError_shown x |}.

(** The [catch] block of [generate]; [parse] stands for [JSON.parse] and
    the reads of [.error], [.code] and [.message]. *)
Definition generate_catch (parse : string -> JSError.ApiError) (e : JSError.Thrown)
    (x : Page) : Page :=
  match e with
  | JSError.ThrownError message =>
      let lower := JSString.toLowerCase message in
      if JSError.includes "network" lower || JSError.includes "failed to fetch" lower
      then x |> on_page (set_statusEl (JS.lit
             "Network error. Please check your internet connection and try again."))
      else
        let errorMessage :=
          match JSError.match_GoogleGenAI_Error message with
          | Some group => group
          | None => message
          end in
        match parse errorMessage with
        | JSError.ErrorWith true _ =>
            {| page := set_statusEl (JS.lit EmptyString) (page x);
               quotaError_shown := true |}
        | JSError.ErrorWith false message' =>
            x |> on_page (set_statusEl (JS.PStr "API Error: " :: message'))
        | JSError.NoError => x |> on_page (set_statusEl (JS.lit message))
        | JSError.NotJson => x |> on_page (set_statusEl (JS.lit message))
        end
  | JSError.ThrownOther text =>
      x |> on_page (set_statusEl [JS.PStr "An unexpected error occurred: "; JS.PStr text])
  end.

(** What the [await generateContent(...)] of [generate] throws, when
    [generateContent] ends in [e]: its own [Error], or what a call of the
    service was rejected with ([rejection]). *)
Definition thrown_by (rejection : JSError.Thrown) (e : Flow.error) : JSError.Thrown :=
  match e with
  | Flow.Error message => JSError.ThrownError message
  | _ => rejection
  end.

(** [generate] from [await generateContent(...)] on: the call, the status
    when it resolves, the [catch] block when it rejects, and [finally]. *)
Definition generate_await (isPreview : bool)
    (first : option Operation) (answers : list (nat * option Operation))
    (parse : string -> JSError.ApiError) (rejection : JSError.Thrown)
    (x : Page) : Page * awaited unit :=
  let statusDone := if isPreview then "Preview ready." else "Done." in
  match generateContent first answers (page x) with
  | (st, Flow.Value Pending) => (on_page (fun _ => st) x, Pending)
  | (st, Flow.Value (Settled _)) | (st, Flow.Return) =>
      (on_page (fun _ => st) x
         |> on_page (set_statusEl (JS.lit statusDone))
         |> on_page (on_config (set_controls_disabled false)),
       Settled tt)
  | (st, Flow.Raise e) =>
      (on_page (fun _ => st) x
         |> generate_catch parse (thrown_by rejection e)
         |> on_page (on_config (set_controls_disabled false)),
       Settled tt)
  end.

(** The request [generateContent] sends for the settings of the session
    and the image [imageBytes]. *)
Definition request_with (isPreview : bool) (imageBytes : option string) (st : St)
    : GenerateVideosParameters :=
  {| gv_prompt := prompt (config st);
     gv_image :=
       match imageBytes with
       | Some bytes => if JS.truthy_string bytes then Some bytes else None
       | None => None
       end;
     gv_aspectRatio := aspectRatio (config st);
     gv_durationSeconds := if isPreview then VNumber (JS.Fin 1) else duration (config st);
     gv_resolution := if isPreview then VString "720p" else resolution (config st);
     gv_numberOfVideos := 1 |}.

(** A whole run of [generate].  [thumbnail] is what [generateThumbnail]
    comes to, [first] and [answers] are the answers of the video service,
    [parse] and [rejection] as above. *)
Definition generate_run (isPreview : bool) (thumbnail : Blob -> Thumbnail)
    (first : option Operation) (answers : list (nat * option Operation))
    (parse : string -> JSError.ApiError) (rejection : JSError.Thrown)
    (x : Page) : Page * awaited unit :=
  let statusGenerating :=
    if isPreview then "Generating preview..."
    else "Generating... This may take a few minutes." in
  let x := {| page := generate isPreview (page x); quotaError_shown := false |} in
  match recordedVideoBlob (config (page x)) with
  | None => generate_await isPreview first answers parse rejection x
  | Some blob =>
      match thumbnail blob with
      | ThumbnailWaiting => (x, Pending)
      | ThumbnailFailed _ =>
          (x |> on_page (set_statusEl (JS.lit "Failed to get frame from video."))
             |> on_page (on_config (set_controls_disabled false)),
           Settled tt)
      | ThumbnailReady fullDataUrl =>
          x |> on_page (set_statusEl (JS.lit statusGenerating))
            |> on_page (fun st =>
                 set_submitted
                   (submitted st ++
                    [request_with isPreview (JSString.split_comma_1 fullDataUrl) st]) st)
            |> generate_await isPreview first answers parse rejection
      end
  end.

(** There is no recording to take a frame of, or [generateThumbnail]
    makes the frame of the recording. *)
Definition frame_is_made (thumbnail : Blob -> Thumbnail) (st : St) : Prop :=
  match recordedVideoBlob (config st) with
  | None => True
  | Some blob => exists fullDataUrl, thumbnail blob = ThumbnailReady fullDataUrl
  end.

End Generation.

Module JSNumber.

(** The value of the longest prefix of decimal digits of [s], on top of
    [acc]. *)
Fixpoint digits_value (acc : N) (s : string) : N :=
  match s with
  | String c rest =>
      if JSString.is_digit c
      then digits_value (acc * 10 + N.of_nat (nat_of_ascii c - 48)) rest
      else acc
  | EmptyString => acc
  end.

Definition starts_with_digit (s : string) : bool :=
  match s with
  | String c _ => JSString.is_digit c
  | EmptyString => false
  end.

(** [parseInt(s, 10)]: leading white space and one sign are skipped, the
    digits that follow are read, whatever comes after them is ignored;
    [NaN] when no digit is there.  The whole number the digits spell is
    turned into a Number: above [2 ^ 53] it is rounded.  (From the 21st
    digit on JavaScript may read a digit as 0, and a number above the
    largest binary64 value is [Infinity]; texts that long are outside
    the model.) *)
Definition parseInt10 (s : string) : JS.num :=
  let s := trim_left s in
  let '(negative, s) :=
    match s with
    | String "-" rest => (true, rest)
    | String "+" rest => (false, rest)
    | _ => (false, s)
    end in
  if starts_with_digit s
  then
    let n := JS.round64 (inject_Z (Z.of_N (digits_value 0 s))) in
    JS.Fin (if negative then - n else n)%Q
  else JS.NaN.

End JSNumber.

Section Handlers.

Context {Blob FS : Type}.
Context `{Eng : !MediaEngine Blob FS} `{Br : !Browser Blob}.

Local Abbreviation St := (@State Blob FS).

(* --------------------------------------------------------------------- *)
(** *** The settings: the listeners of the four inputs *)
(* --------------------------------------------------------------------- *)

(** The [input] listener of [promptEl], after the user has made the text
    of the field [text]. *)
Definition promptEl_oninput (text : string) (st : St) : St :=
  st |> on_config (set_promptEl (JS.lit text))
     |> on_config (set_prompt (VString text)).

(** The [change] listener of [aspectRatioSelect], after the user has
    picked the option [v]. *)
Definition aspectRatioSelect_onchange (v : string) (st : St) : St :=
  let st := st |> on_config (on_aspectRatioSelect (select_assign v)) in
  st |> on_config (set_aspectRatio (VString (selected (aspectRatioSelect (config st))))).

(** The [change] listener of [durationInput]; [text] is what
    [durationInput.value] reads after the change. *)
Definition durationInput_onchange (text : string) (st : St) : St :=
  st |> on_config (set_durationInput (JS.lit text))
     |> on_config (set_duration (VNumber (JSNumber.parseInt10 text))).

(** The [change] listener of [qualitySelect], after the user has picked
    the option [v]. *)
Definition qualitySelect_onchange (v : string) (st : St) : St :=
  let st := st |> on_config (on_qualitySelect (select_assign v)) in
  st |> on_config (set_resolution (VString (selected (qualitySelect (config st))))).

(* --------------------------------------------------------------------- *)
(** *** Everything that can happen to the session *)
(* --------------------------------------------------------------------- *)

(** An event the session reacts to: what the user does to a widget, what
    the browser reports about the video, an answer the program waits for
    (the end of [generateContent], a download), a function call of the
    agent.  ([GenerationEnds] goes with a [generate] that was started with
    no recording to take a frame of; the recorder is modelled apart.) *)
Inductive Action : Type :=
  | TypePrompt (text : string)
  | PickAspectRatio (v : string)
  | TypeDuration (text : string)
  | PickQuality (v : string)
  | ClickGenerate (isPreview : bool)
  | GenerationEnds (isPreview : bool) (first : option Operation)
      (answers : list (nat * option Operation))
      (parse : string -> JSError.ApiError) (rejection : JSError.Thrown)
  | DownloadCompletes (i : nat)
  | ClickEdit
  | ClickCancel
  | MoveTrim (m : TrimMutation)
  | ClickApplyTrim
  | PickEffect (name : string)
  | ClickApplyEffect
  | MetadataLoaded
  | TimeUpdate (t : JS.num)
  | ClickAddToBin (thumbnail : Blob -> Thumbnail) (now : nat)
  | ClickRemoveFromBin (index : nat)
  | ClickClearBin
  | ClickMerge
  | CallTool (name : string) (args : option Args).

(** The session after the listener of an event has run (as far as it
    runs without waiting). *)
Definition perform (a : Action) (st : St) : St :=
  match a with
  | TypePrompt text => promptEl_oninput text st
  | PickAspectRatio v => aspectRatioSelect_onchange v st
  | TypeDuration text => durationInput_onchange text st
  | PickQuality v => qualitySelect_onchange v st
  | ClickGenerate isPreview =>
      click (controls_disabled (config st)) (generate isPreview) st
  | GenerationEnds isPreview first answers parse rejection =>
      page (fst (generate_await isPreview first answers parse rejection
                   {| page := st; quotaError_shown := false |}))
  | DownloadCompletes i => download_completes i st
  | ClickEdit => click (editButton_disabled (editor st)) editButton_onclick st
  | ClickCancel => click (cancelTrimButton_disabled (editor st)) cancelTrimButton_onclick st
  | MoveTrim m => mutate_trim m st
  | ClickApplyTrim => click (applyTrimButton_disabled (editor st)) applyTrim st
  | PickEffect name => st |> on_editor (on_effectsSelect (select_assign name))
  | ClickApplyEffect => click (applyEffectButton_disabled (editor st)) handleApplyEffect st
  | MetadataLoaded => video_onloadedmetadata st
  | TimeUpdate t => video_ontimeupdate t st
  | ClickAddToBin thumbnail now => fst (addToMergeBinButton_onclick thumbnail now st)
  | ClickRemoveFromBin index => removeMergeClipButton_onclick index st
  | ClickClearBin => clearMergeBinButton_onclick st
  | ClickMerge => click (mergeVideosButton_disabled st) mergeVideosButton_onclick st
  | CallTool name args =>
      match tool_of name with
      | Some tool => fst (tool args st)
      | None => st
      end
  end.

Definition perform_all (actions : list Action) (st : St) : St :=
  fold_left (fun st a => perform a st) actions st.

(** What holds of the session between two events: the preview listener
    is registered exactly while the editor is open; the three buttons of
    the editor are enabled; the object URL the player holds, if it holds
    one, is live; and [prompt] does not hold a function. *)
Record consistent (st : St) : Prop := {
  listener_follows_editor :
    timeupdate_listener (video st) = isEditorOpen (editor st);
  editor_buttons_enabled :
    applyTrimButton_disabled (editor st) = false
    /\ cancelTrimButton_disabled (editor st) = false
    /\ applyEffectButton_disabled (editor st) = false;
  player_url_is_live : held_url st ⊆ dom (urls st);
  prompt_is_no_function : callable (prompt (config st)) = false
}.

(** The part of [consistent] that also holds while an edit is running,
    with the buttons of the editor disabled. *)
Definition steady (st : St) : Prop :=
  timeupdate_listener (video st) = isEditorOpen (editor st)
  /\ held_url st ⊆ dom (urls st)
  /\ callable (prompt (config st)) = false.

(** The editor is [e] and the preview listener is registered or not as
    [l] tells. *)
Definition editor_as (e : Editor) (l : bool) (st : St) : Prop :=
  editor st = e /\ timeupdate_listener (video st) = l.

Context {DB : Type} `{Idb : !ClipDatabase Blob DB}.

Local Abbreviation Lib := (Library Blob FS DB).

(** The same for the session with its library of clips. *)
Inductive LibraryAction : Type :=
  | InStudio (a : Action)
  | DOMContentLoaded
  | ClickSave (answer : value) (thumbnail : Blob -> Thumbnail)
  | ClickLoadClip (i : nat)
  | ClickAddClipToBin (i : nat)
  | ClickDeleteClip (i : nat) (confirmed : bool).

Definition perform_in_library (a : LibraryAction) (x : Lib) : Lib :=
  match a with
  | InStudio a => on_studio (perform a) x
  | DOMContentLoaded => document_onDOMContentLoaded x
  | ClickSave answer thumbnail => fst (saveClipButton_onclick answer thumbnail x)
  | ClickLoadClip i => loadClipButton_onclick i x
  | ClickAddClipToBin i => addClipToBinButton_onclick i x
  | ClickDeleteClip i confirmed => fst (deleteClipButton_onclick i confirmed x)
  end.

Definition perform_all_in_library (actions : list LibraryAction) (x : Lib) : Lib :=
  fold_left (fun x a => perform_in_library a x) actions x.

Definition consistent_library (x : Lib) : Prop := consistent (studio x).

End Handlers.

(** The names of the tool calls shown in the chat window, in order. *)
Definition tool_calls_shown (bubbles : list Bubble) : list string :=
  omap (fun b => match b with ToolBubble name _ => Some name | _ => None end) bubbles.

(** The names of the function responses sent to the model, in order. *)
Definition results_returned (out : list Outgoing) : list string :=
  omap (fun o => match o with FunctionResponse name _ => Some name | _ => None end) out.

Section Exchange.

Context {Blob FS H : Type}.


End Exchange.

(* ===================================================================== *)
(** ** A reference world, to run the model on concrete inputs *)
(* ===================================================================== *)

Module Ref.

(** In the reference world a blob is told apart by its duration in
    seconds only: the blob type is [Q]. *)

(** The files the reference engine holds: [input.mp4], the numbered
    inputs of a merge in the order written, and [output.mp4]. *)
Record Files : Type := {
  input : option Q;
  inputs : list Q;
  output : option Q;
  loaded : bool
}.

Definition piece_eqb (a b : JS.piece) : bool :=
  match a, b with
  | JS.PStr x, JS.PStr y => String.eqb x y
  | JS.PNum (JS.Fin x), JS.PNum (JS.Fin y) => Qeq_bool x y
  | JS.PNum JS.NaN, JS.PNum JS.NaN => true
  | JS.PFix1 (JS.Fin x), JS.PFix1 (JS.Fin y) => Qeq_bool x y
  | JS.PFix1 JS.NaN, JS.PFix1 JS.NaN => true
  | _, _ => false
  end.

Fixpoint text_eqb (a b : JS.text) : bool :=
  match a, b with
  | [], [] => true
  | x :: a', y :: b' => piece_eqb x y && text_eqb a' b'
  | _, _ => false
  end.

Definition writeFile (name : JS.text) (data : FileData Q) (fs : Files) : Files * bool :=
  if negb (loaded fs) then (fs, false)
  else
    match data with
    | FBlob d =>
        if text_eqb name (JS.lit "input.mp4")
        then ({| input := Some d; inputs := inputs fs; output := output fs;
                 loaded := true |}, true)
        else ({| input := input fs; inputs := inputs fs ++ [d]; output := output fs;
                 loaded := true |}, true)
    | FText _ => (fs, true)
    end.

Definition with_output (d : Q) (fs : Files) : Files * bool :=
  ({| input := input fs; inputs := inputs fs; output := Some d; loaded := loaded fs |},
   true).

Definition Qsum (l : list Q) : Q := fold_right Qplus 0%Q l.

(** The duration of what a filter makes of a clip of duration [d]. *)
Definition filtered (filter : JS.text) (d : Q) : Q :=
  if text_eqb filter (JS.lit "setpts=2.0*PTS") then (2 * d)%Q
  else if text_eqb filter (JS.lit "setpts=0.5*PTS") then (d / 2)%Q
  else d.

Definition exec (command : list JS.text) (fs : Files) : Files * bool :=
  if negb (loaded fs) then (fs, false)
  else
    match command with
    | [ _; _; _; [JS.PNum (JS.Fin s)]; _; [JS.PNum (JS.Fin e)]; _; _; _ ] =>
        match input fs with
        | Some _ => with_output (e - s)%Q fs
        | None => (fs, false)
        end
    | [ f; _; _; _; _; _; _; _; _ ] =>
        if text_eqb f (JS.lit "-f") then with_output (Qsum (inputs fs)) fs
        else (fs, false)
    | [ _; _; _; filter; _ ] =>
        match input fs with
        | Some d => with_output (filtered filter d) fs
        | None => (fs, false)
        end
    | _ => (fs, false)
    end.

Definition readFile (name : JS.text) (fs : Files) : option Q :=
  if loaded fs && text_eqb name (JS.lit "output.mp4") then output fs else None.

Definition fresh : Files :=
  {| input := None; inputs := []; output := None; loaded := false |}.

Definition load (fs : Files) : Files * bool :=
  ({| input := input fs; inputs := inputs fs; output := output fs; loaded := true |},
   true).

(** An engine that works. *)
Definition engine : MediaEngine Q Files :=
  {| ff_new := fresh; ff_load := load; ff_writeFile := writeFile;
     ff_exec := exec; ff_readFile := readFile |}.

(** An engine whose [exec] always rejects. *)
Definition broken_engine : MediaEngine Q Files :=
  {| ff_new := fresh; ff_load := load; ff_writeFile := writeFile;
     ff_exec := fun _ fs => (fs, false); ff_readFile := readFile |}.

(** A network that serves, for every URL, a clip as many seconds long as
    the URL has characters. *)
Definition browser : Browser Q :=
  {| media_duration := JS.Fin;
     fetch_url := fun url => Some (inject_Z (Z.of_nat (String.length url)));
     decodeURIComponent := Some;
     GEMINI_API_KEY := "k" |}.

(** A model that answers from a script and rejects when it is used up. *)
Definition scripted : ChatModel (list GenerateContentResponse) :=
  {| chat_sendMessage := fun _ script =>
       match script with
       | answer :: rest => (rest, Some answer)
       | [] => ([], None)
       end |}.


Definition effect_options : list string :=
  [ "none"; "grayscale"; "sepia"; "vignette"; "fade"; "slowmo"; "fastforward" ].

Definition closed_editor : Editor :=
  {| isEditorOpen := false;
     trimStartSlider := {| val := JS.zero; maxv := JS.NaN |};
     trimEndSlider := {| val := JS.zero; maxv := JS.NaN |};
     trimStartTimeInput := {| val := JS.zero; maxv := JS.NaN |};
     trimEndTimeInput := {| val := JS.zero; maxv := JS.NaN |};
     effectsSelect := {| options := effect_options; selected := "none" |};
     editButton_disabled := false; applyTrimButton_disabled := false;
     cancelTrimButton_disabled := false; applyEffectButton_disabled := false |}.

Definition default_config : @Config Q :=
  {| prompt := VString EmptyString; promptEl := [];
     aspectRatio := VString "16:9";
     aspectRatioSelect :=
       {| options := ["16:9"; "9:16"; "1:1"; "4:3"; "3:4"]; selected := "16:9" |};
     duration := VNumber (JS.Fin 1); durationInput := [JS.PNum (JS.Fin 1)];
     resolution := VString "720p";
     qualitySelect := {| options := ["720p"; "1080p"]; selected := "720p" |};
     base64data := EmptyString; recordedVideoBlob := None;
     controls_disabled := false |}.

(** The page after it has loaded its engine, with nothing in the player. *)
Definition empty_session : @State Q Files :=
  {| config := default_config;
     video := {| video_src := SrcEmpty; video_duration := JS.NaN;
                 video_currentTime := JS.zero; loadedmetadata_once := 0;
                 timeupdate_listener := false |};
     editor := closed_editor;
     ffmpeg := Some (fst (load fresh));
     engine_calls := []; urls := ∅; statusEl := [];
     mergeBin := []; mergeVideosButton_disabled := true;
     submitted := []; pending_fetches := [] |}.

(** The same page with a clip of [d] seconds in the player, its metadata
    loaded. *)
Definition session_with_video (d : Q) : @State Q Files :=
  {| config := default_config;
     video := {| video_src := SrcBlob 0; video_duration := JS.Fin d;
                 video_currentTime := JS.zero; loadedmetadata_once := 0;
                 timeupdate_listener := false |};
     editor := closed_editor;
     ffmpeg := Some (fst (load fresh));
     engine_calls := []; urls := {[ 0 := d ]}; statusEl := [];
     mergeBin := []; mergeVideosButton_disabled := true;
     submitted := []; pending_fetches := [] |}.

Definition clip (d : Q) : @Clip Q :=
  {| clip_id := None; clip_name := "Clip"; clip_blob := d;
     clip_thumbnail := EmptyString |}.

Definition trim_args (s e : Q) : Args :=
  {| newPrompt := None; newAspectRatio := None; newDuration := None;
     newQuality := None; startTime := Some (JS.Fin s); endTime := Some (JS.Fin e);
     effectName := None |}.

Definition quality_args (q : string) : Args :=
  {| newPrompt := None; newAspectRatio := None; newDuration := None;
     newQuality := Some q; startTime := None; endTime := None;
     effectName := None |}.

(** The page with a clip of [d] seconds and the editor open on it. *)
Definition open_editor (d : Q) : @State Q Files :=
  editButton_onclick (Eng := engine) (session_with_video d).

(** The sliders put at [s] and [e]. *)
Definition with_range (s e : Q) (st : @State Q Files) : @State Q Files :=
  st |> on_editor (on_trimStartSlider (set_val (JS.Fin s)))
     |> on_editor (on_trimEndSlider (set_val (JS.Fin e))).

(** An effect chosen in the list. *)
Definition with_effect (name : string) (st : @State Q Files) : @State Q Files :=
  st |> on_editor (on_effectsSelect (select_assign name)).

(** The engine of the page replaced by one that was never loaded. *)
Definition with_unloaded_engine (st : @State Q Files) : @State Q Files :=
  st |> set_ffmpeg (Some fresh).

(** Two clips of 4 and 6 seconds in the merge bin. *)
Definition two_in_bin : @State Q Files :=
  empty_session |> addToMergeBin (clip 4) |> addToMergeBin (clip 6).

(** An operation the service is still working on. *)
Definition in_progress : Operation := {| done := false; generatedVideos := None |}.

(** A finished operation with two videos. *)
Definition two_videos : Operation :=
  {| done := true;
     generatedVideos := Some [ {| video_uri := "a" |}; {| video_uri := "bb" |} ] |}.

(** The agent panel over a session, the input typed and the answers of
    the model scripted. *)
Definition agent (st : @State Q Files) (input : string)
    (script : list GenerateContentResponse)
    : @Agent Q Files (list GenerateContentResponse) :=
  {| session := st; chat := script; sent := []; chatWindow := [];
     agentInput := input; agentSendButton_disabled := false |}.

(** An answer of the model in plain text. *)
Definition says (message : string) : GenerateContentResponse :=
  {| candidates := Some [ {| content_parts := Some [ {| functionCall := None |} ] |} ];
     response_text := Some message |}.

End Ref.

(* ===================================================================== *)
(** ** The reference world, with a library of clips *)
(* ===================================================================== *)

Module RefLibrary.

(** A database that keeps its clips in a list and numbers them from 1. *)
Definition add (name : string) (blob : Q) (thumbnail : string) (d : list (@Clip Q))
    : list (@Clip Q) * option nat :=
  let id := S (List.length d) in
  (d ++ [ {| clip_id := Some id; clip_name := name; clip_blob := blob;
             clip_thumbnail := thumbnail |} ],
   Some id).

Definition remove (id : nat) (d : list (@Clip Q)) : list (@Clip Q) * bool :=
  (List.filter (fun c => negb (bool_decide (clip_id c = Some id))) d, true).

Definition database : ClipDatabase Q (list (@Clip Q)) :=
  {| idb_open := Some [ {| clip_id := Some 1; clip_name := "Beach"; clip_blob := 7%Q;
                           clip_thumbnail := "data:image/jpeg;base64,AA" |} ];
     idb_getAll := Some; idb_add := add; idb_delete := remove |}.

(** A database that cannot be opened. *)
Definition no_database : ClipDatabase Q (list (@Clip Q)) :=
  {| idb_open := None; idb_getAll := Some; idb_add := add; idb_delete := remove |}.

(** Every clip gets the same thumbnail; no clip gets one. *)
Definition thumbnail (blob : Q) : Thumbnail := ThumbnailReady "data:image/jpeg;base64,AA".
Definition no_thumbnail (blob : Q) : Thumbnail := ThumbnailFailed "Video load error".

(** The page as the browser has just built it: no engine, no database,
    no clips. *)
Definition at_startup : Library Q Ref.Files (list (@Clip Q)) :=
  {| studio := set_ffmpeg None Ref.empty_session; db := None; myClips := [] |}.

(** A session with the database open and its clips listed. *)
Definition library (st : @State Q Ref.Files) : Library Q Ref.Files (list (@Clip Q)) :=
  {| studio := st; db := @idb_open _ _ database;
     myClips := default [] (@idb_open _ _ database) |}.

(** A session with the quota panel hidden. *)
Definition page_of (st : @State Q Ref.Files) : @Page Q Ref.Files :=
  {| page := st; quotaError_shown := false |}.

(** The session while a generation is running: the controls disabled. *)
Definition generating : @State Q Ref.Files :=
  Ref.session_with_video 5 |> on_config (set_controls_disabled true).

(** FFmpeg failing on a concat: [exec] resolves, with an exit code other
    than 0 that the program does not read, and no output is written.
    Every other command runs as in [Ref.exec]. *)
Definition exec_failing_concat (command : list JS.text) (fs : Ref.Files)
    : Ref.Files * bool :=
  match command with
  | f :: _ =>
      if Ref.text_eqb f (JS.lit "-f") then (fs, true) else Ref.exec command fs
  | [] => Ref.exec command fs
  end.

(** An engine that trims and cannot join clips. *)
Definition engine_failing_concat : MediaEngine Q Ref.Files :=
  {| ff_new := Ref.fresh; ff_load := Ref.load; ff_writeFile := Ref.writeFile;
     ff_exec := exec_failing_concat; ff_readFile := Ref.readFile |}.

(** An engine that cannot be loaded. *)
Definition unloadable_engine : MediaEngine Q Ref.Files :=
  {| ff_new := Ref.fresh; ff_load := fun fs => (fs, false);
     ff_writeFile := Ref.writeFile; ff_exec := Ref.exec; ff_readFile := Ref.readFile |}.

(** The page with a recording of 5 seconds made, nothing in the player. *)
Definition recorded : @State Q Ref.Files :=
  Ref.empty_session |> on_config (set_recordedVideoBlob (Some 5%Q)).

(** A service that answers the request with the finished operation: no
    poll is made. *)
Definition no_polls : list (nat * Operation) := [].

(** A [JSON.parse] that takes no text at all. *)
Definition no_json (text : string) : JSError.ApiError := JSError.NotJson.

(** A finished operation with no video. *)
Definition no_videos : Operation := {| done := true; generatedVideos := Some [] |}.


(** Twelve ticks into a recording. *)
Definition twelve_seconds_in : list Recording.Event :=
  Recording.RecordButtonClick :: Recording.GetUserMediaResolves
    :: repeat (Recording.TimerFires 1) 12.

(** The record button clicked twice before the camera has answered. *)
Definition two_clicks : list Recording.Event :=
  [Recording.RecordButtonClick; Recording.RecordButtonClick].

(** What the user may try afterwards: the button, thirty ticks of either
    timer, a file, the button again. *)
Definition everything_after : list Recording.Event :=
  Recording.RecordButtonClick
    :: repeat (Recording.TimerFires 1) 30 ++ repeat (Recording.TimerFires 2) 30
    ++ [Recording.UploadChange; Recording.RecordButtonClick].

(** The saved clip loaded and its first 2 seconds trimmed away, then the
    clip loaded again and put into the bin twice. *)
Definition trim_then_fill_bin : list (@LibraryAction Q) :=
  [ DOMContentLoaded;
    ClickLoadClip 0;
    InStudio MetadataLoaded;
    InStudio ClickEdit;
    InStudio (MoveTrim (MoveStartSlider (JS.Fin 2)));
    InStudio ClickApplyTrim;
    ClickLoadClip 0;
    InStudio MetadataLoaded;
    ClickAddClipToBin 0;
    ClickAddClipToBin 0 ].

(** A session of the user and the agent: start-up, a prompt, a
    generation and its download, an effect and a trim in the editor,
    two clips put into the bin and merged. *)
Definition busy_session : list (@LibraryAction Q) :=
  [ DOMContentLoaded;
    InStudio (TypePrompt "A cat, flying!");
    InStudio (ClickGenerate false);
    InStudio (GenerationEnds false (Some Ref.two_videos) [] no_json
                (JSError.ThrownOther EmptyString));
    InStudio (DownloadCompletes 1);
    InStudio (DownloadCompletes 0);
    InStudio (CallTool "openEditor" (Some no_args));
    InStudio (PickEffect "slowmo");
    InStudio ClickApplyEffect;
    InStudio MetadataLoaded;
    InStudio (MoveTrim (MoveStartSlider (JS.Fin 1)));
    InStudio ClickApplyTrim;
    InStudio (TimeUpdate (JS.Fin 9));
    ClickSave (VString "mine") thumbnail;
    InStudio (ClickAddToBin thumbnail 17);
    ClickAddClipToBin 0;
    InStudio ClickMerge;
    ClickLoadClip 0;
    ClickDeleteClip 0 true ].

End RefLibrary.

(* ===================================================================== *)
(** ** Facts about numbers *)
(* ===================================================================== *)

Lemma Qltb_lt (a b : Q) : JS.Qltb a b = true <-> (a < b)%Q.
Proof.
  unfold JS.Qltb. rewrite negb_true_iff, <- not_true_iff_false, Qle_bool_iff.
  split; [apply Qnot_le_lt | apply Qlt_not_le].
Qed.

Lemma Qltb_ge (a b : Q) : JS.Qltb a b = false <-> (b <= a)%Q.
Proof.
  unfold JS.Qltb. rewrite negb_false_iff. apply Qle_bool_iff.
Qed.

Lemma Qle_bool_gt (a b : Q) : Qle_bool a b = false <-> (b < a)%Q.
Proof.
  rewrite <- not_true_iff_false, Qle_bool_iff.
  split; [apply Qnot_le_lt | apply Qlt_not_le].
Qed.

Lemma tenths_inject (z : Z) : (Qmake z 10 == inject_Z z * (1 # 10))%Q.
Proof. unfold Qeq, Qmult, inject_Z; simpl; lia. Qed.

(** [toFixed(1)] moves a number that is not negative by at most one
    twentieth, and by less than that downwards. *)
Lemma round1_bounds (x : Q) :
  (0 <= x)%Q -> (x - (1 # 20) < JS.round1 x)%Q /\ (JS.round1 x <= x + (1 # 20))%Q.
Proof.
  intros Hx. unfold JS.round1.
  apply Qle_bool_iff in Hx. rewrite Hx.
  pose proof (Qfloor_le (x * 10 + (1 # 2))) as Hlo.
  pose proof (Qlt_floor (x * 10 + (1 # 2))) as Hhi.
  rewrite inject_Z_plus in Hhi.
  rewrite tenths_inject.
  set (z := inject_Z (Qfloor (x * 10 + (1 # 2)))) in *.
  change (inject_Z 1) with 1%Q in Hhi.
  split; lra.
Qed.

Lemma round1_nonneg (x : Q) : (0 <= x)%Q -> (0 <= JS.round1 x)%Q.
Proof.
  intros Hx. unfold JS.round1.
  pose proof Hx as Hb. apply Qle_bool_iff in Hb. rewrite Hb.
  rewrite tenths_inject.
  assert (0 <= Qfloor (x * 10 + (1 # 2)))%Z as Hz.
  { change 0%Z with (Qfloor (inject_Z 0)). apply Qfloor_resp_le.
    change (inject_Z 0) with 0%Q. lra. }
  assert (inject_Z 0 <= inject_Z (Qfloor (x * 10 + (1 # 2))))%Q as Hq
    by (rewrite <- Zle_Qle; exact Hz).
  change (inject_Z 0) with 0%Q in Hq. lra.
Qed.

(** [toFixed(1)] is monotone on numbers that are not negative. *)
Lemma round1_mono (x y : Q) :
  (0 <= x)%Q -> (x <= y)%Q -> (JS.round1 x <= JS.round1 y)%Q.
Proof.
  intros Hx Hxy. unfold JS.round1.
  assert (0 <= y)%Q as Hy by lra.
  apply Qle_bool_iff in Hx, Hy. rewrite Hx, Hy.
  rewrite (tenths_inject (Qfloor (x * 10 + (1 # 2)))),
    (tenths_inject (Qfloor (y * 10 + (1 # 2)))).
  assert (Qfloor (x * 10 + (1 # 2)) <= Qfloor (y * 10 + (1 # 2)))%Z as Hz
    by (apply Qfloor_resp_le; lra).
  rewrite Zle_Qle in Hz. lra.
Qed.

(** [toFixed(1)] moves any number by at most one twentieth. *)
Lemma round1_near (x : Q) :
  (x - (1 # 20) <= JS.round1 x)%Q /\ (JS.round1 x <= x + (1 # 20))%Q.
Proof.
  destruct (Qle_bool 0 x) eqn:Hs.
  - apply Qle_bool_iff in Hs. destruct (round1_bounds x Hs). split; lra.
  - pose proof Hs as Hneg. apply Qle_bool_gt in Hneg.
    assert (0 <= - x)%Q as Hpos by lra.
    destruct (round1_bounds (- x) Hpos) as [Hlo Hhi].
    unfold JS.round1 in *. rewrite Hs.
    apply Qle_bool_iff in Hpos. rewrite Hpos in Hlo, Hhi.
    split; lra.
Qed.

(** *** Rounding to binary64 *)

Lemma pow2_pos (k : Z) : (0 < JS.pow2 k)%Q.
Proof. apply Qpower_0_lt. reflexivity. Qed.

Lemma pow2_plus (a b : Z) : (JS.pow2 (a + b) == JS.pow2 a * JS.pow2 b)%Q.
Proof. apply Qpower_plus. discriminate. Qed.

Lemma pow2_le (a b : Z) : (a <= b)%Z -> (JS.pow2 a <= JS.pow2 b)%Q.
Proof. intros H. apply Qpower_le_compat_l; [exact H | discriminate]. Qed.

Lemma pow2_lt (a b : Z) : (a < b)%Z -> (JS.pow2 a < JS.pow2 b)%Q.
Proof. intros H. apply Qpower_lt_compat_l; [exact H | reflexivity]. Qed.

Lemma pow2_le_inv (a b : Z) : (JS.pow2 a <= JS.pow2 b)%Q -> (a <= b)%Z.
Proof. intros H. eapply Qpower_le_compat_l_inv; [exact H | reflexivity]. Qed.

Lemma pow2_inject (z : Z) : (0 <= z)%Z -> (inject_Z (2 ^ z) == JS.pow2 z)%Q.
Proof. intros H. unfold JS.pow2. now rewrite Zpower_Qpower. Qed.

Lemma pow2_succ (k : Z) : (JS.pow2 (k + 1) == 2 * JS.pow2 k)%Q.
Proof. rewrite pow2_plus. change (JS.pow2 1) with 2%Q. ring. Qed.

(** [floor_log2] is the exponent of the binade of a positive number. *)
Lemma floor_log2_spec (a : Q) :
  (0 < a)%Q ->
  (JS.pow2 (JS.floor_log2 a) <= a)%Q /\ (a < JS.pow2 (JS.floor_log2 a + 1))%Q.
Proof.
  intros Ha. destruct a as [n d].
  assert (0 < n)%Z as Hn by (unfold Qlt in Ha; simpl in Ha; lia).
  unfold JS.floor_log2. cbn [Qnum Qden].
  set (ln := Z.log2 n). set (ld := Z.log2 (Z.pos d)).
  destruct (Z.log2_spec n Hn) as [Hn1 Hn2]. fold ln in Hn1, Hn2.
  destruct (Z.log2_spec (Z.pos d) eq_refl) as [Hd1 Hd2]. fold ld in Hd1, Hd2.
  assert (0 <= ln)%Z as Hln by apply Z.log2_nonneg.
  assert (0 <= ld)%Z as Hld by apply Z.log2_nonneg.
  assert (n # d == inject_Z n / inject_Z (Z.pos d))%Q as Hq by apply Qmake_Qdiv.
  set (N := inject_Z n) in *. set (D := inject_Z (Z.pos d)) in *.
  assert (JS.pow2 ln <= N)%Q as HN1.
  { rewrite <- pow2_inject by exact Hln. unfold N. now rewrite <- Zle_Qle. }
  assert (N < JS.pow2 (ln + 1))%Q as HN2.
  { rewrite <- pow2_inject by lia. unfold N. rewrite <- Zlt_Qlt.
    now rewrite <- Z.add_1_r in Hn2. }
  assert (JS.pow2 ld <= D)%Q as HD1.
  { rewrite <- pow2_inject by exact Hld. unfold D. now rewrite <- Zle_Qle. }
  assert (D < JS.pow2 (ld + 1))%Q as HD2.
  { rewrite <- pow2_inject by lia. unfold D. rewrite <- Zlt_Qlt.
    now rewrite <- Z.add_1_r in Hd2. }
  assert (0 < D)%Q as HD by (pose proof (pow2_pos ld); lra).
  assert ((n # d) * D == N)%Q as Hmul by (rewrite Hq; field; lra).
  (* the quotient lies between 2^(k-1) and 2^(k+1) *)
  assert (JS.pow2 (ln - ld - 1) < n # d)%Q as Hlow.
  { assert (JS.pow2 (ln - ld - 1) * JS.pow2 (ld + 1) == JS.pow2 ln)%Q as E
      by (rewrite <- pow2_plus; f_equiv; lia).
    pose proof (pow2_pos (ln - ld - 1)). nra. }
  assert (n # d < JS.pow2 (ln - ld + 1))%Q as Hhigh.
  { assert (JS.pow2 (ln - ld + 1) * JS.pow2 ld == JS.pow2 (ln + 1))%Q as E
      by (rewrite <- pow2_plus; f_equiv; lia).
    pose proof (pow2_pos (ln - ld + 1)). nra. }
  destruct (Qle_bool (JS.pow2 (ln - ld)) (n # d)) eqn:Hc.
  - apply Qle_bool_iff in Hc. split; assumption.
  - assert (n # d < JS.pow2 (ln - ld))%Q as Hc'.
    { apply Qnot_le_lt. intros H. apply Qle_bool_iff in H. congruence. }
    split; [apply Qlt_le_weak; exact Hlow|].
    replace (ln - ld - 1 + 1)%Z with (ln - ld)%Z by lia. exact Hc'.
Qed.

(** The exponent of a number below [2 ^ k] is below [k]. *)
Lemma floor_log2_lt (a : Q) (k : Z) :
  (0 < a)%Q -> (a < JS.pow2 k)%Q -> (JS.floor_log2 a < k)%Z.
Proof.
  intros Ha Hk. destruct (floor_log2_spec a Ha) as [Hlo _].
  destruct (Z_lt_le_dec (JS.floor_log2 a) k) as [H|H]; [exact H|].
  apply pow2_le in H. lra.
Qed.

Lemma round_half_even_near (x : Q) :
  (Qabs (inject_Z (JS.round_half_even x) - x) <= 1 # 2)%Q.
Proof.
  unfold JS.round_half_even. cbn zeta.
  pose proof (Qfloor_le x) as Hlo. pose proof (Qlt_floor x) as Hhi.
  rewrite inject_Z_plus in Hhi. change (inject_Z 1) with 1%Q in Hhi.
  apply Qabs_Qle_condition.
  destruct (x - inject_Z (Qfloor x) ?= 1 # 2)%Q eqn:Hc.
  - apply Qeq_alt in Hc.
    destruct (Z.even (Qfloor x));
      [|rewrite inject_Z_plus; change (inject_Z 1) with 1%Q]; split; lra.
  - apply Qlt_alt in Hc. split; lra.
  - apply Qgt_alt in Hc. rewrite inject_Z_plus. change (inject_Z 1) with 1%Q.
    split; lra.
Qed.

Lemma round_half_even_integer (x : Q) (z : Z) :
  (x == inject_Z z)%Q -> JS.round_half_even x = z.
Proof.
  intros Hx. unfold JS.round_half_even. cbn zeta.
  assert (Qfloor x = z) as -> by (rewrite Hx; apply Qfloor_Z).
  assert ((x - inject_Z z ?= 1 # 2)%Q = Lt) as ->; [|reflexivity].
  apply (proj1 (Qlt_alt _ _)). lra.
Qed.

Lemma round64_pos_near (a : Q) :
  (0 < a)%Q ->
  (Qabs (JS.round64_pos a - a)
   <= JS.pow2 (Z.max (JS.floor_log2 a - 52) (-1074)) * (1 # 2))%Q.
Proof.
  intros Ha. unfold JS.round64_pos. cbn zeta.
  set (p := Z.max (JS.floor_log2 a - 52) (-1074)).
  pose proof (pow2_pos p) as Hp.
  pose proof (round_half_even_near (a / JS.pow2 p)) as H.
  apply Qabs_Qle_condition in H. apply Qabs_Qle_condition.
  set (m := inject_Z (JS.round_half_even (a / JS.pow2 p))) in *.
  assert (a / JS.pow2 p * JS.pow2 p == a)%Q as E by (field; lra).
  set (x := (a / JS.pow2 p)%Q) in *. split; nra.
Qed.

(** Below [2 ^ 41] in magnitude the rounding moves a number by at most
    [2 ^ -12]. *)
Lemma round64_near (q : Q) :
  (Qabs q <= 2199023255552)%Q -> (Qabs (JS.round64 q - q) <= 1 # 4096)%Q.
Proof.
  intros Hq. unfold JS.round64. rewrite Qred_correct.
  assert (forall a, 0 < a -> a <= 2199023255552 ->
            Qabs (JS.round64_pos a - a) <= 1 # 4096)%Q as Hpos.
  { intros a Ha Hb. eapply Qle_trans; [apply round64_pos_near, Ha|].
    assert (JS.floor_log2 a < 42)%Z as He.
    { apply floor_log2_lt; [exact Ha|].
      change (JS.pow2 42) with (4398046511104%Q) . lra. }
    assert (JS.pow2 (Z.max (JS.floor_log2 a - 52) (-1074)) <= JS.pow2 (-11))%Q as Hp
      by (apply pow2_le; lia).
    change (JS.pow2 (-11)) with (1 # 2048)%Q in Hp. lra. }
  destruct (q ?= 0)%Q eqn:Hc.
  - apply Qeq_alt in Hc. apply Qabs_Qle_condition. split; lra.
  - apply Qlt_alt in Hc.
    assert (Qabs q == - q)%Q as Habs by (apply Qabs_neg; lra).
    specialize (Hpos (- q)%Q ltac:(lra) ltac:(lra)).
    apply Qabs_Qle_condition in Hpos. apply Qabs_Qle_condition. split; lra.
  - apply Qgt_alt in Hc.
    assert (Qabs q == q)%Q as Habs by (apply Qabs_pos; lra).
    apply Hpos; lra.
Qed.

Lemma is_double_opp (q : Q) : JS.is_double q -> JS.is_double (- q).
Proof.
  intros (m & p & Hm & Hp & E). exists (- m)%Z, p.
  split; [now rewrite Z.abs_opp|]. split; [exact Hp|].
  rewrite E, inject_Z_opp. ring.
Qed.

Lemma round64_pos_is_double (a : Q) : (0 < a)%Q -> JS.is_double (JS.round64_pos a).
Proof.
  intros Ha. unfold JS.round64_pos. cbn zeta.
  set (e := JS.floor_log2 a). set (p := Z.max (e - 52) (-1074)).
  exists (JS.round_half_even (a / JS.pow2 p)), p.
  split; [|split; [lia | reflexivity]].
  pose proof (pow2_pos p) as Hp.
  destruct (floor_log2_spec a Ha) as [_ Hhi]. fold e in Hhi.
  assert (a / JS.pow2 p < JS.pow2 53)%Q as Hx.
  { assert (JS.pow2 (e + 1) <= JS.pow2 53 * JS.pow2 p)%Q as Hb
      by (rewrite <- pow2_plus; apply pow2_le; lia).
    apply Qlt_shift_div_r; [exact Hp | lra]. }
  assert (0 < a / JS.pow2 p)%Q as Hx0 by (apply Qlt_shift_div_l; [exact Hp | lra]).
  pose proof (round_half_even_near (a / JS.pow2 p)) as Hn.
  apply Qabs_Qle_condition in Hn.
  set (m := JS.round_half_even (a / JS.pow2 p)) in *.
  change (JS.pow2 53) with (inject_Z (2 ^ 53)) in Hx.
  assert (inject_Z m < inject_Z (2 ^ 53 + 1))%Q as Hup
    by (rewrite inject_Z_plus; change (inject_Z 1) with 1%Q; lra).
  assert (inject_Z (- 1) < inject_Z m)%Q as Hdown
    by (change (inject_Z (- 1)) with (- (1))%Q; lra).
  rewrite <- Zlt_Qlt in Hup, Hdown. lia.
Qed.

Lemma round64_pos_fixed (a : Q) :
  (0 < a)%Q -> JS.is_double a -> (JS.round64_pos a == a)%Q.
Proof.
  intros Ha (m & p & Hm & Hp & E). unfold JS.round64_pos. cbn zeta.
  set (e := JS.floor_log2 a). set (pc := Z.max (e - 52) (-1074)).
  pose proof (pow2_pos p) as Hpp. pose proof (pow2_pos pc) as Hpc.
  assert (0 < m)%Z as Hm0.
  { destruct (Z_lt_le_dec 0 m) as [H|H]; [exact H|].
    rewrite Zle_Qle in H. change (inject_Z 0) with 0%Q in H. nra. }
  assert (m <= 2 ^ 53)%Z as Hm1 by lia.
  destruct (floor_log2_spec a Ha) as [Hlo _]. fold e in Hlo.
  assert (exists z : Z, a / JS.pow2 pc == inject_Z z)%Q as [z Hz].
  { destruct (Z_le_gt_dec (e - 52) p) as [Hcase|Hcase].
    - exists (m * 2 ^ (p - pc))%Z.
      assert (pc <= p)%Z as Hle by lia.
      rewrite inject_Z_mult, pow2_inject by lia.
      assert (JS.pow2 p == JS.pow2 (p - pc) * JS.pow2 pc)%Q as Hsplit
        by (rewrite <- pow2_plus; f_equiv; lia).
      rewrite E, Hsplit. field. lra.
    - (* the significand is [2 ^ 53] *)
      assert (JS.pow2 (53 + p) <= inject_Z m * JS.pow2 p)%Q as Hbig.
      { eapply Qle_trans; [apply pow2_le|rewrite <- E; exact Hlo]. lia. }
      rewrite pow2_plus in Hbig. change (JS.pow2 53) with (inject_Z (2 ^ 53)) in Hbig.
      assert (inject_Z (2 ^ 53) <= inject_Z m)%Q as Hm2 by nra.
      rewrite <- Zle_Qle in Hm2.
      assert (m = 2 ^ 53)%Z as -> by lia.
      assert (e <= 53 + p)%Z as He.
      { apply pow2_le_inv. eapply Qle_trans; [exact Hlo|]. rewrite E, pow2_plus.
        change (JS.pow2 53) with (inject_Z (2 ^ 53)). lra. }
      assert (pc = p + 1)%Z as Hpc1 by lia.
      exists (2 ^ 52)%Z. rewrite E, Hpc1, pow2_succ.
      change (inject_Z (2 ^ 53)) with (2 * inject_Z (2 ^ 52))%Q. field. lra. }
  rewrite (round_half_even_integer _ z Hz), <- Hz. field. lra.
Qed.

Lemma round64_is_double (q : Q) : JS.is_double (JS.round64 q).
Proof.
  assert (forall x y, x == y -> JS.is_double x -> JS.is_double y)%Q as Hcomp.
  { intros x y Hxy (m & p & ? & ? & E). exists m, p. rewrite <- Hxy. auto. }
  unfold JS.round64. eapply Hcomp; [symmetry; apply Qred_correct|].
  destruct (q ?= 0)%Q eqn:Hc.
  - exists 0%Z, 0%Z. repeat split; [lia | lia].
  - apply Qlt_alt in Hc. apply is_double_opp, round64_pos_is_double. lra.
  - apply Qgt_alt in Hc. apply round64_pos_is_double. lra.
Qed.

(** A binary64 value is rounded to itself. *)
Lemma round64_fixed (q : Q) : JS.is_double q -> (JS.round64 q == q)%Q.
Proof.
  intros Hq. unfold JS.round64. rewrite Qred_correct.
  destruct (q ?= 0)%Q eqn:Hc.
  - apply Qeq_alt in Hc. now rewrite Hc.
  - apply Qlt_alt in Hc.
    rewrite (round64_pos_fixed (- q)); [ring | lra | now apply is_double_opp].
  - apply Qgt_alt in Hc. apply round64_pos_fixed; [lra | exact Hq].
Qed.

Lemma pow2_lt_inv (a b : Z) : (JS.pow2 a < JS.pow2 b)%Q -> (a < b)%Z.
Proof. intros H. eapply Qpower_lt_compat_l_inv; [exact H | reflexivity]. Qed.

Lemma floor_log2_comp (a b : Q) :
  (0 < a)%Q -> (a == b)%Q -> JS.floor_log2 a = JS.floor_log2 b.
Proof.
  intros Ha Hab. assert (0 < b)%Q as Hb by lra.
  destruct (floor_log2_spec a Ha) as [H1 H2], (floor_log2_spec b Hb) as [H3 H4].
  assert (JS.pow2 (JS.floor_log2 a) < JS.pow2 (JS.floor_log2 b + 1))%Q as H5 by lra.
  assert (JS.pow2 (JS.floor_log2 b) < JS.pow2 (JS.floor_log2 a + 1))%Q as H6 by lra.
  apply pow2_lt_inv in H5, H6. lia.
Qed.

Lemma round64_pos_comp (a b : Q) :
  (0 < a)%Q -> (a == b)%Q -> (JS.round64_pos a == JS.round64_pos b)%Q.
Proof.
  intros Ha Hab. unfold JS.round64_pos. cbn zeta.
  rewrite (floor_log2_comp a b Ha Hab).
  set (p := Z.max _ _).
  assert (JS.round_half_even (a / JS.pow2 p) = JS.round_half_even (b / JS.pow2 p)) as ->;
    [|reflexivity].
  assert (a / JS.pow2 p == b / JS.pow2 p)%Q as Hd by now rewrite Hab.
  unfold JS.round_half_even. cbn zeta.
  rewrite (Qfloor_comp _ _ Hd).
  assert (a / JS.pow2 p - inject_Z (Qfloor (b / JS.pow2 p))
          == b / JS.pow2 p - inject_Z (Qfloor (b / JS.pow2 p)))%Q as Hf
    by now rewrite Hd.
  now rewrite (Qcompare_comp _ _ Hf _ _ (Qeq_refl (1 # 2))).
Qed.

(** The rounding of a number does not depend on the fraction it is
    written as. *)
Lemma round64_comp (x y : Q) : (x == y)%Q -> JS.round64 x = JS.round64 y.
Proof.
  intros H. unfold JS.round64. apply Qred_complete.
  assert ((x ?= 0) = (y ?= 0))%Q as Hc by now rewrite H.
  rewrite <- Hc. destruct (x ?= 0)%Q eqn:Hx; [reflexivity| |].
  - apply Qlt_alt in Hx. rewrite (round64_pos_comp (- x) (- y)); [reflexivity | lra |].
    now rewrite H.
  - apply Qgt_alt in Hx. apply round64_pos_comp; [lra | exact H].
Qed.

Lemma round64_idempotent (q : Q) : JS.round64 (JS.round64 q) = JS.round64 q.
Proof.
  pose proof (round64_fixed _ (round64_is_double q)) as H.
  apply Qred_complete in H.
  assert (forall x, Qred (JS.round64 x) = JS.round64 x) as Hred.
  { intros x. unfold JS.round64. apply Qred_complete, Qred_correct. }
  now rewrite !Hred in H.
Qed.

(** *** The clamps of the trim range, in binary64 *)

Lemma round64_within (q : Q) :
  (- 2199023255552 <= q <= 2199023255552)%Q ->
  (- (1 # 4096) <= JS.round64 q - q <= 1 # 4096)%Q.
Proof.
  intros H. apply Qabs_Qle_condition, round64_near, Qabs_Qle_condition. exact H.
Qed.

Lemma moderate_bounds (q : Q) :
  Qle_bool (Qabs q) 1099511627776 = true ->
  (- 1099511627776 <= q <= 1099511627776)%Q.
Proof. intros H. apply Qle_bool_iff in H. exact (proj1 (Qabs_Qle_condition _ _) H). Qed.

(** The Number the literal [0.1] stands for is within [2 ^ -12] of a
    tenth. *)
Lemma tenth_near : (- (1 # 4096) <= JS.round64 (1 # 10) - (1 # 10) <= 1 # 4096)%Q.
Proof. apply round64_within. split; lra. Qed.

Lemma round64_zero : JS.round64 0 = 0%Q.
Proof. reflexivity. Qed.

Ltac rounded q :=
  let H := fresh "Hr" in
  assert (- (1 # 4096) <= JS.round64 q - q <= 1 # 4096)%Q as H
    by (apply round64_within; split; lra).

Ltac to_tenths q :=
  let H := fresh "Ht" in
  pose proof (round1_near q) as H.

(** What is left of a start that was put a tenth below the end [e]:
    [Math.max(0, e - 0.1).toFixed(1)], read back, is below [e]. *)
Lemma start_clamped_below (e : Q) :
  (0 < e)%Q -> (- 1099511627776 <= e <= 1099511627776)%Q ->
  let x := JS.round64 (JS.round64 e - JS.round64 (1 # 10)) in
  let y := if Qle_bool 0 x then x else 0%Q in
  (JS.round64 (JS.round1 (JS.round64 y)) < e)%Q.
Proof.
  intros Hpos Hb. cbn zeta. pose proof tenth_near as Hc.
  rounded e. rounded (JS.round64 e - JS.round64 (1 # 10))%Q.
  set (x := JS.round64 (JS.round64 e - JS.round64 (1 # 10))) in *.
  destruct (Qle_bool 0 x) eqn:Hx.
  - apply Qle_bool_iff in Hx. rounded x. to_tenths (JS.round64 x).
    rounded (JS.round1 (JS.round64 x)). lra.
  - change (JS.round64 (JS.round1 (JS.round64 0))) with 0%Q. exact Hpos.
Qed.

(** The same for a start written with [toString]. *)
Lemma start_put_below (e : Q) :
  (0 < e)%Q -> (- 1099511627776 <= e <= 1099511627776)%Q ->
  let x := JS.round64 (JS.round64 e - JS.round64 (1 # 10)) in
  let y := if Qle_bool 0 x then x else 0%Q in
  (JS.round64 y < e)%Q.
Proof.
  intros Hpos Hb. cbn zeta. pose proof tenth_near as Hc.
  rounded e. rounded (JS.round64 e - JS.round64 (1 # 10))%Q.
  set (x := JS.round64 (JS.round64 e - JS.round64 (1 # 10))) in *.
  destruct (Qle_bool 0 x) eqn:Hx.
  - apply Qle_bool_iff in Hx. rounded x. lra.
  - rewrite round64_zero. exact Hpos.
Qed.

(** An end that was put a tenth above the start [s],
    [(s + 0.1).toFixed(1)] read back, is above [s]. *)
Lemma end_clamped_above (s : Q) :
  (- 1099511627776 <= s <= 1099511627776)%Q ->
  let x := JS.round64 (JS.round64 s + JS.round64 (1 # 10)) in
  (s < JS.round64 (JS.round1 (JS.round64 x)))%Q.
Proof.
  intros Hb. cbn zeta. pose proof tenth_near as Hc.
  rounded s. rounded (JS.round64 s + JS.round64 (1 # 10))%Q.
  set (x := JS.round64 (JS.round64 s + JS.round64 (1 # 10))) in *.
  rounded x. to_tenths (JS.round64 x). rounded (JS.round1 (JS.round64 x)). lra.
Qed.

Lemma end_put_above (s : Q) :
  (- 1099511627776 <= s <= 1099511627776)%Q ->
  let x := JS.round64 (JS.round64 s + JS.round64 (1 # 10)) in
  (s < JS.round64 x)%Q.
Proof.
  intros Hb. cbn zeta. pose proof tenth_near as Hc.
  rounded s. rounded (JS.round64 s + JS.round64 (1 # 10))%Q.
  set (x := JS.round64 (JS.round64 s + JS.round64 (1 # 10))) in *.
  rounded x. lra.
Qed.

(* ===================================================================== *)
(** ** Properties of the session *)
(* ===================================================================== *)

Section Properties.

Context {Blob FS : Type}.
Context `{Eng : !MediaEngine Blob FS} `{Br : !Browser Blob}.

Local Abbreviation St := (@State Blob FS).
Local Abbreviation Clips := (list (@Clip Blob)).

(** *** The trim range *)

Lemma lt_Fin (a b : JS.num) :
  JS.lt a b = true <-> exists x y, a = JS.Fin x /\ b = JS.Fin y /\ (x < y)%Q.
Proof.
  split.
  - destruct a as [|x], b as [|y]; simpl; try discriminate.
    intros H. exists x, y. rewrite Qltb_lt in H. auto.
  - intros (x & y & -> & -> & H). simpl. now apply Qltb_lt.
Qed.

Lemma isNaN_Fin (a : JS.num) : JS.isNaN a = false -> exists x, a = JS.Fin x.
Proof. destruct a; [discriminate | eauto]. Qed.

(** The start slider: after its listener the start is below a positive end. *)
Lemma start_slider_below_end (v E : Q) (st : St) :
  trimEnd st = JS.Fin E ->
  (0 < JS.round64 E)%Q -> (- 1099511627776 <= JS.round64 E <= 1099511627776)%Q ->
  JS.lt (readStart (mutate_trim (MoveStartSlider (JS.Fin v)) st))
        (readEnd (mutate_trim (MoveStartSlider (JS.Fin v)) st)) = true.
Proof.
  intros He Hpos Hb. unfold trimEnd in He.
  unfold mutate_trim, trimStartSlider_oninput, readStart, readEnd, trimStart, trimEnd.
  cbn. rewrite He. cbn.
  destruct (Qle_bool (JS.round64 E) (JS.round64 v)) eqn:Hc; cbn; rewrite He; cbn;
    apply Qltb_lt.
  - exact (start_clamped_below (JS.round64 E) Hpos Hb).
  - now apply Qle_bool_gt in Hc.
Qed.

(** The end slider: after its listener the end is above a start that is
    below the printed maximum. *)
Lemma end_slider_above_start (v S M : Q) (st : St) :
  trimStart st = JS.Fin S -> maxv (trimEndSlider (editor st)) = JS.Fin M ->
  (- 1099511627776 <= JS.round64 S <= 1099511627776)%Q ->
  (JS.round64 S < JS.round64 (JS.round1 (JS.round64 (JS.round64 M))))%Q ->
  JS.lt (readStart (mutate_trim (MoveEndSlider (JS.Fin v)) st))
        (readEnd (mutate_trim (MoveEndSlider (JS.Fin v)) st)) = true.
Proof.
  intros Hs Hm Hb Hroom. unfold trimStart in Hs.
  unfold mutate_trim, trimEndSlider_oninput, readStart, readEnd, trimStart, trimEnd.
  cbn. rewrite Hs. cbn.
  destruct (Qle_bool (JS.round64 v) (JS.round64 S)) eqn:Hc; cbn; rewrite Hs;
    [rewrite Hm; cbn|]; apply Qltb_lt.
  - destruct (Qle_bool (JS.round64 M) _) eqn:Hz.
    + exact Hroom.
    + exact (end_clamped_above (JS.round64 S) Hb).
  - now apply Qle_bool_gt in Hc.
Qed.

(** A Number clamped between 0 and a Number is a Number. *)
Lemma clamped_fixed (v d : Q) :
  (JS.round64 d == d)%Q ->
  let t := if Qle_bool (JS.round64 v) d then JS.round64 v else d in
  let c := if Qle_bool 0 t then t else 0%Q in
  (JS.round64 c == c)%Q.
Proof.
  intros Hd. cbn zeta.
  destruct (Qle_bool (JS.round64 v) d);
    match goal with |- context [Qle_bool 0 ?t] => destruct (Qle_bool 0 t) end;
    try reflexivity; try exact Hd.
  now rewrite round64_idempotent.
Qed.

(** The numeric start input. *)
Lemma start_input_below_end (v E d : Q) (st : St) :
  trimEnd st = JS.Fin E -> video_duration (video st) = JS.Fin d ->
  (JS.round64 d == d)%Q ->
  (0 < JS.round64 E)%Q -> (- 1099511627776 <= JS.round64 E <= 1099511627776)%Q ->
  JS.lt (readStart (mutate_trim (TypeStartTime (JS.Fin v)) st))
        (readEnd (mutate_trim (TypeStartTime (JS.Fin v)) st)) = true.
Proof.
  intros He Hd Hnum Hpos Hb. unfold trimEnd in He.
  unfold mutate_trim, trimStartTimeInput_onchange, readStart, readEnd, trimStart, trimEnd.
  cbn. rewrite He, Hd. cbn.
  pose proof (clamped_fixed v d Hnum) as Hfix. cbn zeta in Hfix.
  set (clamped := if Qle_bool 0 (if Qle_bool (JS.round64 v) d then JS.round64 v else d)
                  then (if Qle_bool (JS.round64 v) d then JS.round64 v else d)
                  else 0%Q) in *.
  destruct (Qle_bool (JS.round64 E) clamped) eqn:Hc; cbn; apply Qltb_lt.
  - exact (start_put_below (JS.round64 E) Hpos Hb).
  - apply Qle_bool_gt in Hc. now rewrite Hfix.
Qed.

(** The numeric end input. *)
Lemma end_input_above_start (v S d : Q) (st : St) :
  trimStart st = JS.Fin S -> video_duration (video st) = JS.Fin d ->
  (JS.round64 d == d)%Q ->
  (- 1099511627776 <= JS.round64 S <= 1099511627776)%Q ->
  (JS.round64 S < d)%Q ->
  JS.lt (readStart (mutate_trim (TypeEndTime (JS.Fin v)) st))
        (readEnd (mutate_trim (TypeEndTime (JS.Fin v)) st)) = true.
Proof.
  intros Hs Hd Hnum Hb Hroom. unfold trimStart in Hs.
  unfold mutate_trim, trimEndTimeInput_onchange, readStart, readEnd, trimStart, trimEnd.
  cbn. rewrite Hs, Hd. cbn.
  pose proof (clamped_fixed v d Hnum) as Hfix. cbn zeta in Hfix.
  set (clamped := if Qle_bool 0 (if Qle_bool (JS.round64 v) d then JS.round64 v else d)
                  then (if Qle_bool (JS.round64 v) d then JS.round64 v else d)
                  else 0%Q) in *.
  destruct (Qle_bool clamped (JS.round64 S)) eqn:Hc; cbn; apply Qltb_lt.
  - destruct (Qle_bool d _) eqn:Hz.
    + now rewrite Hnum.
    + exact (end_put_above (JS.round64 S) Hb).
  - apply Qle_bool_gt in Hc. now rewrite Hfix.
Qed.

Lemma is_number_fixed (d : Q) :
  JS.is_number (JS.Fin d) = true -> (JS.round64 d == d)%Q.
Proof. intros H. now apply Qeq_bool_iff. Qed.

Lemma moderate_read (a : JS.num) :
  JS.moderate (JS.parseFloat a) = true ->
  exists q, a = JS.Fin q
    /\ (- 1099511627776 <= JS.round64 q <= 1099511627776)%Q.
Proof.
  destruct a as [|q]; [discriminate|]. intros H. exists q.
  split; [reflexivity | now apply moderate_bounds].
Qed.

(** C5 (amended): a mutation of the trim range (either slider moved,
    either numeric input typed into) that has room leaves
    [start < end], for the range as the program reads it: the moved bound
    is clamped against the other one.  Room is what the clamp needs: a
    number is given; the bound that stays is at most [2 ^ 40] in
    magnitude; the end is above 0 when the start moves, or the start is
    below the maximum the end is clamped at when the end moves; and the
    duration the numeric inputs clamp at is a Number. *)
Theorem trim_mutation_restores_order (m : TrimMutation) (st : St) :
  has_room m st = true ->
  JS.lt (readStart (mutate_trim m st)) (readEnd (mutate_trim m st)) = true.
Proof.
  destruct m as [v|v|v|v]; unfold has_room; intros H;
    repeat (apply andb_prop in H; destruct H as [H ?]);
    apply negb_true_iff, isNaN_Fin in H; destruct H as [x ->].
  - unfold readEnd in *.
    match goal with X : JS.moderate _ = true |- _ =>
      apply moderate_read in X; destruct X as (E & HE & Hb) end.
    rewrite HE in *.
    match goal with X : JS.lt _ _ = true |- _ => apply Qltb_lt in X end.
    eapply start_slider_below_end; eauto.
  - unfold readStart in *.
    match goal with X : JS.moderate _ = true |- _ =>
      apply moderate_read in X; destruct X as (S & HS & Hb) end.
    rewrite HS in *.
    destruct (maxv (trimEndSlider (editor st))) as [|M] eqn:HM; [discriminate|].
    match goal with X : JS.lt _ _ = true |- _ => apply Qltb_lt in X end.
    eapply end_slider_above_start; eauto.
  - unfold readEnd in *.
    match goal with X : JS.moderate _ = true |- _ =>
      apply moderate_read in X; destruct X as (E & HE & Hb) end.
    rewrite HE in *.
    destruct (video_duration (video st)) as [|d] eqn:Hd; [discriminate|].
    match goal with X : JS.is_number _ = true |- _ => apply is_number_fixed in X end.
    match goal with X : JS.lt _ _ = true |- _ => apply Qltb_lt in X end.
    eapply start_input_below_end; eauto.
  - unfold readStart in *.
    match goal with X : JS.moderate _ = true |- _ =>
      apply moderate_read in X; destruct X as (S & HS & Hb) end.
    rewrite HS in *.
    destruct (video_duration (video st)) as [|d] eqn:Hd; [discriminate|].
    match goal with X : JS.is_number _ = true |- _ => apply is_number_fixed in X end.
    match goal with X : JS.lt _ _ = true |- _ => apply Qltb_lt in X end.
    eapply end_input_above_start; eauto.
Qed.

(** *** Running blocks *)

Lemma bind_value {S A B} (m : Flow.M S A) (k : A -> Flow.M S B) (s s' : S) (a : A) :
  m s = (s', Flow.Value a) -> Flow.bind m k s = k a s'.
Proof. intros H. unfold Flow.bind. now rewrite H. Qed.

Lemma bind_raise {S A B} (m : Flow.M S A) (k : A -> Flow.M S B) (s s' : S) (e : Flow.error) :
  m s = (s', Flow.Raise e) -> Flow.bind m k s = (s', Flow.Raise e).
Proof. intros H. unfold Flow.bind. now rewrite H. Qed.

Lemma bind_gets {S A B} (f : S -> A) (k : A -> Flow.M S B) (s : S) :
  Flow.bind (Flow.gets f) k s = k (f s) s.
Proof. reflexivity. Qed.

Lemma bind_modify {S B} (f : S -> S) (k : unit -> Flow.M S B) (s : S) :
  Flow.bind (Flow.modify f) k s = k tt (f s).
Proof. reflexivity. Qed.

Lemma fetchFile_ok (u : Src) (st : St) (b : Blob) :
  resource u st = Some b -> fetchFile u st = (st, Flow.Value b).
Proof. intros H. unfold fetchFile. now rewrite H. Qed.

Lemma ffmpeg_writeFile_ok (name : JS.text) (data : FileData Blob) (st : St) (fs fs' : FS) :
  ffmpeg st = Some fs -> ff_writeFile name data fs = (fs', true) ->
  ffmpeg_writeFile name data st
  = (st |> set_engine_calls (engine_calls st ++ [CallWriteFile name data])
        |> set_ffmpeg (Some fs'), Flow.Value tt).
Proof. intros H1 H2. unfold ffmpeg_writeFile. now rewrite H1, H2. Qed.

Lemma ffmpeg_exec_ok (command : list JS.text) (st : St) (fs fs' : FS) :
  ffmpeg st = Some fs -> ff_exec command fs = (fs', true) ->
  ffmpeg_exec command st
  = (st |> set_engine_calls (engine_calls st ++ [CallExec command])
        |> set_ffmpeg (Some fs'), Flow.Value tt).
Proof. intros H1 H2. unfold ffmpeg_exec. now rewrite H1, H2. Qed.

Lemma ffmpeg_readFile_ok (name : JS.text) (st : St) (fs : FS) (b : Blob) :
  ffmpeg st = Some fs -> ff_readFile name fs = Some b ->
  ffmpeg_readFile name st
  = (st |> set_engine_calls (engine_calls st ++ [CallReadFile name]), Flow.Value b).
Proof. intros H1 H2. unfold ffmpeg_readFile. now rewrite H1, H2. Qed.

(** *** Replacing the video *)

Lemma replace_video_value (b : Blob) (st : St) :
  snd (replace_video b st) = Flow.Value tt.
Proof. reflexivity. Qed.

Lemma replace_video_resource (b : Blob) (st : St) :
  resource (video_src (video (fst (replace_video b st)))) (fst (replace_video b st))
  = Some b.
Proof.
  unfold replace_video, createObjectURL, Flow.bind, Flow.gets, Flow.modify. cbn.
  set (id := fresh (dom (urls st) ∪ held_url st)).
  assert (id ∉ dom (urls st) ∪ held_url st) as Hfresh by apply is_fresh.
  unfold revokeObjectURL, held_url in *. cbn.
  destruct (video_src (video st)) as [|old|url]; cbn.
  - apply lookup_insert_eq.
  - rewrite lookup_delete_ne by set_solver. apply lookup_insert_eq.
  - apply lookup_insert_eq.
Qed.

Lemma resource_truthy (u : Src) (st : St) (b : Blob) :
  resource u st = Some b -> src_truthy u = true.
Proof. destruct u; [discriminate | reflexivity | reflexivity]. Qed.


Lemma replace_video_bind {B} (b : Blob) (k : unit -> Flow.M St B) (st : St) :
  Flow.bind (replace_video b) k st = k tt (fst (replace_video b st)).
Proof. reflexivity. Qed.

Lemma replace_video_editor (b : Blob) (st : St) :
  editor (fst (replace_video b st)) = editor st.
Proof.
  unfold replace_video, createObjectURL, Flow.bind, Flow.gets, Flow.modify,
    revokeObjectURL. cbn.
  destruct (video_src (video st)); reflexivity.
Qed.

Lemma replace_video_listeners (b : Blob) (st : St) :
  loadedmetadata_once (video (fst (replace_video b st))) = loadedmetadata_once (video st).
Proof.
  unfold replace_video, createObjectURL, Flow.bind, Flow.gets, Flow.modify,
    revokeObjectURL. cbn.
  destruct (video_src (video st)); reflexivity.
Qed.

Lemma applyTrim_success (st : St) (newBlob : Blob) :
  edit_succeeds EditTrim st newBlob ->
  resource (video_src (video (applyTrim st))) (applyTrim st) = Some newBlob
  /\ trimStart (applyTrim st) = trimStart st
  /\ trimEnd (applyTrim st) = trimEnd st
  /\ loadedmetadata_once (video (applyTrim st)) = loadedmetadata_once (video st)
  /\ statusEl (applyTrim st) = JS.lit "Trim successful!".
Proof.
  intros (fs & file & command & fs1 & fs2 & Hff & Hres & Hcmd & Hw & Hx & Hr).
  injection Hcmd as <-.
  unfold applyTrim. rewrite Hff, (resource_truthy _ _ _ Hres).
  unfold Flow.try_catch_finally, applyTrim_try.
  rewrite bind_gets.
  erewrite bind_value by (apply fetchFile_ok; exact Hres).
  erewrite bind_value by (eapply ffmpeg_writeFile_ok; [exact Hff | exact Hw]).
  rewrite !bind_gets.
  erewrite bind_value by (eapply ffmpeg_exec_ok; [reflexivity | exact Hx]).
  erewrite bind_value by (eapply ffmpeg_readFile_ok; [reflexivity | exact Hr]).
  rewrite replace_video_bind, bind_modify.
  unfold Flow.modify.
  match goal with |- context [replace_video newBlob ?s] => set (s0 := s) end.
  pose proof (replace_video_resource newBlob s0) as Hnew.
  assert (editor (fst (replace_video newBlob s0)) = set_edit_buttons_disabled true st |> editor)
    as Hed by (rewrite replace_video_editor; reflexivity).
  assert (loadedmetadata_once (video (fst (replace_video newBlob s0)))
          = loadedmetadata_once (video st))
    as Hls by (rewrite replace_video_listeners; reflexivity).
  remember (fst (replace_video newBlob s0)) as s1 eqn:E. clear E s0.
  unfold click, trimStart, trimEnd.
  destruct (cancelTrimButton_disabled (editor (set_statusEl _ s1))); cbn;
    rewrite Hed, Hls; cbn; repeat split;
    destruct (video_src (video s1)); exact Hnew.
Qed.

Lemma edit_command_effect (st : St) (command : list JS.text) :
  edit_command EditEffect st = Some command ->
  let effect := selected (effectsSelect (editor st)) in
  let duration := video_duration (video st) in
  String.eqb effect "none" = false
  /\ fade_too_short effect duration = false
  /\ exists filter, effect_filter effect duration = Some filter
                    /\ command = effect_command filter.
Proof.
  unfold edit_command. cbn zeta.
  destruct (fade_too_short _ _) eqn:Hfade; [discriminate|].
  destruct (effect_filter _ _) as [filter|] eqn:Hfilter; [|discriminate].
  intros [= <-]. repeat split; eauto.
  destruct (String.eqb _ "none") eqn:Hnone; [|reflexivity].
  apply String.eqb_eq in Hnone. rewrite Hnone in Hfilter. discriminate.
Qed.

Lemma handleApplyEffect_success (st : St) (newBlob : Blob) :
  edit_succeeds EditEffect st newBlob ->
  resource (video_src (video (handleApplyEffect st))) (handleApplyEffect st) = Some newBlob
  /\ isEditorOpen (editor (handleApplyEffect st)) = isEditorOpen (editor st)
  /\ loadedmetadata_once (video (handleApplyEffect st))
     = S (loadedmetadata_once (video st))
  /\ statusEl (handleApplyEffect st) = JS.lit "Effect applied successfully!".
Proof.
  intros (fs & file & command & fs1 & fs2 & Hff & Hres & Hcmd & Hw & Hx & Hr).
  apply edit_command_effect in Hcmd as (Hnone & Hfade & filter & Hfilter & ->).
  unfold handleApplyEffect. rewrite Hff, (resource_truthy _ _ _ Hres), Hnone.
  unfold Flow.try_catch_finally, handleApplyEffect_try.
  rewrite bind_gets.
  erewrite bind_value by (apply fetchFile_ok; exact Hres).
  erewrite bind_value by (eapply ffmpeg_writeFile_ok; [exact Hff | exact Hw]).
  rewrite bind_gets.
  change (video_duration (video (set_ffmpeg _ _))) with (video_duration (video st)).
  rewrite Hfade, Hfilter.
  erewrite bind_value by (eapply ffmpeg_exec_ok; [reflexivity | exact Hx]).
  erewrite bind_value by (eapply ffmpeg_readFile_ok; [reflexivity | exact Hr]).
  rewrite replace_video_bind, !bind_modify.
  unfold Flow.modify.
  match goal with |- context [replace_video newBlob ?s] => set (s0 := s) end.
  pose proof (replace_video_resource newBlob s0) as Hnew.
  assert (isEditorOpen (editor (fst (replace_video newBlob s0))) = isEditorOpen (editor st))
    as Hed by (rewrite replace_video_editor; reflexivity).
  assert (loadedmetadata_once (video (fst (replace_video newBlob s0)))
          = loadedmetadata_once (video st))
    as Hls by (rewrite replace_video_listeners; reflexivity).
  remember (fst (replace_video newBlob s0)) as s1 eqn:E. clear E s0.
  cbn. rewrite Hed, Hls. repeat split.
  destruct (video_src (video s1)); exact Hnew.
Qed.

(** The one-shot listener, run once or more, leaves the full range. *)
Lemma reset_trim_range_iter (n : nat) (st : St) :
  let st' := Nat.iter (S n) reset_trim_range st in
  video st' = video st
  /\ urls st' = urls st
  /\ isEditorOpen (editor st') = isEditorOpen (editor st)
  /\ trimStart st' = JS.zero
  /\ trimEnd st' = video_duration (video st)
  /\ maxv (trimStartSlider (editor st')) = video_duration (video st)
  /\ maxv (trimEndSlider (editor st')) = video_duration (video st).
Proof.
  induction n as [|n IH]; [cbn; repeat split|].
  cbn zeta in *. rewrite Nat.iter_succ.
  destruct IH as (Hv & Hu & Ho & _).
  set (s := Nat.iter (S n) reset_trim_range st) in *. clearbody s.
  unfold reset_trim_range, trimStart, trimEnd. cbn.
  rewrite Hv. repeat split; assumption.
Qed.

Lemma loadedmetadata_resets (st : St) (b : Blob) (n : nat) :
  resource (video_src (video st)) st = Some b ->
  loadedmetadata_once (video st) = S n ->
  let st' := video_onloadedmetadata st in
  video_duration (video st') = media_duration b
  /\ isEditorOpen (editor st') = isEditorOpen (editor st)
  /\ trimStart st' = JS.zero
  /\ trimEnd st' = media_duration b
  /\ maxv (trimStartSlider (editor st')) = media_duration b
  /\ maxv (trimEndSlider (editor st')) = media_duration b.
Proof.
  intros Hres Hn. unfold video_onloadedmetadata. rewrite Hres, Hn.
  match goal with |- context [Nat.iter (S n) reset_trim_range ?s] =>
    destruct (reset_trim_range_iter n s) as (Hv & _ & Ho & Hs & He & Hm1 & Hm2)
  end.
  cbn zeta. rewrite Hv, Ho, Hs, He, Hm1, Hm2. repeat split.
Qed.

Lemma loadedmetadata_keeps (st : St) (b : Blob) :
  resource (video_src (video st)) st = Some b ->
  loadedmetadata_once (video st) = 0 ->
  let st' := video_onloadedmetadata st in
  video_duration (video st') = media_duration b
  /\ editor st' = editor st.
Proof.
  intros Hres Hn. unfold video_onloadedmetadata. rewrite Hres, Hn.
  cbn. split; reflexivity.
Qed.

(** C1 (amended): an edit that succeeds makes its output the source of the
    player.  After an effect the editor is as open as before and, once the
    metadata of the new video is loaded, the trim range is the full range
    [0, newDuration].  After a trim the trim range is not recomputed: the
    sliders keep the bounds that were applied, also once the metadata of
    the new video is loaded. *)
Theorem edit_then_trim_range (k : Edit) (st : St) (newBlob : Blob) :
  edit_succeeds k st newBlob ->
  let st' := apply_edit k st in
  let st'' := video_onloadedmetadata st' in
  resource (video_src (video st')) st' = Some newBlob
  /\ match k with
     | EditEffect =>
         isEditorOpen (editor st') = isEditorOpen (editor st)
         /\ isEditorOpen (editor st'') = isEditorOpen (editor st)
         /\ video_duration (video st'') = media_duration newBlob
         /\ trimStart st'' = JS.zero
         /\ trimEnd st'' = media_duration newBlob
     | EditTrim =>
         trimStart st' = trimStart st
         /\ trimEnd st' = trimEnd st
         /\ (loadedmetadata_once (video st) = 0 ->
             video_duration (video st'') = media_duration newBlob
             /\ trimStart st'' = trimStart st
             /\ trimEnd st'' = trimEnd st)
     end.
Proof.
  intros Hok. destruct k; cbn zeta; unfold apply_edit.
  - destruct (applyTrim_success st newBlob Hok) as (Hres & Hs & He & Hls & _).
    split; [assumption|]. split; [assumption|]. split; [assumption|].
    intros H0. rewrite H0 in Hls.
    destruct (loadedmetadata_keeps _ _ Hres Hls) as (Hd & Hed).
    unfold trimStart, trimEnd in *. cbn zeta in Hd, Hed. rewrite Hed.
    repeat split; assumption.
  - destruct (handleApplyEffect_success st newBlob Hok) as (Hres & Ho & Hls & _).
    destruct (loadedmetadata_resets _ _ _ Hres Hls) as (Hd & Ho' & Hs & He & _).
    cbn zeta in *. rewrite Ho in Ho'. repeat split; assumption.
Qed.

(** *** Edits that fail *)

Lemma fetchFile_fail (u : Src) (st : St) :
  resource u st = None -> fetchFile u st = (st, Flow.Raise Flow.FetchError).
Proof. intros H. unfold fetchFile. now rewrite H. Qed.

Lemma ffmpeg_writeFile_fail (name : JS.text) (data : FileData Blob) (st : St) (fs fs' : FS) :
  ffmpeg st = Some fs -> ff_writeFile name data fs = (fs', false) ->
  ffmpeg_writeFile name data st
  = (st |> set_engine_calls (engine_calls st ++ [CallWriteFile name data])
        |> set_ffmpeg (Some fs'), Flow.Raise Flow.EngineError).
Proof. intros H1 H2. unfold ffmpeg_writeFile. now rewrite H1, H2. Qed.

Lemma ffmpeg_exec_fail (command : list JS.text) (st : St) (fs fs' : FS) :
  ffmpeg st = Some fs -> ff_exec command fs = (fs', false) ->
  ffmpeg_exec command st
  = (st |> set_engine_calls (engine_calls st ++ [CallExec command])
        |> set_ffmpeg (Some fs'), Flow.Raise Flow.EngineError).
Proof. intros H1 H2. unfold ffmpeg_exec. now rewrite H1, H2. Qed.

Lemma ffmpeg_readFile_fail (name : JS.text) (st : St) (fs : FS) :
  ffmpeg st = Some fs -> ff_readFile name fs = None ->
  ffmpeg_readFile name st
  = (st |> set_engine_calls (engine_calls st ++ [CallReadFile name]),
     Flow.Raise Flow.EngineError).
Proof. intros H1 H2. unfold ffmpeg_readFile. now rewrite H1, H2. Qed.

(** A trim that does not succeed leaves the video and the object URLs as
    they were. *)
Lemma applyTrim_failure (st : St) :
  (forall b, ~ edit_succeeds EditTrim st b) ->
  video (applyTrim st) = video st /\ urls (applyTrim st) = urls st.
Proof.
  intros Hfail. unfold applyTrim.
  destruct (ffmpeg st) as [fs|] eqn:Hff; [|split; reflexivity].
  destruct (src_truthy (video_src (video st))); [|split; reflexivity].
  unfold Flow.try_catch_finally, applyTrim_try.
  rewrite bind_gets.
  destruct (resource (video_src (video st)) st) as [file|] eqn:Hres.
  2: { erewrite bind_raise by (apply fetchFile_fail; exact Hres). split; reflexivity. }
  erewrite bind_value by (apply fetchFile_ok; exact Hres).
  destruct (ff_writeFile inputFileName (FBlob file) fs) as [fs1 [|]] eqn:Hw.
  2: { erewrite bind_raise by (eapply ffmpeg_writeFile_fail; [exact Hff | exact Hw]).
       split; reflexivity. }
  erewrite bind_value by (eapply ffmpeg_writeFile_ok; [exact Hff | exact Hw]).
  rewrite !bind_gets.
  destruct (ff_exec (trim_command (trimStart st) (trimEnd st)) fs1) as [fs2 [|]] eqn:Hx.
  2: { erewrite bind_raise by (eapply ffmpeg_exec_fail; [reflexivity | exact Hx]).
       split; reflexivity. }
  erewrite bind_value by (eapply ffmpeg_exec_ok; [reflexivity | exact Hx]).
  destruct (ff_readFile outputFileName fs2) as [newBlob|] eqn:Hr.
  2: { erewrite bind_raise by (eapply ffmpeg_readFile_fail; [reflexivity | exact Hr]).
       split; reflexivity. }
  exfalso. apply (Hfail newBlob).
  exists fs, file, (trim_command (trimStart st) (trimEnd st)), fs1, fs2.
  repeat split; assumption.
Qed.

(** The same for an effect; in addition no command is run on the engine
    when the clip is too short for a fade. *)
Lemma handleApplyEffect_failure (st : St) :
  (forall b, ~ edit_succeeds EditEffect st b) ->
  video (handleApplyEffect st) = video st /\ urls (handleApplyEffect st) = urls st.
Proof.
  intros Hfail. unfold handleApplyEffect.
  destruct (ffmpeg st) as [fs|] eqn:Hff; [|split; reflexivity].
  destruct (src_truthy (video_src (video st))); [|split; reflexivity].
  destruct (String.eqb _ "none"); [split; reflexivity|].
  unfold Flow.try_catch_finally, handleApplyEffect_try.
  rewrite bind_gets.
  destruct (resource (video_src (video st)) st) as [file|] eqn:Hres.
  2: { erewrite bind_raise by (apply fetchFile_fail; exact Hres). split; reflexivity. }
  erewrite bind_value by (apply fetchFile_ok; exact Hres).
  destruct (ff_writeFile inputFileName (FBlob file) fs) as [fs1 [|]] eqn:Hw.
  2: { erewrite bind_raise by (eapply ffmpeg_writeFile_fail; [exact Hff | exact Hw]).
       split; reflexivity. }
  erewrite bind_value by (eapply ffmpeg_writeFile_ok; [exact Hff | exact Hw]).
  rewrite bind_gets.
  change (video_duration (video (set_ffmpeg _ _))) with (video_duration (video st)).
  destruct (fade_too_short _ _) eqn:Hfade; [split; reflexivity|].
  destruct (effect_filter _ _) as [filter|] eqn:Hfilter; [|split; reflexivity].
  destruct (ff_exec (effect_command filter) fs1) as [fs2 [|]] eqn:Hx.
  2: { erewrite bind_raise by (eapply ffmpeg_exec_fail; [reflexivity | exact Hx]).
       split; reflexivity. }
  erewrite bind_value by (eapply ffmpeg_exec_ok; [reflexivity | exact Hx]).
  destruct (ff_readFile outputFileName fs2) as [newBlob|] eqn:Hr.
  2: { erewrite bind_raise by (eapply ffmpeg_readFile_fail; [reflexivity | exact Hr]).
       split; reflexivity. }
  exfalso. apply (Hfail newBlob).
  exists fs, file, (effect_command filter), fs1, fs2.
  repeat split; try assumption.
  unfold edit_command. cbn zeta. now rewrite Hfade, Hfilter.
Qed.

Lemma edit_failure (k : Edit) (st : St) :
  (forall b, ~ edit_succeeds k st b) ->
  video (apply_edit k st) = video st /\ urls (apply_edit k st) = urls st.
Proof.
  destruct k; [apply applyTrim_failure | apply handleApplyEffect_failure].
Qed.

(** A write on the engine is not a command run on it. *)
Ltac no_command_run :=
  unfold commands_run; cbn; rewrite List.filter_app; cbn; apply app_nil_r.

(** C4 (amended): with the fade effect chosen for a video shorter than 2
    seconds, [handleApplyEffect] leaves the video as it is and runs no
    command on the engine.  It reports that the video is too short when
    the input could be staged on the engine, and the general effect error
    when the staging was rejected. *)
Theorem fade_on_short_clip (st : St) (fs : FS) :
  ffmpeg st = Some fs ->
  src_truthy (video_src (video st)) = true ->
  selected (effectsSelect (editor st)) = "fade" ->
  JS.lt (video_duration (video st)) JS.two = true ->
  let st' := handleApplyEffect st in
  video st' = video st
  /\ urls st' = urls st
  /\ commands_run st' = commands_run st
  /\ statusEl st' =
       JS.lit (if staged st then "Video is too short for a fade effect."
               else "An error occurred while applying the effect.").
Proof.
  intros Hff Hsrc Hfade Hshort. cbn zeta.
  unfold handleApplyEffect, staged. rewrite Hff, Hsrc, Hfade.
  change (String.eqb "fade" "none") with false. cbv iota.
  unfold Flow.try_catch_finally, handleApplyEffect_try.
  rewrite bind_gets.
  destruct (resource (video_src (video st)) st) as [file|] eqn:Hres.
  2: { erewrite bind_raise by (apply fetchFile_fail; exact Hres). repeat split. }
  erewrite bind_value by (apply fetchFile_ok; exact Hres).
  destruct (ff_writeFile inputFileName (FBlob file) fs) as [fs1 [|]] eqn:Hw.
  2: { erewrite bind_raise by (eapply ffmpeg_writeFile_fail; [exact Hff | exact Hw]).
       repeat split. no_command_run. }
  erewrite bind_value by (eapply ffmpeg_writeFile_ok; [exact Hff | exact Hw]).
  rewrite bind_gets.
  change (video_duration (video (set_ffmpeg _ _))) with (video_duration (video st)).
  unfold fade_too_short. rewrite Hshort, orb_true_r.
  change (String.eqb "fade" "fade") with true. cbn.
  repeat split. no_command_run.
Qed.

(** *** The dispatcher after an edit *)

Lemma invalid_trim_times_NaN (d s e : JS.num) :
  invalid_trim_times d s e = false -> JS.isNaN d = false.
Proof.
  unfold invalid_trim_times. destruct (JS.isNaN d); [discriminate | reflexivity].
Qed.

Lemma dispatch_runs_edit (r : EditRequest) (st : St) :
  isEditorOpen (editor st) = true ->
  valid_request r st = true ->
  dispatch r st
  = (apply_edit (request_kind r) (requested r st), Flow.Value (TText (confirmation r))).
Proof.
  intros Hopen Hvalid. destruct r as [s e|name]; unfold dispatch, valid_request in *.
  - apply negb_true_iff in Hvalid.
    unfold tools_trimVideo. rewrite bind_gets, Hopen. cbn [negb].
    rewrite bind_gets, (invalid_trim_times_NaN _ _ _ Hvalid).
    cbn [request_args arg startTime endTime to_num].
    unfold Flow.bind at 1. cbn [Flow.ret].
    unfold Flow.bind at 1. cbn [Flow.ret to_num].
    rewrite Hvalid. reflexivity.
  - unfold tools_applyEffect. rewrite bind_gets, Hopen. cbn [negb].
    rewrite bind_gets.
    cbn [request_args arg effectName].
    unfold Flow.bind at 1. cbn [Flow.ret includes].
    rewrite Hvalid. reflexivity.
Qed.

(** C7: with the editor open, a trim or an effect asked for through the
    dispatcher with arguments that pass its checks is answered by the
    success confirmation, whatever the engine does.  When the edit does
    not succeed (a call on the engine is rejected, or the clip is too
    short for a fade) the video is left as it was, and the answer is the
    success confirmation all the same. *)
Theorem dispatcher_confirms_failed_edits (r : EditRequest) (st : St) :
  isEditorOpen (editor st) = true ->
  valid_request r st = true ->
  snd (dispatch r st) = Flow.Value (TText (confirmation r))
  /\ ((forall b, ~ edit_succeeds (request_kind r) (requested r st) b) ->
      video (fst (dispatch r st)) = video st
      /\ snd (dispatch r st) = Flow.Value (TText (confirmation r))).
Proof.
  intros Hopen Hvalid. rewrite (dispatch_runs_edit r st Hopen Hvalid). cbn [fst snd].
  split; [reflexivity|]. intros Hfail.
  destruct (edit_failure _ _ Hfail) as [Hv _]. rewrite Hv.
  split; [|reflexivity]. destruct r; reflexivity.
Qed.

(** *** Merging the bin *)

Lemma touch_engine_id (st : St) (fs : FS) :
  ffmpeg st = Some fs ->
  st |> set_engine_calls (engine_calls st ++ []) |> set_ffmpeg (Some fs) = st.
Proof.
  intros H. destruct st. cbn in *. subst. unfold set_ffmpeg, set_engine_calls. cbn.
  now rewrite app_nil_r.
Qed.

(** The merge loop does on the session what [stage_inputs] does on the
    engine, and logs its writes. *)
Lemma merge_write_inputs_run (clips : Clips) :
  forall (i : nat) (acc : JS.text) (st : St) (fs : FS),
    ffmpeg st = Some fs ->
    exists calls,
      merge_write_inputs i clips acc st
      = (st |> set_engine_calls (engine_calls st ++ calls)
            |> set_ffmpeg (Some (fst (stage_inputs i clips fs))),
         if snd (stage_inputs i clips fs)
         then Flow.Value (acc ++ merge_list i clips)
         else Flow.Raise Flow.EngineError)
      /\ List.filter is_exec calls = []
      /\ (snd (stage_inputs i clips fs) = true -> calls = staging_calls i clips).
Proof.
  induction clips as [|clip rest IH]; intros i acc st fs Hff.
  - exists []. cbn. rewrite (touch_engine_id st fs Hff), app_nil_r. auto.
  - cbn [merge_write_inputs stage_inputs].
    destruct (ff_writeFile (merge_input_name i) (FBlob (clip_blob clip)) fs)
      as [fs' [|]] eqn:Hw.
    + erewrite bind_value by (eapply ffmpeg_writeFile_ok; [exact Hff | exact Hw]).
      edestruct (IH (S i) (acc ++ merge_list_line i)
                   (st |> set_engine_calls (engine_calls st ++
                            [CallWriteFile (merge_input_name i) (FBlob (clip_blob clip))])
                       |> set_ffmpeg (Some fs')) fs' eq_refl)
        as (calls & Hrun & Hnone & Hcalls).
      exists (CallWriteFile (merge_input_name i) (FBlob (clip_blob clip)) :: calls).
      rewrite Hrun. split; [|split].
      * unfold set_ffmpeg, set_engine_calls. cbn.
        rewrite <- !app_assoc. reflexivity.
      * cbn. exact Hnone.
      * intros Hok. cbn. now rewrite (Hcalls Hok).
    + erewrite bind_raise by (eapply ffmpeg_writeFile_fail; [exact Hff | exact Hw]).
      exists [CallWriteFile (merge_input_name i) (FBlob (clip_blob clip))].
      cbn. split; [reflexivity|]. split; [reflexivity|]. discriminate.
Qed.

(** The writes follow the order of the bin: clip [k] is written as
    [input<k>.mp4], the [k]-th write. *)
Lemma staging_calls_lookup (clips : Clips) :
  forall (i k : nat) (clip : @Clip Blob),
    clips !! k = Some clip ->
    staging_calls i clips !! k
    = Some (CallWriteFile (merge_input_name (i + k)) (FBlob (clip_blob clip))).
Proof.
  induction clips as [|c rest IH]; intros i k clip Hk; [discriminate|].
  destruct k as [|k].
  - cbn in Hk. injection Hk as ->. cbn [staging_calls]. now rewrite Nat.add_0_r.
  - cbn [staging_calls]. change ((?x :: ?l) !! S k) with (l !! k).
    rewrite (IH (S i) k clip Hk). now rewrite Nat.add_succ_r.
Qed.

Lemma staging_calls_length (clips : Clips) (i : nat) :
  List.length (staging_calls i clips) = List.length clips.
Proof. revert i; induction clips; intros; cbn; auto. Qed.

Ltac replace_video_frame :=
  unfold replace_video, createObjectURL, Flow.bind, Flow.gets, Flow.modify,
    revokeObjectURL; cbn;
  match goal with |- context [video_src (video ?s)] => destruct (video_src (video s)) end;
  reflexivity.

Lemma replace_video_engine_calls (b : Blob) (st : St) :
  engine_calls (fst (replace_video b st)) = engine_calls st.
Proof. replace_video_frame. Qed.

Lemma replace_video_mergeBin (b : Blob) (st : St) :
  mergeBin (fst (replace_video b st)) = mergeBin st.
Proof. replace_video_frame. Qed.

(** A click on the merge button.  With fewer than 2 clips in the bin
    it only reports that 2 are needed: bin, video, object URLs and engine
    are untouched.  With 2 or more, the clips are written to the engine as
    [input0.mp4], [input1.mp4], ... and listed in that order, the order of
    the bin, and the concat command is run; when the merge succeeds its
    output becomes the video and the bin is emptied, and when it does not
    (the engine is missing or rejects a call) the bin, the video and the
    object URLs are as before.  (A concat that fails with an exit code is
    not a rejection: [exec] resolves.) *)
Theorem merge_click (st : St) :
  let st' := mergeVideosButton_onclick st in
  if (List.length (mergeBin st) <? 2)%nat
  then
    statusEl st' = JS.lit "Add at least 2 videos to merge."
    /\ mergeBin st' = mergeBin st /\ video st' = video st /\ urls st' = urls st
    /\ ffmpeg st' = ffmpeg st /\ engine_calls st' = engine_calls st
  else
    (forall newBlob, merge_succeeds st newBlob ->
       resource (video_src (video st')) st' = Some newBlob
       /\ mergeBin st' = []
       /\ statusEl st' = JS.lit "Merge successful!"
       /\ engine_calls st'
          = engine_calls st ++ staging_calls 0 (mergeBin st) ++
            [ CallWriteFile (JS.lit "mylist.txt") (FText (merge_list 0 (mergeBin st)));
              CallExec concat_command; CallReadFile outputFileName ]
       /\ (forall k clip, mergeBin st !! k = Some clip ->
             staging_calls 0 (mergeBin st) !! k
             = Some (CallWriteFile (merge_input_name k) (FBlob (clip_blob clip)))))
    /\ ((forall newBlob, ~ merge_succeeds st newBlob) ->
        mergeBin st' = mergeBin st /\ video st' = video st /\ urls st' = urls st).
Proof.
  cbn zeta. unfold mergeVideosButton_onclick.
  destruct (List.length (mergeBin st) <? 2)%nat eqn:Hlen; [repeat split|].
  split.
  - intros newBlob (fs & fs1 & fs2 & fs3 & Hff & Hstage & Hlist & Hx & Hr).
    rewrite Hff. unfold Flow.try_catch_finally, merge_try.
    rewrite bind_gets.
    match goal with |- context [Flow.bind (merge_write_inputs 0 ?b []) _ ?s] =>
      change b with (mergeBin st);
      destruct (merge_write_inputs_run (mergeBin st) 0 [] s fs Hff)
        as (calls & Hrun & _ & Hcalls)
    end.
    rewrite Hstage in Hrun, Hcalls. cbn [fst snd] in Hrun, Hcalls.
    specialize (Hcalls eq_refl). subst calls.
    erewrite bind_value by exact Hrun.
    erewrite bind_value by (eapply ffmpeg_writeFile_ok; [reflexivity | exact Hlist]).
    erewrite bind_value by (eapply ffmpeg_exec_ok; [reflexivity | exact Hx]).
    erewrite bind_value by (eapply ffmpeg_readFile_ok; [reflexivity | exact Hr]).
    rewrite replace_video_bind, !bind_modify. unfold Flow.modify.
    match goal with |- context [replace_video newBlob ?s] => set (s0 := s) end.
    pose proof (replace_video_resource newBlob s0) as Hnew.
    assert (engine_calls (fst (replace_video newBlob s0))
            = engine_calls st ++ staging_calls 0 (mergeBin st) ++
              [ CallWriteFile (JS.lit "mylist.txt") (FText (merge_list 0 (mergeBin st)));
                CallExec concat_command; CallReadFile outputFileName ]) as Hcalls.
    { rewrite replace_video_engine_calls. subst s0. cbn.
      rewrite <- !app_assoc. reflexivity. }
    remember (fst (replace_video newBlob s0)) as s1 eqn:E. clear E s0.
    cbn. split; [destruct (video_src (video s1)); exact Hnew|].
    split; [reflexivity|]. split; [reflexivity|]. split; [exact Hcalls|].
    intros k clip Hk. apply (staging_calls_lookup _ 0 k clip Hk).
  - intros Hfail.
    destruct (ffmpeg st) as [fs|] eqn:Hff; [|repeat split].
    unfold Flow.try_catch_finally, merge_try.
    rewrite bind_gets.
    match goal with |- context [Flow.bind (merge_write_inputs 0 ?b []) _ ?s] =>
      change b with (mergeBin st);
      destruct (merge_write_inputs_run (mergeBin st) 0 [] s fs Hff)
        as (calls & Hrun & _ & _)
    end.
    destruct (stage_inputs 0 (mergeBin st) fs) as [fs1 [|]] eqn:Hstage;
      cbn [fst snd] in Hrun.
    2: { erewrite bind_raise by exact Hrun. repeat split. }
    erewrite bind_value by exact Hrun.
    destruct (ff_writeFile (JS.lit "mylist.txt")
                (FText ([] ++ merge_list 0 (mergeBin st))) fs1) as [fs2 [|]] eqn:Hlist.
    2: { erewrite bind_raise by (eapply ffmpeg_writeFile_fail; [reflexivity | exact Hlist]).
         repeat split. }
    erewrite bind_value by (eapply ffmpeg_writeFile_ok; [reflexivity | exact Hlist]).
    destruct (ff_exec concat_command fs2) as [fs3 [|]] eqn:Hx.
    2: { erewrite bind_raise by (eapply ffmpeg_exec_fail; [reflexivity | exact Hx]).
         repeat split. }
    erewrite bind_value by (eapply ffmpeg_exec_ok; [reflexivity | exact Hx]).
    destruct (ff_readFile outputFileName fs3) as [newBlob|] eqn:Hr.
    2: { erewrite bind_raise by (eapply ffmpeg_readFile_fail; [reflexivity | exact Hr]).
         repeat split. }
    exfalso. apply (Hfail newBlob). exists fs, fs1, fs2, fs3. repeat split; assumption.
Qed.

(** *** Generation *)

Lemma start_downloads_pending (videos : list GeneratedVideo) :
  forall st : St,
    pending_fetches (fold_left (fun st v => start_download v st) videos st)
    = pending_fetches st ++ omap download_url videos.
Proof.
  induction videos as [|v rest IH]; intros st; cbn.
  - now rewrite app_nil_r.
  - rewrite IH. unfold start_download.
    destruct (download_url v) as [url|]; cbn; [|reflexivity].
    now rewrite <- app_assoc.
Qed.

Lemma download_completes_source (st : St) (i : nat) (url : string) (blob : Blob) :
  pending_fetches st !! i = Some url ->
  fetch_url url = Some blob ->
  resource (video_src (video (download_completes i st))) (download_completes i st)
  = Some blob
  /\ pending_fetches (download_completes i st) = delete i (pending_fetches st).
Proof.
  intros Hi Hfetch. unfold download_completes. rewrite Hi, Hfetch.
  unfold createObjectURL, Flow.bind, Flow.modify. cbn.
  split; [apply lookup_insert_eq | reflexivity].
Qed.

Lemma last_default {A} (l : list A) (x d d' : A) :
  List.last (x :: l) d = List.last (x :: l) d'.
Proof.
  revert x. induction l as [|y l IH]; intros x; [reflexivity|].
  change (List.last (y :: l) d = List.last (y :: l) d'). apply IH.
Qed.

(** The poll loop: when the operations the service answers with are not
    done but for the last one, the loop ends with the last one, after one
    poll for each answer. *)
Lemma poll_run (later : list (nat * Operation)) :
  forall (first : Operation) (rest : list (nat * option Operation)) (st : St),
    Forall (fun op => done op = false) (removelast (first :: map snd later)) ->
    done (List.last (first :: map snd later) first) = true ->
    poll first (answered later rest) st
    = (polled later st, Flow.Value (Settled (List.last (first :: map snd later) first))).
Proof.
  induction later as [|a later IH]; intros first rest st Hwait Hdone.
  - cbn in Hdone. unfold answered. cbn [map app polled fold_left List.last].
    destruct rest; cbn; rewrite Hdone; reflexivity.
  - cbn [map] in Hwait, Hdone |- *.
    change (removelast (first :: snd a :: map snd later))
      with (first :: removelast (snd a :: map snd later)) in Hwait.
    apply Forall_cons_iff in Hwait as [Hfirst Hwait].
    change (List.last (first :: snd a :: map snd later) first)
      with (List.last (snd a :: map snd later) first) in Hdone |- *.
    rewrite (last_default _ _ first (snd a)) in Hdone |- *.
    unfold answered. cbn [map app poll]. rewrite Hfirst.
    unfold Flow.bind, Flow.modify. cbn [fst snd].
    exact (IH (snd a) rest _ Hwait Hdone).
Qed.

(** C2 (amended): when a generation comes to its end, at once or after
    any number of polls, a last answer without videos makes
    [generateContent] throw "No videos generated"; a last answer with
    videos starts a download for every one of them, in the order of the
    response, and returns.  Every download that completes makes its blob
    the source of the player, so the video that stays is the one whose
    download completes last.  ([first] is the answer to the request,
    [later] the answers to the polls; all but the last are not done.) *)
Theorem generation_uses_every_video
    (first : Operation) (later : list (nat * Operation))
    (rest : list (nat * option Operation)) (st : St) :
  let operations := first :: map snd later in
  let final := List.last operations first in
  Forall (fun operation => done operation = false) (removelast operations) ->
  done final = true ->
  match generatedVideos final with
  | None | Some [] =>
      generateContent (Some first) (answered later rest) st
      = (polled later st, Flow.Raise (Flow.Error "No videos generated"))
  | Some videos =>
      let st' := fold_left (fun st v => start_download v st) videos (polled later st) in
      generateContent (Some first) (answered later rest) st
      = (st', Flow.Value (Settled tt))
      /\ pending_fetches st' = pending_fetches st ++ omap download_url videos
      /\ video st' = video st
      /\ forall (st1 : St) (i : nat) (url : string) (blob : Blob),
           pending_fetches st1 !! i = Some url ->
           fetch_url url = Some blob ->
           resource (video_src (video (download_completes i st1)))
                    (download_completes i st1) = Some blob
           /\ pending_fetches (download_completes i st1)
              = delete i (pending_fetches st1)
  end.
Proof.
  cbn zeta. intros Hwait Hdone. unfold generateContent.
  erewrite bind_value by (apply poll_run; eassumption).
  assert (pending_fetches (polled later st) = pending_fetches st
          /\ video (polled later st) = video st) as [Hp Hv].
  { unfold polled. clear. revert st.
    induction later as [|a later IH]; intros st; [split; reflexivity|].
    cbn [fold_left]. destruct (IH (set_statusEl
      [ JS.PStr "Generating... (";
        JS.PStr (nth (fst a mod 6) progress_messages EmptyString);
        JS.PStr ")" ] st)) as [H1 H2].
    rewrite H1, H2. split; reflexivity. }
  destruct (generatedVideos (List.last (first :: map snd later) first))
    as [[|v videos]|]; try reflexivity.
  cbn zeta. split; [reflexivity|].
  split; [rewrite start_downloads_pending, Hp; reflexivity|].
  split; [|apply download_completes_source].
  rewrite <- Hv. generalize (v :: videos). intros l. generalize (polled later st).
  induction l as [|x l IH]; intros s0; cbn; [reflexivity|].
  rewrite IH. unfold start_download. destruct (download_url x); reflexivity.
Qed.

(** *** The dispatcher *)

Lemma qualityMap_get (q : string) :
  of_lookup (JS.get qualityMap q) = quality_resolution q.
Proof.
  unfold JS.get, qualityMap, quality_resolution.
  rewrite !list_to_map_cons, list_to_map_nil. cbn [fst snd].
  rewrite !lookup_insert, lookup_empty.
  destruct (String.eqb_spec q "standard") as [->|Hs].
  - rewrite decide_True by reflexivity. reflexivity.
  - rewrite decide_False by congruence.
    destruct (String.eqb_spec q "high") as [->|Hh].
    + rewrite decide_True by reflexivity. reflexivity.
    + rewrite decide_False by congruence.
      destruct (bool_decide _); reflexivity.
Qed.

Lemma bind_ret {S A B} (a : A) (k : A -> Flow.M S B) (s : S) :
  Flow.bind (Flow.ret a) k s = k a s.
Proof. reflexivity. Qed.

Lemma tools_setQuality_run (st : St) (args : Args) (q : string) :
  newQuality args = Some q ->
  tools_setQuality (Some args) st
  = (st |> on_config (on_qualitySelect
             (select_assign (text_as_string (to_DOMString (quality_resolution q)))))
        |> on_config (set_resolution (quality_resolution q)),
     Flow.Value (TText ([JS.PStr "Video quality set to: "; JS.PStr q; JS.PStr " ("]
                        ++ to_DOMString (quality_resolution q) ++ [JS.PStr ")"]))).
Proof.
  intros Hq. unfold tools_setQuality, arg. rewrite Hq, bind_ret.
  cbn [of_option_string to_DOMString text_as_string JS.lit].
  rewrite qualityMap_get. reflexivity.
Qed.

(** C9: [setQuality] sets the resolution of the generation settings to
    "720p" for the quality "standard" and to "1080p" for the quality
    "high", and to no resolution at all for anything else; the quality
    selector follows, and the answer names both. *)
Theorem setQuality_sets_resolution (st : St) (args : Args) (q : string) :
  newQuality args = Some q ->
  let st' := fst (tools_setQuality (Some args) st) in
  resolution (config st') = quality_resolution q
  /\ (q = "standard" -> resolution (config st') = VString "720p")
  /\ (q = "high" -> resolution (config st') = VString "1080p")
  /\ (q <> "standard" -> q <> "high" ->
      forall r, resolution (config st') <> VString r)
  /\ qualitySelect (config st')
     = select_assign (text_as_string (to_DOMString (quality_resolution q)))
         (qualitySelect (config st))
  /\ snd (tools_setQuality (Some args) st)
     = Flow.Value (TText ([JS.PStr "Video quality set to: "; JS.PStr q; JS.PStr " ("]
                          ++ to_DOMString (quality_resolution q) ++ [JS.PStr ")"])).
Proof.
  intros Hq. cbn zeta. rewrite (tools_setQuality_run st args q Hq). cbn [fst snd].
  change (resolution (config (on_config (set_resolution (quality_resolution q)) _)))
    with (quality_resolution q).
  split; [reflexivity|].
  split; [intros ->; reflexivity|]. split; [intros ->; reflexivity|].
  split; [|split; reflexivity].
  intros Hs Hh r. unfold quality_resolution.
  apply String.eqb_neq in Hs, Hh. rewrite Hs, Hh.
  destruct (bool_decide _); discriminate.
Qed.

(** The entries of [tools]. *)
Lemma tools_lookup (name : string) (tool : option Args -> Flow.M St ToolValue) :
  tools !! name = Some tool ->
  (name = "setPrompt" /\ tool = tools_setPrompt)
  \/ (name = "setAspectRatio" /\ tool = tools_setAspectRatio)
  \/ (name = "setDuration" /\ tool = tools_setDuration)
  \/ (name = "setQuality" /\ tool = tools_setQuality)
  \/ (name = "clickGenerate" /\ tool = tools_clickGenerate)
  \/ (name = "openEditor" /\ tool = tools_openEditor)
  \/ (name = "closeEditor" /\ tool = tools_closeEditor)
  \/ (name = "trimVideo" /\ tool = tools_trimVideo)
  \/ (name = "applyEffect" /\ tool = tools_applyEffect).
Proof.
  unfold tools. rewrite !list_to_map_cons, list_to_map_nil. cbn [fst snd].
  rewrite !lookup_insert, lookup_empty.
  repeat (case_decide; [subst name; intros [= <-]; tauto|]).
  discriminate.
Qed.

Lemma declared_no_args (name : string) :
  declared_args name None ->
  name = "clickGenerate" \/ name = "openEditor" \/ name = "closeEditor".
Proof. intros H. exact H. Qed.

Ltac tool_returns := eexists; reflexivity.

(** Run with their declared arguments, the nine operations return a text. *)
Lemma tools_return_text (name : string) (tool : option Args -> Flow.M St ToolValue)
    (args : option Args) (st : St) :
  tools !! name = Some tool ->
  declared_args name args ->
  exists t, snd (tool args st) = Flow.Value (TText t).
Proof.
  intros Hin Hargs.
  apply tools_lookup in Hin.
  destruct args as [a|].
  - destruct Hargs as (Hp & Hr & Hd & Hq & Ht & He).
    destruct Hin as [[-> ->]|[[-> ->]|[[-> ->]|[[-> ->]|[[-> ->]|[[-> ->]|[[-> ->]|[[-> ->]|[-> ->]]]]]]]]].
    + destruct (Hp eq_refl) as [p Hp']. unfold tools_setPrompt, arg.
      rewrite Hp', bind_ret. tool_returns.
    + destruct (Hr eq_refl) as [r Hr']. unfold tools_setAspectRatio, arg.
      rewrite Hr', bind_ret. tool_returns.
    + destruct (Hd eq_refl) as [d Hd']. unfold tools_setDuration, arg.
      rewrite Hd', bind_ret. tool_returns.
    + destruct (Hq eq_refl) as [q Hq']. rewrite (tools_setQuality_run st a q Hq').
      tool_returns.
    + tool_returns.
    + unfold tools_openEditor. rewrite bind_gets.
      destruct (negb _ || negb _); [tool_returns|].
      rewrite bind_gets. destruct (isEditorOpen (editor st)); tool_returns.
    + unfold tools_closeEditor. rewrite bind_gets.
      destruct (negb _); tool_returns.
    + destruct (Ht eq_refl) as [[s Hs] [e He']].
      unfold tools_trimVideo. rewrite bind_gets.
      destruct (negb _); [tool_returns|].
      rewrite bind_gets. destruct (JS.isNaN _); [tool_returns|].
      unfold arg. rewrite Hs, He', !bind_ret.
      destruct (invalid_trim_times _ _ _); tool_returns.
    + destruct (He eq_refl) as [n Hn].
      unfold tools_applyEffect. rewrite bind_gets.
      destruct (negb _); [tool_returns|].
      rewrite bind_gets. unfold arg. rewrite Hn, bind_ret.
      destruct (negb _); tool_returns.
  - apply declared_no_args in Hargs.
    destruct Hargs as [-> | [-> | ->]];
      destruct Hin as [[E ->]|[[E ->]|[[E ->]|[[E ->]|[[E ->]|[[E ->]|[[E ->]|[[E ->]|[E ->]]]]]]]]];
      try discriminate.
    + tool_returns.
    + unfold tools_openEditor. rewrite bind_gets.
      destruct (negb _ || negb _); [tool_returns|].
      rewrite bind_gets. destruct (isEditorOpen (editor st)); tool_returns.
    + unfold tools_closeEditor. rewrite bind_gets.
      destruct (negb _); tool_returns.
Qed.

(** An operation whose precondition does not hold answers so and leaves
    the session as it is. *)
Lemma tools_reject (name : string) (tool : option Args -> Flow.M St ToolValue)
    (args : option Args) (st : St) (msg : JS.text) :
  tools !! name = Some tool ->
  precondition_violation name args st = Some msg ->
  tool args st = (st, Flow.Value (TText msg)).
Proof.
  intros Hin.
  apply tools_lookup in Hin.
  destruct Hin as [[-> ->]|[[-> ->]|[[-> ->]|[[-> ->]|[[-> ->]|[[-> ->]|[[-> ->]|[[-> ->]|[-> ->]]]]]]]]];
    unfold precondition_violation; cbn [String.eqb Ascii.eqb Bool.eqb]; cbn zeta;
    try discriminate.
  - unfold tools_openEditor. rewrite bind_gets.
    destruct (negb _ || negb _); [intros [= <-]; reflexivity|].
    rewrite bind_gets. destruct (isEditorOpen (editor st)); [|discriminate].
    intros [= <-]; reflexivity.
  - unfold tools_closeEditor. rewrite bind_gets.
    destruct (negb _); [|discriminate]. intros [= <-]; reflexivity.
  - unfold tools_trimVideo. rewrite bind_gets.
    destruct (negb _); [intros [= <-]; reflexivity|].
    rewrite bind_gets. destruct args as [a|]; [|discriminate].
    destruct (invalid_trim_times _ _ _) eqn:Hinv; [|discriminate].
    intros [= <-].
    destruct (JS.isNaN (video_duration (video st))) eqn:Hnan; [reflexivity|].
    unfold arg. rewrite !bind_ret, Hinv. reflexivity.
  - unfold tools_applyEffect. rewrite bind_gets.
    destruct (negb _); [intros [= <-]; reflexivity|].
    rewrite bind_gets. destruct args as [a|]; [|discriminate].
    destruct (negb (includes _ _)) eqn:Hinc; [|discriminate].
    intros [= <-]. unfold arg. rewrite bind_ret, Hinc. reflexivity.
Qed.

(** C6: an operation of the dispatcher run with its declared arguments
    does not throw: it returns a text.  When one of its preconditions does
    not hold (no video in the player, the editor closed, trim times out of
    bounds or out of order, an effect that is not in the list) the text is
    the answer that says so and the session is exactly as before. *)
Theorem dispatcher_never_throws (name : string)
    (tool : option Args -> Flow.M St ToolValue) (args : option Args) (st : St) :
  tools !! name = Some tool ->
  declared_args name args ->
  (exists t, snd (tool args st) = Flow.Value (TText t))
  /\ (forall msg, precondition_violation name args st = Some msg ->
        tool args st = (st, Flow.Value (TText msg))).
Proof.
  intros Hin Hargs. split.
  - exact (tools_return_text name tool args st Hin Hargs).
  - intros msg Hmsg. exact (tools_reject name tool args st msg Hin Hmsg).
Qed.

(** *** The agent loop *)

Context {H : Type} `{Chat : !ChatModel H}.

Local Abbreviation Ag := (@Agent Blob FS H).

Lemma find_exists {A} (p : A -> bool) (l : list A) (x : A) :
  List.find p l = Some x -> existsb p l = true.
Proof.
  intros Hf. apply existsb_exists. exists x.
  apply List.find_some in Hf. exact Hf.
Qed.

(** What [tools[name]] finds: an entry of the table, a member of
    [Object.prototype], or nothing. *)
Lemma tool_of_None (name : string) :
  tool_of name = None <->
  tools !! name = None /\ name ∉ JS.object_prototype_names.
Proof.
  unfold tool_of, JS.get.
  destruct (tools !! name) as [tool|]; [split; [discriminate | intros [? _]; discriminate]|].
  destruct (bool_decide (name ∈ JS.object_prototype_names)) eqn:Hp.
  - apply bool_decide_eq_true in Hp. split; [discriminate | intros [_ Hn]; contradiction].
  - apply bool_decide_eq_false in Hp. split; auto.
Qed.

(** One turn of the loop on a name [tools[name]] finds nothing for: the
    error is shown and the loop is left, without a message to the model. *)
Lemma unknown_tool_ends_loop (fuel : nat) (response : GenerateContentResponse)
    (call : FunctionCall) (x : Ag) :
  requested_call response = Some call ->
  tool_of (fc_name call) = None ->
  tool_loop (S fuel) response x
  = (addMessage (AgentBubble (Some (unknown_tool_message (fc_name call)))) x,
     Flow.Value (Settled response)).
Proof.
  unfold requested_call. intros Hcall Hnone. cbn [tool_loop].
  destruct (candidates response) as [[|candidate rest]|]; try discriminate.
  destruct (content_parts candidate) as [parts|]; try discriminate.
  destruct (List.find has_functionCall parts) as [part|] eqn:Hfind; try discriminate.
  rewrite (find_exists _ _ _ Hfind). cbn [negb].
  destruct part as [fc]. cbn in Hcall. subst fc.
  rewrite Hnone. reflexivity.
Qed.

(** One turn of the loop on a name [tools[name]] finds something for:
    what is found is called, and its result is sent to the model. *)
Lemma known_tool_goes_on (fuel : nat) (response : GenerateContentResponse)
    (call : FunctionCall) (tool : option Args -> Flow.M St ToolValue) (x : Ag) :
  requested_call response = Some call ->
  tool_of (fc_name call) = Some tool ->
  tool_loop (S fuel) response x
  = (do toolResult <- in_session (tool (fc_args call));
     step Flow.modify (addMessage (ToolBubble (fc_name call) (fc_args call)));
     do response' <- chat_send (FunctionResponse (fc_name call) toolResult);
     tool_loop fuel response') x.
Proof.
  unfold requested_call. intros Hcall Hsome. cbn [tool_loop].
  destruct (candidates response) as [[|candidate rest]|]; try discriminate.
  destruct (content_parts candidate) as [parts|]; try discriminate.
  destruct (List.find has_functionCall parts) as [part|] eqn:Hfind; try discriminate.
  rewrite (find_exists _ _ _ Hfind). cbn [negb].
  destruct part as [fc]. cbn in Hcall. subst fc.
  rewrite Hsome. reflexivity.
Qed.

(** The loop only ever adds to the messages sent to the model. *)
Lemma tool_loop_sent (fuel : nat) :
  forall (response : GenerateContentResponse) (x : Ag),
    exists more, sent (fst (tool_loop fuel response x)) = sent x ++ more.
Proof.
  induction fuel as [|fuel IH]; intros response x.
  - exists []. cbn. now rewrite app_nil_r.
  - destruct (requested_call response) as [call|] eqn:Hcall.
    + destruct (tool_of (fc_name call)) as [tool|] eqn:Htool.
      * rewrite (known_tool_goes_on fuel response call tool x Hcall Htool).
        unfold Flow.bind at 1. unfold in_session.
        destruct (tool (fc_args call) (session x)) as [st [v|e|]];
          try (exists []; cbn; now rewrite app_nil_r).
        rewrite bind_modify. unfold Flow.bind, chat_send.
        destruct (chat_sendMessage _ _) as [h [response'|]].
        -- match goal with |- context [tool_loop fuel response' ?y] =>
             destruct (IH response' y) as [more Hmore]
           end.
           eexists. rewrite Hmore. cbn. rewrite <- app_assoc. reflexivity.
        -- eexists. cbn. reflexivity.
      * rewrite (unknown_tool_ends_loop fuel response call x Hcall Htool).
        exists []. cbn. now rewrite app_nil_r.
    + exists []. rewrite app_nil_r. unfold requested_call in Hcall. cbn [tool_loop].
      destruct (candidates response) as [[|candidate rest]|]; try reflexivity.
      destruct (content_parts candidate) as [parts|]; try reflexivity.
      destruct (existsb has_functionCall parts) eqn:Hex; [|reflexivity].
      cbn [negb].
      destruct (List.find has_functionCall parts) as [[[fc|]]|] eqn:Hfind;
        try reflexivity.
      discriminate.
Qed.

(** The loop only ever adds to the chat window. *)
Lemma tool_loop_window (fuel : nat) :
  forall (response : GenerateContentResponse) (x : Ag),
    exists more, chatWindow (fst (tool_loop fuel response x)) = chatWindow x ++ more.
Proof.
  induction fuel as [|fuel IH]; intros response x.
  - exists []. cbn. now rewrite app_nil_r.
  - destruct (requested_call response) as [call|] eqn:Hcall.
    + destruct (tool_of (fc_name call)) as [tool|] eqn:Htool.
      * rewrite (known_tool_goes_on fuel response call tool x Hcall Htool).
        unfold Flow.bind at 1. unfold in_session.
        destruct (tool (fc_args call) (session x)) as [st [v|e|]];
          try (exists []; cbn; now rewrite app_nil_r).
        rewrite bind_modify. unfold Flow.bind, chat_send.
        destruct (chat_sendMessage _ _) as [h [response'|]].
        -- match goal with |- context [tool_loop fuel response' ?y] =>
             destruct (IH response' y) as [more Hmore]
           end.
           eexists. rewrite Hmore. cbn. rewrite <- app_assoc. reflexivity.
        -- eexists. cbn. reflexivity.
      * rewrite (unknown_tool_ends_loop fuel response call x Hcall Htool).
        eexists. cbn. reflexivity.
    + exists []. rewrite app_nil_r. unfold requested_call in Hcall. cbn [tool_loop].
      destruct (candidates response) as [[|candidate rest]|]; try reflexivity.
      destruct (content_parts candidate) as [parts|]; try reflexivity.
      destruct (existsb has_functionCall parts) eqn:Hex; [|reflexivity].
      cbn [negb].
      destruct (List.find has_functionCall parts) as [[[fc|]]|] eqn:Hfind;
        try reflexivity.
      discriminate.
Qed.

Lemma tools_no_constructor : tools !! "constructor" = None.
Proof.
  destruct (tools !! "constructor") as [tool|] eqn:Hin; [|reflexivity].
  apply tools_lookup in Hin.
  destruct Hin as [[E _]|[[E _]|[[E _]|[[E _]|[[E _]|[[E _]|[[E _]|[[E _]|[E _]]]]]]]]];
    discriminate E.
Qed.

Lemma tools_constructor : tool_of "constructor" = Some (call_inherited "constructor").
Proof. unfold tool_of, JS.get. rewrite tools_no_constructor. reflexivity. Qed.

Lemma constructor_turn (fuel : nat) (args : option Args) (x : Ag) :
  tool_loop (S fuel) (call_response "constructor" args) x
  = (do response' <- chat_send (FunctionResponse "constructor" TObject);
     tool_loop fuel response') (addMessage (ToolBubble "constructor" args) x).
Proof.
  rewrite (known_tool_goes_on fuel (call_response "constructor" args)
             {| fc_name := "constructor"; fc_args := args |}
             (call_inherited "constructor") x eq_refl tools_constructor).
  destruct x. reflexivity.
Qed.

(** C8: the name "constructor" is not in [tools], and yet [tools[name]]
    finds [Object] for it on the prototype of the table.  The loop takes
    it for a tool: it calls it, shows a tool call (no error), and sends
    its result to the model in one more round trip. *)
Theorem inherited_name_is_called (fuel : nat) (args : option Args) (x : Ag) :
  tools !! "constructor" = None
  /\ exists more,
       sent (fst (tool_loop (S fuel) (call_response "constructor" args) x))
       = sent x ++ FunctionResponse "constructor" TObject :: more
  /\ exists bubbles,
       chatWindow (fst (tool_loop (S fuel) (call_response "constructor" args) x))
       = chatWindow x ++ ToolBubble "constructor" args :: bubbles.
Proof.
  split; [exact tools_no_constructor|].
  rewrite constructor_turn.
  unfold Flow.bind, chat_send.
  destruct (chat_sendMessage _ _) as [h [response'|]].
  - match goal with |- context [tool_loop fuel response' ?y] =>
      destruct (tool_loop_sent fuel response' y) as [more Hmore];
      destruct (tool_loop_window fuel response' y) as [bubbles Hbubbles]
    end.
    exists more. split; [rewrite Hmore; cbn; rewrite <- app_assoc; reflexivity|].
    exists bubbles. rewrite Hbubbles. cbn. rewrite <- app_assoc. reflexivity.
  - exists []. cbn. split; [reflexivity|]. exists []. reflexivity.
Qed.

End Properties.

(* ===================================================================== *)
(** ** Properties of the recording timer *)
(* ===================================================================== *)

Module RecordingFacts.
Import Recording.

Lemma clear_timer_recording (r : Recorder) :
  isVideoRecording (clear_timer r) = isVideoRecording r
  /\ mediaRecorder (clear_timer r) = mediaRecorder r
  /\ recordingSeconds (clear_timer r) = recordingSeconds r.
Proof. unfold clear_timer. destruct (recordingTimerInterval r); repeat split. Qed.

Lemma clear_timer_on (r : Recorder) :
  isVideoRecording (clear_timer r) = isVideoRecording r.
Proof. apply clear_timer_recording. Qed.

Lemma stopRecording_off (r : Recorder) :
  mediaRecorder r <> None -> isVideoRecording (stopRecording r) = false.
Proof.
  intros Hrec. unfold stopRecording.
  destruct (mediaRecorder r) as [recorder|]; [|contradiction].
  rewrite clear_timer_on. reflexivity.
Qed.

Lemma stopRecording_safe (r : Recorder) : safe r -> safe (stopRecording r).
Proof.
  intros Hsafe Hon. unfold stopRecording in *.
  destruct (mediaRecorder r) as [recorder|] eqn:E.
  - rewrite clear_timer_on in Hon. discriminate Hon.
  - apply Hsafe in Hon. exact Hon.
Qed.

Lemma handle_safe (e : Event) (r : Recorder) : safe r -> safe (handle e r).
Proof.
  intros Hsafe. destruct e; cbn [handle].
  - destruct (isVideoRecording r) eqn:Hon; [apply stopRecording_safe; exact Hsafe|].
    intros Hon'. cbn in Hon'. congruence.
  - destruct (pending_starts r); [exact Hsafe|].
    intros _. cbn. split; [discriminate | unfold MAX_RECORDING_DURATION; lia].
  - exact Hsafe.
  - destruct (existsb _ _); [|exact Hsafe].
    unfold timer_callback.
    destruct (MAX_RECORDING_DURATION <=? S (recordingSeconds r))%nat eqn:Hmax.
    + intros Hon. exfalso.
      destruct (isVideoRecording r) eqn:Hwas.
      * rewrite stopRecording_off in Hon; [discriminate|].
        cbn. apply Hsafe. exact Hwas.
      * unfold stopRecording in Hon. cbn [mediaRecorder] in Hon.
        destruct (mediaRecorder r).
        -- rewrite clear_timer_on in Hon. discriminate Hon.
        -- cbn in Hon. congruence.
    + intros Hon. cbn in Hon. cbn. apply Nat.leb_gt in Hmax.
      split; [apply Hsafe; exact Hon | exact Hmax].
  - intros Hon. unfold resetRecordingState in *.
    match type of Hon with isVideoRecording (clear_timer ?r') = _ =>
      destruct (clear_timer_recording r') as (H1 & H2 & H3)
    end.
    rewrite H1 in Hon. rewrite H2, H3. cbn in *. apply Hsafe. exact Hon.
Qed.

Lemma run_safe (events : list Event) :
  forall r, safe r -> safe (run events r).
Proof.
  induction events as [|e events IH]; intros r Hsafe; [exact Hsafe|].
  cbn. apply IH. apply handle_safe. exact Hsafe.
Qed.

Lemma initial_safe : safe initial.
Proof. intros H. discriminate H. Qed.

Lemma tick_times_S (k : nat) (t : positive) (r : Recorder) :
  tick_times (S k) t r = handle (TimerFires t) (tick_times k t r).
Proof. reflexivity. Qed.

(** Before the limit the timer only counts. *)
Lemma ticks_before_limit (r : Recorder) (k : nat) :
  k < MAX_RECORDING_DURATION ->
  recordingSeconds (tick_times k (next_timer r) (startRecording_resume r)) = k
  /\ isVideoRecording (tick_times k (next_timer r) (startRecording_resume r)) = true
  /\ mediaRecorder (tick_times k (next_timer r) (startRecording_resume r))
     = Some (next_recorder r)
  /\ recordingTimerInterval (tick_times k (next_timer r) (startRecording_resume r))
     = Some (next_timer r)
  /\ timers (tick_times k (next_timer r) (startRecording_resume r))
     = timers r ++ [next_timer r]
  /\ stopped (tick_times k (next_timer r) (startRecording_resume r)) = stopped r.
Proof.
  induction k as [|k IH]; intros Hk; [cbn; repeat split|].
  rewrite tick_times_S.
  destruct (IH ltac:(lia)) as (Hs & Hon & Hrec & Hint & Htimers & Hstopped).
  remember (tick_times k (next_timer r) (startRecording_resume r)) as rk eqn:E.
  clear E IH. cbn [handle]. rewrite Htimers.
  rewrite existsb_app. cbn [existsb]. rewrite Pos.eqb_refl, orb_true_r.
  unfold timer_callback. rewrite Hs.
  assert ((MAX_RECORDING_DURATION <=? S k)%nat = false) as Hmax
    by (apply Nat.leb_gt; exact Hk).
  rewrite Hmax. cbn. repeat split; assumption.
Qed.

(** The tick that reaches the limit stops the recording. *)
Lemma tick_reaching_limit (rk : Recorder) (t : positive) (recorder : nat) :
  S (recordingSeconds rk) = MAX_RECORDING_DURATION ->
  mediaRecorder rk = Some recorder ->
  recordingTimerInterval rk = Some t ->
  existsb (Pos.eqb t) (timers rk) = true ->
  recordingSeconds (handle (TimerFires t) rk) = MAX_RECORDING_DURATION
  /\ isVideoRecording (handle (TimerFires t) rk) = false
  /\ recordingTimerInterval (handle (TimerFires t) rk) = None
  /\ ~ In t (timers (handle (TimerFires t) rk))
  /\ stopped (handle (TimerFires t) rk) = stopped rk ++ [recorder].
Proof.
  intros Hs Hrec Hint Hin. cbn [handle]. rewrite Hin.
  unfold timer_callback. rewrite Hs, Nat.leb_refl. cbv iota.
  unfold stopRecording. cbn [mediaRecorder]. rewrite Hrec.
  unfold clear_timer. cbn [recordingTimerInterval]. rewrite Hint. cbn.
  repeat split.
  intros Hin'. apply List.filter_In in Hin' as [_ Hin'].
  rewrite Pos.eqb_refl in Hin'. discriminate Hin'.
Qed.

(** What the timer does for a recording it is left to watch: while a
    recording is on fewer than 30 ticks have been counted, whatever the
    user and the timers do; and from its start on, the timer of a
    recording counts one second for each tick, keeps the recording on for
    the first 29 and at the 30th calls [stopRecording]: the recording is
    off, the recorder is stopped and the interval is cleared. *)
Theorem recording_is_stopped_at_30_ticks :
  (forall events : list Event,
     isVideoRecording (run events initial) = true ->
     recordingSeconds (run events initial) < MAX_RECORDING_DURATION)
  /\ (forall (r : Recorder) (k : nat),
        k <= MAX_RECORDING_DURATION ->
        let t := next_timer r in
        let rk := tick_times k t (startRecording_resume r) in
        recordingSeconds rk = k
        /\ isVideoRecording rk = (k <? MAX_RECORDING_DURATION)%nat
        /\ (k = MAX_RECORDING_DURATION ->
            recordingTimerInterval rk = None
            /\ ~ In t (timers rk)
            /\ stopped rk = stopped r ++ [next_recorder r])).
Proof.
  split.
  - intros events Hon. apply (run_safe events initial initial_safe). exact Hon.
  - intros r k Hk. cbn zeta.
    destruct (Nat.eq_dec k MAX_RECORDING_DURATION) as [->|Hne].
    + assert (29 < MAX_RECORDING_DURATION) as H29 by (unfold MAX_RECORDING_DURATION; lia).
      destruct (ticks_before_limit r 29 H29) as (Hs & Hon & Hrec & Hint & Htimers & Hstopped).
      assert (tick_times MAX_RECORDING_DURATION (next_timer r) (startRecording_resume r)
              = handle (TimerFires (next_timer r))
                  (tick_times 29 (next_timer r) (startRecording_resume r))) as Hstep
        by exact (tick_times_S 29 _ _).
      rewrite Hstep. clear Hstep.
      remember (tick_times 29 (next_timer r) (startRecording_resume r)) as rk eqn:E.
      clear E.
      assert (existsb (Pos.eqb (next_timer r)) (timers rk) = true) as Hin.
      { rewrite Htimers, existsb_app. cbn [existsb].
        rewrite Pos.eqb_refl. apply orb_true_r. }
      assert (S (recordingSeconds rk) = MAX_RECORDING_DURATION) as Hs'
        by (rewrite Hs; reflexivity).
      destruct (tick_reaching_limit rk (next_timer r) (next_recorder r) Hs' Hrec Hint Hin)
        as (H1 & H2 & H3 & H4 & H5).
      rewrite H1, H2, H3, H5, Hstopped. repeat split. exact H4.
    + assert (k < MAX_RECORDING_DURATION) as Hlt by lia.
      destruct (ticks_before_limit r k Hlt) as (Hs & Hon & _).
      rewrite Hs, Hon. split; [reflexivity|]. split.
      * symmetry. apply Nat.ltb_lt. exact Hlt.
      * intros E. contradiction.
Qed.

End RecordingFacts.

(* ===================================================================== *)
(** ** The rest of the page: strings, recorder, player, library, agent *)
(* ===================================================================== *)

(** *** Decimal digits *)

Lemma string_app_cons (c : ascii) (s t : string) :
  String c s +:+ t = String c (s +:+ t).
Proof. reflexivity. Qed.

Lemma string_app_length (s t : string) :
  String.length (s +:+ t) = (String.length s + String.length t)%nat.
Proof.
  induction s as [|c s IH]; [reflexivity|].
  rewrite string_app_cons. cbn. now rewrite IH.
Qed.

Lemma string_app_assoc (s t u : string) : (s +:+ t) +:+ u = s +:+ (t +:+ u).
Proof.
  induction s as [|c s IH]; [reflexivity|].
  rewrite !string_app_cons. now rewrite IH.
Qed.

(** Two texts cut at the same length are equal piece by piece. *)
Lemma string_app_inj (s1 s2 t1 t2 : string) :
  String.length s1 = String.length s2 ->
  s1 +:+ t1 = s2 +:+ t2 -> s1 = s2 /\ t1 = t2.
Proof.
  revert s2. induction s1 as [|c s1 IH]; intros [|c2 s2] Hlen;
    try discriminate Hlen; [auto|].
  rewrite !string_app_cons. intros [= -> Heq].
  injection Hlen as Hlen. destruct (IH s2 Hlen Heq) as [-> ->]. auto.
Qed.

Lemma pretty_go_app (x : N) :
  forall s, pretty_N_go x s = pretty_N_go x EmptyString +:+ s.
Proof.
  induction (N.lt_wf_0 x) as [x _ IH]; intros s.
  destruct (decide (0 < x)%N) as [Hpos|Hz].
  - assert (x `div` 10 < x)%N as Hlt by (apply N.div_lt; lia).
    rewrite (pretty_N_go_step x s), (pretty_N_go_step x EmptyString) by exact Hpos.
    rewrite (IH _ Hlt (String _ s)), (IH _ Hlt (String _ EmptyString)).
    rewrite string_app_assoc. reflexivity.
  - replace x with 0%N by lia. reflexivity.
Qed.

(** The digits of a positive number start with a digit that is not [0]. *)
Lemma pretty_go_head (x : N) :
  forall s, (0 < x)%N ->
    exists c rest, pretty_N_go x s = String c rest /\ c <> "0"%char.
Proof.
  induction (N.lt_wf_0 x) as [x _ IH]; intros s Hpos.
  rewrite (pretty_N_go_step x s) by exact Hpos.
  destruct (decide (0 < x `div` 10)%N) as [Hd|Hd].
  - apply IH; [apply N.div_lt; lia | exact Hd].
  - assert (x `div` 10 = 0)%N as Hz
      by (destruct (x `div` 10)%N; [reflexivity | exfalso; apply Hd; lia]).
    assert (x < 10)%N as Hx by (apply N.div_small_iff; [lia | exact Hz]).
    rewrite Hz, N.mod_small by exact Hx. rewrite pretty_N_go_0.
    eexists _, _. split; [reflexivity|].
    assert (x = 1 \/ x = 2 \/ x = 3 \/ x = 4 \/ x = 5 \/ x = 6
            \/ x = 7 \/ x = 8 \/ x = 9)%N as Hc by lia.
    destruct Hc as [->|[->|[->|[->|[->|[->|[->|[->| ->]]]]]]]]; discriminate.
Qed.

(** A number from 10 on has two digits or more. *)
Lemma pretty_go_two (x : N) :
  (10 <= x)%N -> exists c1 c2 rest, pretty_N_go x EmptyString = String c1 (String c2 rest).
Proof.
  intros Hx. rewrite pretty_N_go_step by lia.
  rewrite pretty_go_app.
  destruct (pretty_go_head (x `div` 10)%N EmptyString) as (c & rest & -> & _).
  { apply N.div_str_pos. lia. }
  destruct rest as [|c2 rest]; cbn; eauto.
Qed.

Lemma pretty_nat_small (n : nat) :
  n < 10 -> pretty n = String (pretty_N_char (N.of_nat n)) EmptyString.
Proof.
  intros Hn. unfold pretty, pretty_nat, pretty, pretty_N.
  destruct (decide (N.of_nat n = 0%N)) as [E|E].
  - rewrite E. reflexivity.
  - rewrite pretty_N_go_step by lia.
    rewrite N.div_small, N.mod_small by lia. reflexivity.
Qed.

Lemma pretty_nat_large (n : nat) :
  10 <= n ->
  exists c1 c2 rest, pretty n = String c1 (String c2 rest) /\ c1 <> "0"%char.
Proof.
  intros Hn. unfold pretty, pretty_nat, pretty, pretty_N.
  destruct (decide (N.of_nat n = 0%N)) as [E|E]; [lia|].
  destruct (pretty_go_two (N.of_nat n) ltac:(lia)) as (c1 & c2 & rest & Heq).
  destruct (pretty_go_head (N.of_nat n) EmptyString ltac:(lia)) as (c & rest' & Heq' & Hc).
  rewrite Heq in Heq'. injection Heq' as <- _.
  eauto 6.
Qed.

(** [String(n).padStart(2, '0')]: a leading [0] below ten. *)
Lemma pad2_small (n : nat) :
  n < 10 ->
  JSString.padStart 2 "0" (JSString.of_nat n)
  = String "0" (String (pretty_N_char (N.of_nat n)) EmptyString).
Proof. intros Hn. unfold JSString.of_nat. rewrite (pretty_nat_small n Hn). reflexivity. Qed.

Lemma pad2_large (n : nat) :
  10 <= n -> JSString.padStart 2 "0" (JSString.of_nat n) = pretty n.
Proof.
  intros Hn. unfold JSString.of_nat.
  destruct (pretty_nat_large n Hn) as (c1 & c2 & rest & -> & _). reflexivity.
Qed.

Lemma pad2_inj (a b : nat) :
  JSString.padStart 2 "0" (JSString.of_nat a)
  = JSString.padStart 2 "0" (JSString.of_nat b) -> a = b.
Proof.
  destruct (le_lt_dec 10 a) as [Ha|Ha], (le_lt_dec 10 b) as [Hb|Hb].
  - rewrite !pad2_large by assumption. apply (inj pretty).
  - rewrite pad2_large, pad2_small by assumption.
    destruct (pretty_nat_large a Ha) as (c1 & c2 & rest & -> & Hc).
    intros [= -> _]. contradiction.
  - rewrite pad2_small, pad2_large by assumption.
    destruct (pretty_nat_large b Hb) as (c1 & c2 & rest & -> & Hc).
    intros [= <- _]. contradiction.
  - rewrite !pad2_small by assumption. intros [= Hc].
    apply pretty_N_char_inj in Hc; lia.
Qed.

(** Below a hundred there are exactly two characters. *)
Lemma pad2_length (n : nat) :
  n < 100 -> String.length (JSString.padStart 2 "0" (JSString.of_nat n)) = 2.
Proof.
  intros Hn. destruct (le_lt_dec 10 n) as [H10|H10].
  - rewrite pad2_large by assumption.
    unfold pretty, pretty_nat, pretty, pretty_N.
    destruct (decide (N.of_nat n = 0%N)) as [E|E]; [lia|].
    rewrite pretty_N_go_step by lia.
    rewrite pretty_N_go_step by (apply N.div_str_pos; lia).
    rewrite (N.div_small (N.of_nat n `div` 10) 10).
    + reflexivity.
    + apply N.Div0.div_lt_upper_bound. lia.
  - rewrite pad2_small by assumption. reflexivity.
Qed.

Lemma formatTime_inj (a b : nat) : formatTime a = formatTime b -> a = b.
Proof.
  unfold formatTime. cbn zeta. intros Heq.
  set (ma := JSString.padStart 2 "0" (JSString.of_nat (a / 60))) in *.
  set (mb := JSString.padStart 2 "0" (JSString.of_nat (b / 60))) in *.
  set (sa := JSString.padStart 2 "0" (JSString.of_nat (a mod 60))) in *.
  set (sb := JSString.padStart 2 "0" (JSString.of_nat (b mod 60))) in *.
  assert (String.length sa = 2) as Hsa
    by (apply pad2_length; pose proof (Nat.mod_upper_bound a 60); lia).
  assert (String.length sb = 2) as Hsb
    by (apply pad2_length; pose proof (Nat.mod_upper_bound b 60); lia).
  assert (String.length ma = String.length mb) as Hlen.
  { apply (f_equal String.length) in Heq.
    rewrite !string_app_length in Heq. cbn in Heq. lia. }
  destruct (string_app_inj _ _ _ _ Hlen Heq) as [Hm Hs].
  injection Hs as Hs.
  apply pad2_inj in Hm. apply pad2_inj in Hs.
  rewrite (Nat.div_mod_eq a 60), (Nat.div_mod_eq b 60). lia.
Qed.

(** X1: two different numbers of seconds never show the same text, however
    long the time (from a hundred minutes on the minutes take three digits
    or more). *)
Theorem formatTime_tells_times_apart (a b : nat) :
  a <> b -> formatTime a <> formatTime b.
Proof. intros Hab Heq. apply Hab, formatTime_inj, Heq. Qed.

Lemma pretty_char_digit (n : nat) :
  n < 10 -> pretty_N_char (N.of_nat n) = digit n.
Proof.
  intros Hn.
  do 10 (destruct n as [|n]; [reflexivity|]). lia.
Qed.

(** [String(n).padStart(2, '0')] below a hundred: the tens, the units. *)
Lemma pad2_digits (n : nat) :
  n < 100 ->
  JSString.padStart 2 "0" (JSString.of_nat n)
  = String (digit (n / 10)) (String (digit (n mod 10)) EmptyString).
Proof.
  intros Hn. destruct (le_lt_dec 10 n) as [H10|H10].
  - rewrite pad2_large by assumption.
    unfold pretty, pretty_nat, pretty, pretty_N.
    destruct (decide (N.of_nat n = 0%N)) as [E|E]; [lia|].
    rewrite pretty_N_go_step by lia.
    rewrite pretty_N_go_step by (apply N.div_str_pos; lia).
    rewrite (N.div_small (N.of_nat n `div` 10) 10)
      by (apply N.Div0.div_lt_upper_bound; lia).
    rewrite pretty_N_go_0.
    rewrite (N.mod_small (N.of_nat n `div` 10) 10)
      by (apply N.Div0.div_lt_upper_bound; lia).
    change 10%N with (N.of_nat 10).
    rewrite <- Nat2N.inj_div, <- Nat2N.inj_mod.
    rewrite !pretty_char_digit; [reflexivity | |].
    + apply Nat.mod_upper_bound. lia.
    + apply Nat.Div0.div_lt_upper_bound. lia.
  - rewrite pad2_small by assumption.
    rewrite Nat.div_small, Nat.mod_small by lia.
    rewrite pretty_char_digit by assumption. reflexivity.
Qed.

(** X2: below a hundred minutes the text is [MM:SS]: five characters, the
    two digits of the minutes, a colon, the two digits of the seconds. *)
Theorem formatTime_below_100_minutes (seconds : nat) :
  seconds < 100 * 60 ->
  formatTime seconds
  = String (digit (seconds / 60 / 10)) (String (digit ((seconds / 60) mod 10))
      (String ":"
        (String (digit ((seconds mod 60) / 10))
          (String (digit ((seconds mod 60) mod 10)) EmptyString)))).
Proof.
  intros Hs. unfold formatTime. cbn zeta.
  rewrite (pad2_digits (seconds / 60))
    by (apply Nat.Div0.div_lt_upper_bound; lia).
  rewrite (pad2_digits (seconds mod 60))
    by (pose proof (Nat.mod_upper_bound seconds 60); lia).
  reflexivity.
Qed.

Module RecordingDisplay.
Import Recording.

(** X3: while a recording is on, the timer reads [00:SS] with [SS] below
    30, whatever has happened to the recorder before. *)
Theorem timer_text_while_recording (events : list Event) :
  let r := run events initial in
  isVideoRecording r = true ->
  recordingSeconds r < MAX_RECORDING_DURATION
  /\ recordingTimer r
     = String "0" (String "0" (String ":"
         (String (digit (recordingSeconds r / 10))
            (String (digit (recordingSeconds r mod 10)) EmptyString)))).
Proof.
  cbn zeta. intros Hon.
  destruct (RecordingFacts.run_safe events initial RecordingFacts.initial_safe Hon)
    as [_ Hlt].
  split; [exact Hlt|].
  unfold recordingTimer, formatTime, MAX_RECORDING_DURATION in *. cbn zeta.
  rewrite (Nat.div_small (recordingSeconds _) 60),
    (Nat.mod_small (recordingSeconds _) 60) by lia.
  rewrite (pad2_digits 0), (pad2_digits (recordingSeconds _)) by lia.
  reflexivity.
Qed.

End RecordingDisplay.

Module RecordingUpload.
Import Recording.

Lemma tick_of_cleared_timer (r : Recorder) (t : positive) :
  existsb (Pos.eqb t) (timers r) = false -> handle (TimerFires t) r = r.
Proof. intros H. cbn. now rewrite H. Qed.

(** C10, where the code departs from it: the user starts a recording and,
    twelve seconds into it, chooses a file.  [resetRecordingState] clears
    the interval and leaves the recorder running, so however many ticks
    any timer is given afterwards, the recording is on, the count stays
    at twelve and [stop] is never called: the recording outlives the 30
    seconds. *)
Theorem upload_lets_recording_outlive_limit (ticks : list positive) :
  let r := run (RefLibrary.twelve_seconds_in
                  ++ UploadChange :: map TimerFires ticks) initial in
  isVideoRecording r = true
  /\ mediaRecorder r = Some 0
  /\ stopped r = []
  /\ recordingSeconds r = 12
  /\ recordingTimerInterval r = None.
Proof.
  cbn zeta. unfold run. rewrite fold_left_app. cbn [fold_left].
  set (r1 := handle UploadChange
               (fold_left (fun r e => handle e r) RefLibrary.twelve_seconds_in initial)).
  assert (timers r1 = []) as Htimers by reflexivity.
  assert (fold_left (fun r e => handle e r) (map TimerFires ticks) r1 = r1) as ->.
  { induction ticks as [|t ticks IH]; [reflexivity|].
    cbn [map fold_left]. rewrite tick_of_cleared_timer; [exact IH|].
    now rewrite Htimers. }
  repeat split.
Qed.

(** X4: a file chosen while a recording is on cancels the timer of the
    recording and leaves the recording on: the recorder is not stopped,
    and when that timer was the only one set, no tick stops it later. *)
Theorem upload_cancels_timer_not_recording (r : Recorder) (t : positive) :
  isVideoRecording r = true ->
  recordingTimerInterval r = Some t ->
  (forall t', In t' (timers r) -> t' = t) ->
  let r' := handle UploadChange r in
  isVideoRecording r' = true
  /\ recordingTimerInterval r' = None
  /\ stopped r' = stopped r
  /\ forall ticks : list positive, run (map TimerFires ticks) r' = r'.
Proof.
  intros Hon Ht Honly. cbn zeta. cbn [handle].
  unfold resetRecordingState, clear_timer. cbn. rewrite Ht. cbn.
  split; [exact Hon|]. split; [reflexivity|]. split; [reflexivity|].
  assert (List.filter (fun t' => negb (Pos.eqb t' t)) (timers r) = []) as Hnone.
  { induction (timers r) as [|t0 l IH]; [reflexivity|].
    cbn. rewrite (Honly t0 (or_introl eq_refl)), Pos.eqb_refl. cbn.
    apply IH. intros t' Hin. apply Honly. now right. }
  rewrite Hnone.
  intros ticks. induction ticks as [|t1 ticks IH]; [reflexivity|].
  cbn [map run fold_left]. cbn [handle timers existsb]. exact IH.
Qed.

Lemma stopRecording_stopped (r : Recorder) (n : nat) :
  In n (stopped (stopRecording r)) -> In n (stopped r) \/ mediaRecorder r = Some n.
Proof.
  unfold stopRecording. destruct (mediaRecorder r) as [m|]; [|auto].
  unfold clear_timer. cbn. destruct (recordingTimerInterval r); cbn;
    intros Hin; apply in_app_or in Hin as [Hin|[<-|[]]]; auto.
Qed.

Lemma stopRecording_recorder (r : Recorder) :
  mediaRecorder (stopRecording r) = mediaRecorder r
  /\ next_recorder (stopRecording r) = next_recorder r.
Proof.
  unfold stopRecording. destruct (mediaRecorder r) as [m|] eqn:Hm;
    [|split; [exact Hm | reflexivity]].
  unfold clear_timer. cbn. destruct (recordingTimerInterval r); cbn;
    (split; [symmetry; exact Hm || reflexivity | reflexivity]).
Qed.

Lemma stopRecording_left_behind (n : nat) (r : Recorder) :
  left_behind n r -> left_behind n (stopRecording r).
Proof.
  intros (Hcur & Hold & Hnot).
  destruct (stopRecording_recorder r) as [Hm Hn]. unfold left_behind.
  rewrite Hm, Hn. repeat split; try assumption.
  intros Hin. apply stopRecording_stopped in Hin as [Hin|Hin]; auto.
Qed.

Lemma handle_left_behind (n : nat) (e : Event) (r : Recorder) :
  left_behind n r -> left_behind n (handle e r).
Proof.
  intros Hleft. pose proof Hleft as (Hcur & Hold & Hnot). destruct e; cbn [handle].
  - destruct (isVideoRecording r); [now apply stopRecording_left_behind|].
    repeat split; assumption.
  - destruct (pending_starts r); [repeat split; assumption|].
    unfold startRecording_resume, left_behind. cbn. repeat split; try assumption; try lia.
    intros [= Heq]. lia.
  - repeat split; assumption.
  - destruct (existsb _ _); [|repeat split; assumption].
    unfold timer_callback. cbn zeta.
    destruct (MAX_RECORDING_DURATION <=? S (recordingSeconds r))%nat;
      [apply stopRecording_left_behind|]; repeat split; assumption.
  - unfold resetRecordingState, clear_timer. cbn.
    destruct (recordingTimerInterval r); repeat split; assumption.
Qed.

Lemma stopRecording_recorders_made (r : Recorder) :
  recorders_made r -> recorders_made (stopRecording r).
Proof.
  intros [Hs Hm]. destruct (stopRecording_recorder r) as [Hc Hn].
  unfold recorders_made. rewrite Hc, Hn. split; [|exact Hm].
  intros n Hin. apply stopRecording_stopped in Hin as [Hin|Hin]; auto.
Qed.

Lemma handle_recorders_made (e : Event) (r : Recorder) :
  recorders_made r -> recorders_made (handle e r).
Proof.
  intros Hr. pose proof Hr as [Hs Hm]. destruct e; cbn [handle].
  - destruct (isVideoRecording r); [now apply stopRecording_recorders_made|].
    split; assumption.
  - destruct (pending_starts r); [split; assumption|].
    unfold startRecording_resume, recorders_made. cbn. split.
    + intros k Hin. specialize (Hs k Hin). lia.
    + intros m [= <-]. lia.
  - split; assumption.
  - destruct (existsb _ _); [|split; assumption].
    unfold timer_callback. cbn zeta.
    destruct (MAX_RECORDING_DURATION <=? S (recordingSeconds r))%nat;
      [apply stopRecording_recorders_made|]; split; assumption.
  - unfold resetRecordingState, clear_timer. cbn.
    destruct (recordingTimerInterval r); split; assumption.
Qed.

Lemma run_recorders_made (events : list Event) :
  forall r, recorders_made r -> recorders_made (run events r).
Proof.
  induction events as [|e rest IH]; intros r Hr; [exact Hr|].
  cbn [run fold_left]. apply IH, handle_recorders_made, Hr.
Qed.

Lemma run_left_behind (n : nat) (events : list Event) :
  forall r, left_behind n r -> left_behind n (run events r).
Proof.
  induction events as [|e rest IH]; intros r Hr; [exact Hr|].
  cbn [run fold_left]. apply IH, handle_left_behind, Hr.
Qed.

(** X5: a second start leaves the first recorder running for good.  When
    the record button was clicked twice before the camera answered and the
    camera then answers both, each answer starts a recorder; the program
    keeps the second one only, and whatever happens later the first one is
    never stopped. *)
Theorem second_start_leaves_first_recorder_running (before after : list Event) :
  let r := run before initial in
  2 <= pending_starts r ->
  let r2 := run [GetUserMediaResolves; GetUserMediaResolves] r in
  mediaRecorder r2 = Some (S (next_recorder r))
  /\ ~ In (next_recorder r) (stopped (run after r2)).
Proof.
  cbn zeta. intros Hpending.
  assert (recorders_made (run before initial)) as [Hs _].
  { apply run_recorders_made. split; cbn; [tauto | discriminate]. }
  set (r := run before initial) in *. clearbody r.
  assert (run [GetUserMediaResolves; GetUserMediaResolves] r
          = startRecording_resume (startRecording_resume r)) as ->.
  { cbn. destruct (pending_starts r) as [|[|p]] eqn:Hp; try lia. cbn. rewrite Hp.
    reflexivity. }
  split; [reflexivity|].
  apply (run_left_behind (next_recorder r) after).
  unfold left_behind. cbn. split; [intros [= Heq]; lia|]. split; [lia|].
  intros Hin. specialize (Hs _ Hin). lia.
Qed.

End RecordingUpload.

(** *** The download name *)

Local Abbreviation chars := list_ascii_of_string.

Lemma name_char_in_class (c : ascii) :
  JSString.in_class c = true -> Ascii.is_space c = false -> name_char c = true.
Proof.
  unfold JSString.in_class, name_char. intros H Hs. rewrite Hs, orb_false_r in H.
  exact H.
Qed.

Lemma name_char_no_space (c : ascii) : name_char c = true -> Ascii.is_space c = false.
Proof.
  unfold name_char, JSString.is_lower, JSString.is_digit. intros H.
  destruct (Ascii.is_space c) eqn:Hs; [|reflexivity].
  destruct c as [[] [] [] [] [] [] [] []]; try discriminate Hs; discriminate H.
Qed.

Lemma name_char_no_upper (c : ascii) : name_char c = true -> JSString.is_upper c = false.
Proof.
  unfold name_char, JSString.is_lower, JSString.is_digit, JSString.is_upper. intros H.
  destruct c as [[] [] [] [] [] [] [] []]; try reflexivity; discriminate H.
Qed.

Lemma name_char_class (c : ascii) : name_char c = true -> JSString.in_class c = true.
Proof.
  unfold name_char, JSString.in_class. intros H.
  destruct (JSString.is_lower c), (JSString.is_digit c), (Ascii.is_space c);
    cbn in *; auto.
Qed.

Lemma remove_outside_class_chars (s : string) :
  forallb JSString.in_class (chars (JSString.remove_outside_class s)) = true.
Proof.
  induction s as [|c s IH]; [reflexivity|].
  cbn. destruct (JSString.in_class c) eqn:Hc; [cbn; now rewrite Hc | exact IH].
Qed.

Lemma dash_runs_chars (s : string) :
  forall in_run,
    forallb JSString.in_class (chars s) = true ->
    safe_name (JSString.dash_runs in_run s) = true.
Proof.
  unfold safe_name.
  induction s as [|c s IH]; intros in_run Hs; [reflexivity|].
  cbn in Hs. apply andb_true_iff in Hs as [Hc Hs].
  cbn. destruct (Ascii.is_space c) eqn:Hsp.
  - destruct in_run; [exact (IH true Hs)|].
    cbn. exact (IH true Hs).
  - cbn. rewrite (name_char_in_class c Hc Hsp). exact (IH false Hs).
Qed.

Lemma safePrompt_safe (p : string) : safe_name (safePrompt p) = true.
Proof. apply dash_runs_chars, remove_outside_class_chars. Qed.

Lemma slice_to_safe (n : nat) :
  forall s, safe_name s = true -> safe_name (JSString.slice_to n s) = true.
Proof.
  unfold safe_name.
  induction n as [|n IH]; intros [|c s] Hs; try reflexivity.
  cbn in *. apply andb_true_iff in Hs as [Hc Hs]. rewrite Hc. cbn. auto.
Qed.

Lemma slice_to_length (n : nat) :
  forall s, String.length (JSString.slice_to n s) <= n.
Proof.
  induction n as [|n IH]; intros [|c s]; cbn; try lia.
  specialize (IH s). lia.
Qed.

Lemma slice_to_all (n : nat) :
  forall s, String.length s <= n -> JSString.slice_to n s = s.
Proof.
  induction n as [|n IH]; intros [|c s] Hlen; cbn in *; try reflexivity; try lia.
  rewrite IH by lia. reflexivity.
Qed.

Lemma download_filename_safe (p : string) :
  safe_name (download_filename p) = true
  /\ 1 <= String.length (download_filename p) <= 50.
Proof.
  unfold download_filename. cbn zeta.
  pose proof (slice_to_safe 50 _ (safePrompt_safe p)) as Hsafe.
  pose proof (slice_to_length 50 (safePrompt p)) as Hlen.
  destruct (JSString.slice_to 50 (safePrompt p)) as [|c s]; cbn [JS.truthy_string].
  - split; [reflexivity | cbn; lia].
  - split; [exact Hsafe | cbn in *; lia].
Qed.

Section PlayerFacts.

Context {Blob FS : Type}.
Context `{Eng : !MediaEngine Blob FS} `{Br : !Browser Blob}.

Local Abbreviation St := (@State Blob FS).

(** X6: whatever the text of the prompt, a click on the download button
    with a video in the player offers the source of the player under the
    name [<stem>.mp4], where the stem has between 1 and 50 characters, each
    a lowercase letter, a digit or a hyphen. *)
Theorem download_name_is_safe (currentSrc : Src) (st : St) (p : string) :
  src_truthy currentSrc = true ->
  prompt (config st) = VString p ->
  JSString.ascii_text p = true ->
  exists stem,
    downloadButton_onclick currentSrc st
    = Flow.Value {| href := video_src (video st); download := stem +:+ ".mp4" |}
    /\ safe_name stem = true
    /\ 1 <= String.length stem <= 50.
Proof.
  intros Hsrc Hp _. unfold downloadButton_onclick. rewrite Hsrc, Hp. cbn [negb].
  exists (download_filename p).
  destruct (download_filename_safe p) as [Hs Hl]. auto.
Qed.

End PlayerFacts.

(** *** Names that are safe already *)

Lemma string_app_nil (s : string) : s +:+ EmptyString = s.
Proof. induction s as [|c s IH]; [reflexivity|]. rewrite string_app_cons. now rewrite IH. Qed.

Lemma rev_app_rev_app (s : string) :
  forall t u, String.rev_app (String.rev_app s t) u = String.rev_app t (s +:+ u).
Proof.
  induction s as [|c s IH]; intros t u; [reflexivity|].
  cbn [String.rev_app]. rewrite IH. cbn [String.rev_app]. reflexivity.
Qed.

Lemma rev_rev (s : string) : String.rev (String.rev s) = s.
Proof. unfold String.rev. rewrite rev_app_rev_app. cbn. apply string_app_nil. Qed.

Lemma rev_app_chars (P : ascii -> bool) (s : string) :
  forall t, forallb P (chars s) = true -> forallb P (chars t) = true ->
    forallb P (chars (String.rev_app s t)) = true.
Proof.
  induction s as [|c s IH]; intros t Hs Ht; [exact Ht|].
  cbn in Hs. apply andb_true_iff in Hs as [Hc Hs].
  cbn [String.rev_app]. apply IH; [exact Hs|]. cbn. now rewrite Hc.
Qed.

Lemma trim_left_no_space (s : string) :
  forallb (fun c => negb (Ascii.is_space c)) (chars s) = true -> trim_left s = s.
Proof.
  destruct s as [|c s]; [reflexivity|]. cbn. intros H.
  apply andb_true_iff in H as [Hc _]. apply negb_true_iff in Hc. now rewrite Hc.
Qed.

Lemma safe_no_space (s : string) :
  safe_name s = true -> forallb (fun c => negb (Ascii.is_space c)) (chars s) = true.
Proof.
  unfold safe_name. induction (chars s) as [|c l IH]; [reflexivity|].
  cbn. intros H. apply andb_true_iff in H as [Hc Hl].
  rewrite (name_char_no_space c Hc). cbn. auto.
Qed.

Lemma trim_safe (s : string) : safe_name s = true -> trim s = s.
Proof.
  intros Hs. apply safe_no_space in Hs. unfold trim.
  rewrite (trim_left_no_space s Hs).
  rewrite trim_left_no_space; [apply rev_rev|].
  unfold String.rev. apply rev_app_chars; [exact Hs | reflexivity].
Qed.

Lemma toLowerCase_safe (s : string) : safe_name s = true -> JSString.toLowerCase s = s.
Proof.
  unfold safe_name. induction s as [|c s IH]; [reflexivity|].
  cbn. intros H. apply andb_true_iff in H as [Hc Hs].
  unfold JSString.toLowerCase_char. rewrite (name_char_no_upper c Hc), IH by exact Hs.
  reflexivity.
Qed.

Lemma remove_outside_class_safe (s : string) :
  safe_name s = true -> JSString.remove_outside_class s = s.
Proof.
  unfold safe_name. induction s as [|c s IH]; [reflexivity|].
  cbn. intros H. apply andb_true_iff in H as [Hc Hs].
  rewrite (name_char_class c Hc), IH by exact Hs. reflexivity.
Qed.

Lemma dash_runs_safe (s : string) :
  safe_name s = true -> JSString.dash_runs false s = s.
Proof.
  unfold safe_name. induction s as [|c s IH]; [reflexivity|].
  cbn. intros H. apply andb_true_iff in H as [Hc Hs].
  rewrite (name_char_no_space c Hc), IH by exact Hs. reflexivity.
Qed.

Lemma safePrompt_fixes_safe (s : string) : safe_name s = true -> safePrompt s = s.
Proof.
  intros Hs. unfold safePrompt.
  rewrite (trim_safe s Hs), (toLowerCase_safe s Hs), (remove_outside_class_safe s Hs).
  apply dash_runs_safe, Hs.
Qed.

(** X7: a prompt that is a safe name already (lowercase letters, digits
    and hyphens, between 1 and 50 of them) is the name of the file, letter
    for letter. *)
Theorem safe_prompt_is_kept (p : string) :
  safe_name p = true -> 1 <= String.length p <= 50 ->
  safePrompt p = p /\ download_filename p = p.
Proof.
  intros Hs Hlen. split; [exact (safePrompt_fixes_safe p Hs)|].
  unfold download_filename. cbn zeta.
  rewrite (safePrompt_fixes_safe p Hs), slice_to_all by lia.
  destruct p; [cbn in Hlen; lia | reflexivity].
Qed.

(** *** Blocks that keep a property of the state *)

Section Keeps.

Context {S : Type} (P : S -> Prop).

Lemma keeps_ret {A} (a : A) : keeps P (Flow.ret a).
Proof. intros s H. exact H. Qed.

Lemma keeps_raise {A} (e : Flow.error) : keeps P (@Flow.raise S A e).
Proof. intros s H. exact H. Qed.

Lemma keeps_return {A} : keeps P (@Flow.return_ S A).
Proof. intros s H. exact H. Qed.

Lemma keeps_gets {A} (f : S -> A) : keeps P (Flow.gets f).
Proof. intros s H. exact H. Qed.

Lemma keeps_modify (f : S -> S) : (forall s, P s -> P (f s)) -> keeps P (Flow.modify f).
Proof. intros Hf s H. apply Hf, H. Qed.

Lemma keeps_bind {A B} (m : Flow.M S A) (k : A -> Flow.M S B) :
  keeps P m -> (forall a, keeps P (k a)) -> keeps P (Flow.bind m k).
Proof.
  intros Hm Hk s H. unfold Flow.bind.
  specialize (Hm s H). destruct (m s) as [s' [a|e|]]; cbn in *; auto.
  apply Hk, Hm.
Qed.

Lemma keeps_try_catch_finally (body : Flow.M S unit) (handler cleanup : S -> S) :
  keeps P body -> (forall s, P s -> P (handler s)) -> (forall s, P s -> P (cleanup s)) ->
  forall s, P s -> P (Flow.try_catch_finally body handler cleanup s).
Proof.
  intros Hb Hh Hc s H. unfold Flow.try_catch_finally.
  specialize (Hb s H). destruct (body s) as [s' [a|e|]]; cbn in *; auto.
Qed.

Lemma keeps_try_catch_finally_async (body : Flow.M S (awaited unit))
    (handler cleanup : S -> S) :
  keeps P body -> (forall s, P s -> P (handler s)) -> (forall s, P s -> P (cleanup s)) ->
  forall s, P s -> P (fst (try_catch_finally_async body handler cleanup s)).
Proof.
  intros Hb Hh Hc s H. unfold try_catch_finally_async.
  specialize (Hb s H). destruct (body s) as [s' [[a|]|e|]]; cbn in *; auto.
Qed.

Lemma try_catch_finally_post (Q : S -> Prop) (body : Flow.M S unit)
    (handler cleanup : S -> S) :
  keeps P body -> (forall s, P s -> P (handler s)) -> (forall s, P s -> Q (cleanup s)) ->
  forall s, P s -> Q (Flow.try_catch_finally body handler cleanup s).
Proof.
  intros Hb Hh Hc s H. unfold Flow.try_catch_finally.
  specialize (Hb s H). destruct (body s) as [s' [a|e|]]; cbn in *; auto.
Qed.

End Keeps.

Section Invariant.

Context {Blob FS : Type}.
Context `{Eng : !MediaEngine Blob FS} `{Br : !Browser Blob}.

Local Abbreviation St := (@State Blob FS).

Lemma consistent_steady (st : St) : consistent st -> steady st.
Proof. intros [H1 _ H3 H4]. repeat split; assumption. Qed.

Lemma steady_consistent (st : St) :
  steady st ->
  applyTrimButton_disabled (editor st) = false ->
  cancelTrimButton_disabled (editor st) = false ->
  applyEffectButton_disabled (editor st) = false ->
  consistent st.
Proof. intros (H1 & H3 & H4) Ha Hb Hc. split; auto. Qed.

(** A step that leaves alone what [steady] reads. *)
Lemma steady_frame (st st' : St) :
  timeupdate_listener (video st') = timeupdate_listener (video st) ->
  video_src (video st') = video_src (video st) ->
  isEditorOpen (editor st') = isEditorOpen (editor st) ->
  urls st' = urls st ->
  prompt (config st') = prompt (config st) ->
  steady st -> steady st'.
Proof.
  intros Hl Hs Ho Hu Hp (H1 & H3 & H4). unfold steady, held_url in *.
  rewrite Hl, Hs, Ho, Hu, Hp. auto.
Qed.

Lemma consistent_frame (st st' : St) :
  timeupdate_listener (video st') = timeupdate_listener (video st) ->
  video_src (video st') = video_src (video st) ->
  isEditorOpen (editor st') = isEditorOpen (editor st) ->
  applyTrimButton_disabled (editor st') = applyTrimButton_disabled (editor st) ->
  cancelTrimButton_disabled (editor st') = cancelTrimButton_disabled (editor st) ->
  applyEffectButton_disabled (editor st') = applyEffectButton_disabled (editor st) ->
  urls st' = urls st ->
  prompt (config st') = prompt (config st) ->
  consistent st -> consistent st'.
Proof.
  intros Hl Hs Ho Ha Hb Hc Hu Hp [H1 (H2a & H2b & H2c) H3 H4].
  split; unfold held_url in *; rewrite ?Hl, ?Hs, ?Ho, ?Ha, ?Hb, ?Hc, ?Hu, ?Hp; auto.
Qed.

Ltac frame := 
  first [ eapply steady_frame; [| | | | |eassumption]; reflexivity
        | eapply consistent_frame; [| | | | | | | |eassumption]; reflexivity ].

(** **** The engine and the object URLs *)

Lemma fetchFile_state (u : Src) (st : St) : fst (fetchFile u st) = st.
Proof. unfold fetchFile. destruct (resource u st); reflexivity. Qed.

Lemma keeps_fetchFile (P : St -> Prop) (u : Src) : keeps P (fetchFile u).
Proof. intros st H. now rewrite fetchFile_state. Qed.

Lemma keeps_writeFile_steady (name : JS.text) (data : FileData Blob) :
  keeps steady (ffmpeg_writeFile name data).
Proof.
  intros st H. unfold ffmpeg_writeFile.
  destruct (ffmpeg st) as [fs|]; [|exact H].
  destruct (ff_writeFile name data fs) as [fs' ok]. cbn. frame.
Qed.

Lemma keeps_exec_steady (command : list JS.text) : keeps steady (ffmpeg_exec command).
Proof.
  intros st H. unfold ffmpeg_exec.
  destruct (ffmpeg st) as [fs|]; [|exact H].
  destruct (ff_exec command fs) as [fs' ok]. cbn. frame.
Qed.

Lemma keeps_readFile_steady (name : JS.text) : keeps steady (ffmpeg_readFile name).
Proof.
  intros st H. unfold ffmpeg_readFile.
  destruct (ffmpeg st) as [fs|]; [|exact H].
  destruct (ff_readFile name fs); cbn; frame.
Qed.

Lemma keeps_writeFile (name : JS.text) (data : FileData Blob) :
  keeps consistent (ffmpeg_writeFile name data).
Proof.
  intros st H. unfold ffmpeg_writeFile.
  destruct (ffmpeg st) as [fs|]; [|exact H].
  destruct (ff_writeFile name data fs) as [fs' ok]. cbn. frame.
Qed.

Lemma keeps_exec (command : list JS.text) : keeps consistent (ffmpeg_exec command).
Proof.
  intros st H. unfold ffmpeg_exec.
  destruct (ffmpeg st) as [fs|]; [|exact H].
  destruct (ff_exec command fs) as [fs' ok]. cbn. frame.
Qed.

Lemma keeps_readFile (name : JS.text) : keeps consistent (ffmpeg_readFile name).
Proof.
  intros st H. unfold ffmpeg_readFile.
  destruct (ffmpeg st) as [fs|]; [|exact H].
  destruct (ff_readFile name fs); cbn; frame.
Qed.

(** A new object URL given to the player is live. *)
Lemma new_url_steady (b : Blob) (st : St) :
  steady st ->
  steady (fst ((do objectURL <- createObjectURL b;
                Flow.modify (assign_video_src objectURL)) st)).
Proof.
  intros (H1 & H3 & H4). unfold steady, held_url, createObjectURL, assign_video_src.
  cbn. split; [exact H1|]. split; [|exact H4].
  rewrite dom_insert. set_solver.
Qed.

Lemma replace_video_steady (b : Blob) : keeps steady (replace_video (FS:=FS) b).
Proof.
  intros st (H1 & H3 & H4).
  unfold replace_video, createObjectURL, Flow.bind, Flow.gets, Flow.modify. cbn.
  set (id := fresh (dom (urls st) ∪ held_url st)).
  assert (id ∉ dom (urls st) ∪ held_url st) as Hfresh by apply is_fresh.
  unfold steady, revokeObjectURL, held_url in *. cbn.
  destruct (video_src (video st)) as [|old|url]; cbn;
    (split; [exact H1|]; split; [|exact H4]).
  - rewrite dom_insert. set_solver.
  - rewrite dom_delete, dom_insert. set_solver.
  - rewrite dom_insert. set_solver.
Qed.

Lemma replace_video_consistent (b : Blob) :
  keeps (@consistent Blob FS) (replace_video b).
Proof.
  intros st H. pose proof H as [_ (Ha & Hb & Hc) _ _].
  apply steady_consistent.
  - apply replace_video_steady, consistent_steady, H.
  - now rewrite replace_video_editor.
  - now rewrite replace_video_editor.
  - now rewrite replace_video_editor.
Qed.


(** **** The listeners, one by one *)

Ltac keeps_step :=
  first
    [ apply keeps_ret | apply keeps_raise | apply keeps_return | apply keeps_gets
    | apply keeps_fetchFile
    | apply keeps_writeFile | apply keeps_exec | apply keeps_readFile
    | apply keeps_writeFile_steady | apply keeps_exec_steady | apply keeps_readFile_steady
    | apply replace_video_consistent | apply replace_video_steady
    | apply keeps_bind; [|intros ?]
    | apply keeps_modify; intros ? ? ].

Ltac advance :=
  apply keeps_bind; [solve [repeat keeps_step; frame] | intros ?].

Lemma promptEl_oninput_consistent (text : string) (st : St) :
  consistent st -> consistent (promptEl_oninput text st).
Proof.
  intros [H1 H2 H3 H4]. split; try assumption. reflexivity.
Qed.

Lemma generate_consistent (isPreview : bool) (st : St) :
  consistent st -> consistent (generate isPreview st).
Proof.
  intros H. unfold generate. cbn zeta.
  destruct (recordedVideoBlob _); frame.
Qed.

Lemma download_completes_consistent (i : nat) (st : St) :
  consistent st -> consistent (download_completes i st).
Proof.
  intros H. unfold download_completes.
  destruct (pending_fetches st !! i) as [url|]; [|exact H].
  assert (consistent (set_pending_fetches (delete i (pending_fetches st)) st)) as H' by frame.
  destruct (fetch_url url) as [blob|]; [|exact H'].
  pose proof H' as [_ (Ha & Hb & Hc) _ _].
  apply steady_consistent; [apply new_url_steady, consistent_steady, H' | | |];
    assumption.
Qed.

Lemma poll_consistent (answers : list (nat * option Operation)) :
  forall operation, keeps (@consistent Blob FS) (poll operation answers).
Proof.
  induction answers as [|[k answer] rest IH]; intros operation; cbn [poll];
    destruct (done operation); try apply keeps_ret.
  apply keeps_bind; [apply keeps_modify; intros st H; frame | intros _].
  destruct answer as [operation'|]; [apply IH | apply keeps_raise].
Qed.

Lemma start_downloads_consistent (videos : list GeneratedVideo) :
  forall st : St, consistent st ->
    consistent (fold_left (fun st v => start_download v st) videos st).
Proof.
  induction videos as [|v rest IH]; intros st H; [exact H|].
  cbn [fold_left]. apply IH. unfold start_download.
  destruct (download_url v); [frame | exact H].
Qed.

Lemma generateContent_consistent (first : option Operation)
    (answers : list (nat * option Operation)) :
  keeps (@consistent Blob FS) (generateContent first answers).
Proof.
  unfold generateContent. destruct first as [operation|]; [|apply keeps_raise].
  apply keeps_bind; [apply poll_consistent | intros [operation'|]];
    [|apply keeps_ret].
  destruct (generatedVideos operation') as [[|v videos]|]; try apply keeps_raise.
  apply keeps_bind; [|intros _; apply keeps_ret].
  apply keeps_modify, start_downloads_consistent.
Qed.

Lemma generate_catch_consistent (parse : string -> JSError.ApiError)
    (e : JSError.Thrown) (x : @Page Blob FS) :
  consistent (page x) -> consistent (page (generate_catch parse e x)).
Proof.
  intros H. unfold generate_catch. destruct e as [message|text]; [|cbn; frame].
  destruct (_ || _); [cbn; frame|].
  destruct (parse _) as [| |[|] message']; cbn; frame.
Qed.

Lemma generate_await_consistent (isPreview : bool) (first : option Operation)
    (answers : list (nat * option Operation)) (parse : string -> JSError.ApiError)
    (rejection : JSError.Thrown) (x : @Page Blob FS) :
  consistent (page x) ->
  consistent (page (fst (generate_await isPreview first answers parse rejection x))).
Proof.
  intros H. unfold generate_await.
  pose proof (generateContent_consistent first answers (page x) H) as Hg.
  destruct (generateContent first answers (page x)) as [st [[[]|]|e|]]; cbn in Hg |- *;
    try frame; try exact Hg.
  assert (consistent (page (generate_catch parse (thrown_by rejection e)
                              (on_page (fun _ => st) x)))) as Hc
    by (apply generate_catch_consistent; exact Hg).
  frame.
Qed.

Lemma editButton_onclick_consistent (st : St) :
  consistent st -> consistent (editButton_onclick st).
Proof.
  intros H. unfold editButton_onclick, loadFFmpeg, Flow.bind, Flow.modify.
  destruct (ffmpeg st) as [fs|].
  - destruct H as [H1 H2 H3 H4]. split; try assumption. reflexivity.
  - destruct (ff_load ff_new) as [fs' [|]]; cbn.
    + destruct H as [H1 H2 H3 H4]. split; try assumption. reflexivity.
    + frame.
Qed.

Lemma cancelTrimButton_onclick_steady (st : St) :
  steady st -> steady (cancelTrimButton_onclick st).
Proof.
  intros (H1 & H3 & H4). split; [reflexivity|]. split; assumption.
Qed.

Lemma cancelTrimButton_onclick_consistent (st : St) :
  consistent st -> consistent (cancelTrimButton_onclick st).
Proof.
  intros [H1 H2 H3 H4]. split; try assumption. reflexivity.
Qed.

Lemma updateTrimUI_consistent (st : St) : consistent st -> consistent (updateTrimUI st).
Proof. intros H. frame. Qed.

Lemma mutate_trim_consistent (m : TrimMutation) (st : St) :
  consistent st -> consistent (mutate_trim m st).
Proof.
  intros H. destruct m; cbn [mutate_trim].
  - unfold trimStartSlider_oninput. cbn zeta. destruct (JS.ge _ _); frame.
  - unfold trimEndSlider_oninput. cbn zeta. destruct (JS.le _ _); frame.
  - unfold trimStartTimeInput_onchange. cbn zeta. frame.
  - unfold trimEndTimeInput_onchange. cbn zeta. frame.
Qed.

Lemma set_edit_buttons_steady (b : bool) (st : St) :
  steady st -> steady (set_edit_buttons_disabled b st).
Proof. intros H. frame. Qed.

Lemma set_statusEl_steady (t : JS.text) (st : St) : steady st -> steady (set_statusEl t st).
Proof. intros H. frame. Qed.

Lemma set_statusEl_consistent (t : JS.text) (st : St) :
  consistent st -> consistent (set_statusEl t st).
Proof. intros H. frame. Qed.

Lemma enabled_consistent (st : St) :
  steady st -> consistent (set_edit_buttons_disabled false st).
Proof.
  intros H. apply steady_consistent; [apply set_edit_buttons_steady, H | | |];
    reflexivity.
Qed.

Lemma applyTrim_try_steady : keeps steady applyTrim_try.
Proof.
  unfold applyTrim_try. repeat advance. keeps_step.
  unfold click. destruct (cancelTrimButton_disabled _); [assumption|].
  now apply cancelTrimButton_onclick_steady.
Qed.

Lemma applyTrim_consistent (st : St) : consistent st -> consistent (applyTrim st).
Proof.
  intros H. unfold applyTrim.
  destruct (ffmpeg st); [|exact H].
  destruct (src_truthy _); [|exact H].
  apply (try_catch_finally_post steady consistent).
  - exact applyTrim_try_steady.
  - intros s. apply set_statusEl_steady.
  - intros s. apply enabled_consistent.
  - apply set_edit_buttons_steady, set_statusEl_steady, consistent_steady, H.
Qed.

Lemma handleApplyEffect_try_steady (effect : string) :
  keeps steady (handleApplyEffect_try effect).
Proof.
  unfold handleApplyEffect_try. do 4 advance.
  destruct (fade_too_short _ _).
  - repeat advance. keeps_step.
  - destruct (effect_filter _ _); [|keeps_step].
    repeat advance. keeps_step. frame.
Qed.

Lemma handleApplyEffect_consistent (st : St) :
  consistent st -> consistent (handleApplyEffect st).
Proof.
  intros H. unfold handleApplyEffect.
  destruct (ffmpeg st); [|exact H].
  destruct (src_truthy _); [|exact H].
  destruct (String.eqb _ "none"); [exact H|].
  apply (try_catch_finally_post steady consistent).
  - apply handleApplyEffect_try_steady.
  - intros s. apply set_statusEl_steady.
  - intros s. apply enabled_consistent.
  - apply set_edit_buttons_steady, set_statusEl_steady, consistent_steady, H.
Qed.

Lemma reset_trim_range_consistent (n : nat) (st : St) :
  consistent st -> consistent (Nat.iter n reset_trim_range st).
Proof.
  intros H. induction n as [|n IH]; [exact H|].
  cbn [Nat.iter nat_rect]. unfold reset_trim_range at 1. frame.
Qed.

Lemma video_onloadedmetadata_consistent (st : St) :
  consistent st -> consistent (video_onloadedmetadata st).
Proof.
  intros H. unfold video_onloadedmetadata.
  destruct (resource _ _); [|exact H].
  apply reset_trim_range_consistent. frame.
Qed.

Lemma video_ontimeupdate_consistent (t : JS.num) (st : St) :
  consistent st -> consistent (video_ontimeupdate t st).
Proof.
  intros H. unfold video_ontimeupdate, handleTimeUpdateForTrim. cbn zeta.
  destruct (timeupdate_listener _); [|frame].
  destruct (negb _); [frame|].
  destruct (_ || _); frame.
Qed.

Lemma renderMergeBin_consistent (st : St) : consistent st -> consistent (renderMergeBin st).
Proof. intros H. frame. Qed.

Lemma addToMergeBin_consistent (clip : @Clip Blob) (st : St) :
  consistent st -> consistent (addToMergeBin clip st).
Proof. intros H. frame. Qed.

Lemma addToMergeBinButton_consistent (thumbnail : Blob -> Thumbnail) (now : nat) (st : St) :
  consistent st -> consistent (fst (addToMergeBinButton_onclick thumbnail now st)).
Proof.
  intros H. unfold addToMergeBinButton_onclick.
  destruct (negb _); [exact H|].
  apply keeps_try_catch_finally_async.
  - unfold addToMergeBinButton_try. do 2 advance.
    destruct (thumbnail _); [|keeps_step|keeps_step].
    keeps_step; [|keeps_step]. keeps_step. now apply addToMergeBin_consistent.
  - intros s. apply set_statusEl_consistent.
  - intros s. apply set_statusEl_consistent.
  - apply set_statusEl_consistent, H.
Qed.

Lemma merge_write_inputs_consistent (clips : list (@Clip Blob)) :
  forall i acc, keeps consistent (merge_write_inputs i clips acc).
Proof.
  induction clips as [|clip rest IH]; intros i acc; cbn [merge_write_inputs].
  - apply keeps_ret.
  - apply keeps_bind; [keeps_step | intros ?; apply IH].
Qed.

Lemma mergeVideosButton_onclick_consistent (st : St) :
  consistent st -> consistent (mergeVideosButton_onclick st).
Proof.
  intros H. unfold mergeVideosButton_onclick.
  destruct (_ <? _)%nat; [frame|].
  destruct (ffmpeg st); [|frame].
  apply keeps_try_catch_finally.
  - unfold merge_try. advance.
    apply keeps_bind; [apply merge_write_inputs_consistent | intros ?].
    repeat advance. keeps_step. frame.
  - intros s Hs. frame.
  - intros s Hs. frame.
  - frame.
Qed.

(** **** The tools *)

Lemma arg_keeps {A} (P : St -> Prop) (field : Args -> option A) (args : option Args) :
  keeps P (arg field args).
Proof. destruct args; [apply keeps_ret | apply keeps_raise]. Qed.

Lemma num_toString_keeps (P : St -> Prop) (x : option JS.num) :
  keeps P (num_toString x).
Proof. destruct x; [apply keeps_ret | apply keeps_raise]. Qed.

Lemma click_consistent (disabled : bool) (listener : St -> St) (st : St) :
  (forall s, consistent s -> consistent (listener s)) ->
  consistent st -> consistent (click disabled listener st).
Proof. intros Hl H. unfold click. destruct disabled; auto. Qed.

Lemma own_tools_consistent (name : string) (tool : option Args -> Flow.M St ToolValue)
    (args : option Args) :
  tools !! name = Some tool -> keeps consistent (tool args).
Proof.
  intros Hin. apply tools_lookup in Hin.
  destruct Hin as [[_ ->]|[[_ ->]|[[_ ->]|[[_ ->]|[[_ ->]|[[_ ->]|[[_ ->]|[[_ ->]|[_ ->]]]]]]]]].
  - unfold tools_setPrompt. apply keeps_bind; [apply arg_keeps | intros p].
    advance. apply keeps_bind; [|intros ?; keeps_step].
    keeps_step. destruct H as [H1 H2 H3 H4].
    split; try assumption. destruct p; reflexivity.
  - unfold tools_setAspectRatio. apply keeps_bind; [apply arg_keeps | intros ?].
    repeat advance. keeps_step.
  - unfold tools_setDuration. apply keeps_bind; [apply arg_keeps | intros ?].
    apply keeps_bind; [apply num_toString_keeps | intros ?].
    repeat advance. keeps_step.
  - unfold tools_setQuality. apply keeps_bind; [apply arg_keeps | intros ?].
    repeat advance. keeps_step.
  - unfold tools_clickGenerate. apply keeps_bind; [|intros ?; keeps_step].
    keeps_step. now apply generate_consistent.
  - unfold tools_openEditor. advance.
    destruct (_ || _); [keeps_step|]. advance.
    destruct a0; [keeps_step|].
    apply keeps_bind; [|intros ?; keeps_step]. keeps_step.
    apply click_consistent; [apply editButton_onclick_consistent | assumption].
  - unfold tools_closeEditor. advance.
    destruct (negb a); [keeps_step|].
    apply keeps_bind; [|intros ?; keeps_step]. keeps_step.
    apply click_consistent; [apply cancelTrimButton_onclick_consistent | assumption].
  - unfold tools_trimVideo. advance.
    destruct (negb a); [keeps_step|]. advance.
    destruct (JS.isNaN a0); [keeps_step|].
    apply keeps_bind; [apply arg_keeps | intros ?].
    apply keeps_bind; [apply arg_keeps | intros ?].
    destruct (invalid_trim_times _ _ _); [keeps_step|].
    apply keeps_bind; [apply num_toString_keeps | intros ?]. advance.
    apply keeps_bind; [apply num_toString_keeps | intros ?]. advance.
    advance.
    apply keeps_bind; [|intros ?; keeps_step]. keeps_step.
    now apply applyTrim_consistent.
  - unfold tools_applyEffect. advance.
    destruct (negb a); [keeps_step|]. advance.
    apply keeps_bind; [apply arg_keeps | intros ?].
    destruct (negb (includes _ _)); [keeps_step|].
    advance.
    apply keeps_bind; [|intros ?; keeps_step]. keeps_step.
    now apply handleApplyEffect_consistent.
Qed.

Lemma call_inherited_state (member : string) (args : option Args) (st : St) :
  fst (call_inherited member args st) = st.
Proof.
  unfold call_inherited.
  destruct (String.eqb member "constructor"); [reflexivity|].
  destruct (String.eqb member "toString"); [reflexivity|].
  destruct (String.eqb member "isPrototypeOf"); [destruct args; reflexivity | reflexivity].
Qed.

Lemma tool_of_consistent (name : string) (tool : option Args -> Flow.M St ToolValue)
    (args : option Args) :
  tool_of name = Some tool -> keeps consistent (tool args).
Proof.
  unfold tool_of, JS.get.
  destruct (tools !! name) as [own|] eqn:Hown.
  - intros [= <-]. eapply own_tools_consistent, Hown.
  - destruct (bool_decide _); [|discriminate].
    intros [= <-] st H. now rewrite call_inherited_state.
Qed.

Lemma perform_consistent (a : Action) (st : St) :
  consistent st -> consistent (perform a st).
Proof.
  intros H. destruct a; cbn [perform].
  - now apply promptEl_oninput_consistent.
  - unfold aspectRatioSelect_onchange. cbn zeta. frame.
  - unfold durationInput_onchange. frame.
  - unfold qualitySelect_onchange. cbn zeta. frame.
  - apply click_consistent; [apply generate_consistent | exact H].
  - now apply generate_await_consistent.
  - now apply download_completes_consistent.
  - apply click_consistent; [apply editButton_onclick_consistent | exact H].
  - apply click_consistent; [apply cancelTrimButton_onclick_consistent | exact H].
  - now apply mutate_trim_consistent.
  - apply click_consistent; [apply applyTrim_consistent | exact H].
  - frame.
  - apply click_consistent; [apply handleApplyEffect_consistent | exact H].
  - now apply video_onloadedmetadata_consistent.
  - now apply video_ontimeupdate_consistent.
  - now apply addToMergeBinButton_consistent.
  - unfold removeMergeClipButton_onclick. frame.
  - unfold clearMergeBinButton_onclick. frame.
  - apply click_consistent; [apply mergeVideosButton_onclick_consistent | exact H].
  - destruct (tool_of name) as [tool|] eqn:Htool; [|exact H].
    eapply tool_of_consistent; eassumption.
Qed.

Lemma perform_all_consistent (actions : list Action) :
  forall st : St, consistent st -> consistent (perform_all actions st).
Proof.
  induction actions as [|a rest IH]; intros st H; [exact H|].
  cbn. apply IH, perform_consistent, H.
Qed.

(** **** The library *)

Context {DB : Type} `{Idb : !ClipDatabase Blob DB}.

Local Abbreviation Lib := (Library Blob FS DB).
Local Abbreviation in_order := (@consistent_library Blob FS DB).

Lemma in_studio_keeps {A} (m : Flow.M St A) :
  keeps consistent m -> keeps in_order (in_studio (DB:=DB) m).
Proof.
  intros Hm x H. unfold in_studio, in_order in *.
  specialize (Hm (studio x) H). destruct (m (studio x)) as [st r]. exact Hm.
Qed.

Lemma loadFFmpeg_consistent : keeps (@consistent Blob FS) loadFFmpeg.
Proof.
  intros st H. unfold loadFFmpeg. destruct (ffmpeg st); [exact H|].
  destruct (ff_load ff_new) as [fs' [|]]; cbn; frame.
Qed.

Lemma document_onDOMContentLoaded_consistent (x : Lib) :
  in_order x -> in_order (document_onDOMContentLoaded x).
Proof.
  intros H. unfold document_onDOMContentLoaded, in_order in *.
  cbn [studio on_studio]. apply loadFFmpeg_consistent.
  unfold load_clips.
  destruct idb_open as [d|]; cbn; [|now apply set_statusEl_consistent].
  destruct (idb_getAll d); cbn; [exact H | now apply set_statusEl_consistent].
Qed.

Lemma dbAddClip_keeps (name : string) (blob : Blob) (thumbnail : string) :
  keeps in_order (dbAddClip name blob thumbnail).
Proof.
  intros x H. unfold dbAddClip. destruct (db x) as [d|]; [|exact H].
  destruct (idb_add _ _ _ d) as [d' key]. exact H.
Qed.

Lemma dbDeleteClip_keeps (id : nat) : keeps in_order (dbDeleteClip id).
Proof.
  intros x H. unfold dbDeleteClip. destruct (db x) as [d|]; [|exact H].
  destruct (idb_delete id d) as [d' ok]. exact H.
Qed.

Lemma saveClipButton_onclick_consistent (answer : value) (thumbnail : Blob -> Thumbnail)
    (x : Lib) :
  in_order x ->
  in_order (fst (saveClipButton_onclick answer thumbnail x)).
Proof.
  revert x. change (keeps in_order (saveClipButton_onclick answer thumbnail)).
  unfold saveClipButton_onclick.
  apply keeps_bind; [apply keeps_gets | intros src].
  destruct (negb _); [apply keeps_return|].
  apply keeps_bind.
  { intros x H. unfold call_prompt. destruct (callable _); exact H. }
  intros name. apply keeps_bind.
  { unfold trimmed_name. destruct (negb _); [apply keeps_ret|].
    destruct name; try apply keeps_raise.
    destruct (negb _); apply keeps_ret. }
  intros [name'|]; [|apply keeps_return].
  apply keeps_bind.
  { apply keeps_modify. intros x H. unfold in_order in *.
    now apply set_statusEl_consistent. }
  intros _ x H.
  pose proof (keeps_try_catch_finally_async in_order
                (saveClipButton_try name' thumbnail)
                (on_studio (set_statusEl (JS.lit "Error saving clip.")))
                (fun x => x)) as Htcf.
  destruct (try_catch_finally_async _ _ _ x) as [x' w] eqn:E.
  cbn. change x' with (fst (x', w)). rewrite <- E. apply Htcf; auto.
  - unfold saveClipButton_try.
    apply keeps_bind; [apply keeps_gets | intros ?].
    apply keeps_bind; [apply in_studio_keeps, keeps_fetchFile | intros blob].
    destruct (thumbnail blob); [|apply keeps_raise | apply keeps_ret].
    apply keeps_bind; [apply dbAddClip_keeps | intros id].
    apply keeps_bind; [apply keeps_modify; intros ? ?; assumption | intros ?].
    apply keeps_bind; [|intros ?; apply keeps_ret].
    apply keeps_modify. intros y Hy. unfold in_order in *.
    now apply set_statusEl_consistent.
  - intros y Hy. unfold in_order in *. now apply set_statusEl_consistent.
Qed.

Lemma perform_in_library_consistent (a : LibraryAction) (x : Lib) :
  in_order x -> in_order (perform_in_library a x).
Proof.
  intros H. destruct a; cbn [perform_in_library].
  - unfold in_order in *. cbn. now apply perform_consistent.
  - now apply document_onDOMContentLoaded_consistent.
  - now apply saveClipButton_onclick_consistent.
  - unfold loadClipButton_onclick, in_order in *.
    destruct (myClips x !! i) as [clip|]; [|exact H]. cbn [studio on_studio].
    pose proof H as [_ (Ha & Hb & Hc) _ _].
    apply steady_consistent; [apply new_url_steady, consistent_steady, H | | |];
      assumption.
  - unfold addClipToBinButton_onclick, in_order in *.
    destruct (myClips x !! i) as [clip|]; [|exact H]. cbn [studio on_studio].
    now apply addToMergeBin_consistent.
  - revert x H. change (keeps in_order (deleteClipButton_onclick i confirmed)).
    unfold deleteClipButton_onclick.
    apply keeps_bind; [apply keeps_gets | intros clips].
    destruct (clips !! i) as [clip|]; [|apply keeps_ret].
    destruct confirmed; [|apply keeps_ret].
    destruct (truthy_id _); [|apply keeps_ret].
    apply keeps_bind; [apply dbDeleteClip_keeps | intros ?].
    apply keeps_modify. intros ? ?. assumption.
Qed.

Lemma perform_all_in_library_consistent (actions : list LibraryAction) :
  forall x : Lib, in_order x ->
    in_order (perform_all_in_library actions x).
Proof.
  induction actions as [|a rest IH]; intros x H; [exact H|].
  cbn. apply IH, perform_in_library_consistent, H.
Qed.

End Invariant.

Section SessionFacts.

Context {Blob FS : Type}.
Context `{Eng : !MediaEngine Blob FS} `{Br : !Browser Blob}.
Context {DB : Type} `{Idb : !ClipDatabase Blob DB}.

Local Abbreviation St := (@State Blob FS).
Local Abbreviation Lib := (Library Blob FS DB).

(** X8: whatever the user, the browser, the video service and the agent
    do, in whatever order (any list of the events of [LibraryAction], each
    listener run as far as it goes), afterwards the preview listener is
    registered exactly when the editor is open, the three buttons of the
    editor are enabled, the object URL the player holds (if it holds one)
    has not been revoked, and the variable [prompt] holds no function. *)
Theorem session_stays_consistent (actions : list LibraryAction) (x : Lib) :
  consistent (studio x) ->
  let st' := studio (perform_all_in_library actions x) in
  timeupdate_listener (video st') = isEditorOpen (editor st')
  /\ applyTrimButton_disabled (editor st') = false
  /\ cancelTrimButton_disabled (editor st') = false
  /\ applyEffectButton_disabled (editor st') = false
  /\ (forall id, video_src (video st') = SrcBlob id -> is_Some (urls st' !! id))
  /\ callable (prompt (config st')) = false.
Proof.
  intros H. cbn zeta.
  destruct (perform_all_in_library_consistent actions x H) as [H1 (Ha & Hb & Hc) H3 H4].
  split; [exact H1|]. split; [exact Ha|]. split; [exact Hb|]. split; [exact Hc|].
  split; [|exact H4].
  intros id Hid. unfold held_url in H3. rewrite Hid in H3.
  apply elem_of_dom. set_solver.
Qed.

(** X9: the save button never saves.  In its listener [prompt(...)] names
    the variable [prompt] of the module, which holds the text of the
    generation prompt, so the call throws before anything is done: after
    any sequence of events, a click on the button leaves the session, the
    database and the list of clips as they are. *)
Theorem save_button_never_saves (actions : list LibraryAction) (x : Lib)
    (answer : value) (thumbnail : Blob -> Thumbnail) :
  consistent (studio x) ->
  let x' := perform_all_in_library actions x in
  saveClipButton_onclick answer thumbnail x'
  = (x', if src_truthy (video_src (video (studio x')))
         then Flow.Raise Flow.TypeError else Flow.Return).
Proof.
  intros H. cbn zeta.
  destruct (perform_all_in_library_consistent actions x H) as [_ _ _ H4].
  set (x' := perform_all_in_library actions x) in *. clearbody x'.
  unfold saveClipButton_onclick. rewrite bind_gets.
  destruct (src_truthy _); [|reflexivity]. cbn [negb].
  unfold Flow.bind at 1. unfold call_prompt. rewrite H4. reflexivity.
Qed.


(** *** A trim and the editor *)

Lemma editor_as_frame (e : Editor) (l : bool) (st st' : St) :
  editor st' = editor st ->
  timeupdate_listener (video st') = timeupdate_listener (video st) ->
  editor_as e l st -> editor_as e l st'.
Proof. intros H1 H2 [Ha Hb]. split; congruence. Qed.

Lemma applyTrim_try_editor (e : Editor) (l : bool) :
  cancelTrimButton_disabled e = true -> keeps (editor_as e l) applyTrim_try.
Proof.
  intros Hdis. unfold applyTrim_try.
  apply keeps_bind; [apply keeps_gets | intros src].
  apply keeps_bind; [apply keeps_fetchFile | intros file].
  apply keeps_bind.
  { intros st H. unfold ffmpeg_writeFile. destruct (ffmpeg st) as [fs|]; [|exact H].
    destruct (ff_writeFile _ _ fs). eapply editor_as_frame; [| |exact H]; reflexivity. }
  intros _. apply keeps_bind; [apply keeps_gets | intros startTime].
  apply keeps_bind; [apply keeps_gets | intros endTime].
  apply keeps_bind.
  { intros st H. unfold ffmpeg_exec. destruct (ffmpeg st) as [fs|]; [|exact H].
    destruct (ff_exec _ fs). eapply editor_as_frame; [| |exact H]; reflexivity. }
  intros _. apply keeps_bind.
  { intros st H. unfold ffmpeg_readFile. destruct (ffmpeg st) as [fs|]; [|exact H].
    destruct (ff_readFile _ fs); (eapply editor_as_frame; [| |exact H]); reflexivity. }
  intros newBlob. apply keeps_bind.
  { intros st H. eapply editor_as_frame; [| |exact H].
    - apply replace_video_editor.
    - unfold replace_video, createObjectURL, Flow.bind, Flow.gets, Flow.modify,
        revokeObjectURL. cbn. destruct (video_src (video st)); reflexivity. }
  intros _. apply keeps_bind.
  { apply keeps_modify. intros st H. eapply editor_as_frame; [| |exact H]; reflexivity. }
  intros _. apply keeps_modify. intros st [He Hl]. unfold click.
  rewrite He, Hdis. split; assumption.
Qed.

(** X11: [applyTrim] never closes the editor.  Its [cancelTrimButton.click()]
    comes while [applyTrim] itself holds the button disabled, and a
    [click()] on a disabled button does nothing: whatever the outcome of
    the trim, the editor is as open as before, the preview listener is as
    registered as before, and the sliders, the numeric inputs and the
    effect menu are untouched. *)
Theorem applyTrim_never_closes_editor (st : St) :
  let st' := applyTrim st in
  isEditorOpen (editor st') = isEditorOpen (editor st)
  /\ timeupdate_listener (video st') = timeupdate_listener (video st)
  /\ trimStartSlider (editor st') = trimStartSlider (editor st)
  /\ trimEndSlider (editor st') = trimEndSlider (editor st)
  /\ trimStartTimeInput (editor st') = trimStartTimeInput (editor st)
  /\ trimEndTimeInput (editor st') = trimEndTimeInput (editor st)
  /\ effectsSelect (editor st') = effectsSelect (editor st).
Proof.
  cbn zeta. unfold applyTrim.
  destruct (ffmpeg st); [|repeat split].
  destruct (src_truthy _); [|repeat split].
  set (st1 := set_edit_buttons_disabled true (set_statusEl _ st)).
  pose proof (try_catch_finally_post
                (editor_as (editor st1) (timeupdate_listener (video st1)))
                (editor_as (editor (set_edit_buttons_disabled false st1))
                           (timeupdate_listener (video st1)))
                applyTrim_try
                (set_statusEl (JS.lit "An error occurred during trimming."))
                (set_edit_buttons_disabled false)) as Hpost.
  destruct (Hpost (applyTrim_try_editor (editor st1) (timeupdate_listener (video st1))
                     eq_refl)) with (s := st1) as [He Hl].
  - intros s Hs. eapply editor_as_frame; [| |exact Hs]; reflexivity.
  - intros s [He Hl]. split; [|exact Hl].
    unfold set_edit_buttons_disabled. cbn. rewrite He. reflexivity.
  - split; reflexivity.
  - rewrite He, Hl. repeat split.
Qed.

End SessionFacts.

Section EditorFacts.

Context {Blob FS : Type}.
Context `{Eng : !MediaEngine Blob FS} `{Br : !Browser Blob}.

Local Abbreviation St := (@State Blob FS).

(** *** Object URLs *)

Lemma replace_video_urls (b : Blob) (st : St) :
  let new := fresh (dom (urls st) ∪ held_url st) in
  video_src (video (fst (replace_video b st))) = SrcBlob new
  /\ urls (fst (replace_video b st)) = <[new := b]> (urls_without_player st).
Proof.
  cbn zeta.
  set (new := fresh (dom (urls st) ∪ held_url st)).
  assert (new ∉ dom (urls st) ∪ held_url st) as Hfresh by apply is_fresh.
  unfold replace_video, createObjectURL, Flow.bind, Flow.gets, Flow.modify,
    revokeObjectURL, urls_without_player, held_url in *. cbn.
  fold new.
  destruct (video_src (video st)) as [|old|url]; cbn; split; try reflexivity.
  apply delete_insert_ne. set_solver.
Qed.

Lemma url_recycled (b : Blob) (s0 st st' : St) :
  urls s0 = urls st -> video_src (video s0) = video_src (video st) ->
  urls st' = urls (fst (replace_video b s0)) ->
  video_src (video st') = video_src (video (fst (replace_video b s0))) ->
  exists new,
    (new ∉ dom (urls st))
    /\ video_src (video st') = SrcBlob new
    /\ urls st' = <[new := b]> (urls_without_player st).
Proof.
  intros Hu Hv Hu' Hv'.
  destruct (replace_video_urls b s0) as [Hsrc Hurls]. cbn zeta in *.
  exists (fresh (dom (urls s0) ∪ held_url s0)).
  split; [|split].
  - intros Hin. apply (is_fresh (dom (urls s0) ∪ held_url s0)).
    apply elem_of_union_l. rewrite <- Hu in Hin. exact Hin.
  - congruence.
  - rewrite Hu', Hurls. unfold urls_without_player. now rewrite Hu, Hv.
Qed.

(** X12: an edit that succeeds recycles the object URL of the player: the
    URL the player held is revoked, exactly one new URL is made, for the
    output of the edit, and no other object URL is touched. *)
Theorem edit_recycles_object_url (k : Edit) (st : St) (newBlob : Blob) :
  edit_succeeds k st newBlob ->
  let st' := apply_edit k st in
  exists new,
    (new ∉ dom (urls st))
    /\ video_src (video st') = SrcBlob new
    /\ urls st' = <[new := newBlob]> (urls_without_player st).
Proof.
  intros Hok. cbn zeta. destruct k; cbn [apply_edit].
  - destruct Hok as (fs & file & command & fs1 & fs2 & Hff & Hres & Hcmd & Hw & Hx & Hr).
    injection Hcmd as <-.
    unfold applyTrim. rewrite Hff, (resource_truthy _ _ _ Hres).
    unfold Flow.try_catch_finally, applyTrim_try.
    rewrite bind_gets.
    erewrite bind_value by (apply fetchFile_ok; exact Hres).
    erewrite bind_value by (eapply ffmpeg_writeFile_ok; [exact Hff | exact Hw]).
    rewrite !bind_gets.
    erewrite bind_value by (eapply ffmpeg_exec_ok; [reflexivity | exact Hx]).
    erewrite bind_value by (eapply ffmpeg_readFile_ok; [reflexivity | exact Hr]).
    rewrite replace_video_bind, bind_modify. unfold Flow.modify.
    match goal with |- context [replace_video newBlob ?s] => set (s0 := s) end.
    apply (url_recycled newBlob s0); try reflexivity.
    + cbn. unfold click.
      destruct (cancelTrimButton_disabled _); reflexivity.
    + cbn. unfold click.
      destruct (cancelTrimButton_disabled _); reflexivity.
  - destruct Hok as (fs & file & command & fs1 & fs2 & Hff & Hres & Hcmd & Hw & Hx & Hr).
    apply edit_command_effect in Hcmd as (Hnone & Hfade & filter & Hfilter & ->).
    unfold handleApplyEffect. rewrite Hff, (resource_truthy _ _ _ Hres), Hnone.
    unfold Flow.try_catch_finally, handleApplyEffect_try.
    rewrite bind_gets.
    erewrite bind_value by (apply fetchFile_ok; exact Hres).
    erewrite bind_value by (eapply ffmpeg_writeFile_ok; [exact Hff | exact Hw]).
    rewrite bind_gets.
    change (video_duration (video (set_ffmpeg _ _))) with (video_duration (video st)).
    rewrite Hfade, Hfilter.
    erewrite bind_value by (eapply ffmpeg_exec_ok; [reflexivity | exact Hx]).
    erewrite bind_value by (eapply ffmpeg_readFile_ok; [reflexivity | exact Hr]).
    rewrite replace_video_bind, !bind_modify. unfold Flow.modify.
    match goal with |- context [replace_video newBlob ?s] => set (s0 := s) end.
    apply (url_recycled newBlob s0); reflexivity.
Qed.

(** X13: a generated video that arrives takes a new object URL and
    becomes the source of the player, and nothing is revoked: the URL the
    player held before stays live, as does every other object URL. *)
Theorem download_never_revokes (i : nat) (st : St) (url : string) (blob : Blob) :
  pending_fetches st !! i = Some url ->
  fetch_url url = Some blob ->
  let st' := download_completes i st in
  exists new,
    (new ∉ dom (urls st))
    /\ video_src (video st') = SrcBlob new
    /\ urls st' = <[new := blob]> (urls st)
    /\ forall id b, urls st !! id = Some b -> urls st' !! id = Some b.
Proof.
  intros Hp Hf. cbn zeta. unfold download_completes. rewrite Hp, Hf.
  unfold createObjectURL, Flow.bind, Flow.modify, assign_video_src. cbn.
  set (new := fresh (dom (urls st) ∪ held_url _)).
  assert (new ∉ dom (urls st)) as Hfresh.
  { pose proof (is_fresh (dom (urls st) ∪
        held_url (set_pending_fetches (delete i (pending_fetches st)) st))) as Hn.
    fold new in Hn. set_solver. }
  exists new. split; [exact Hfresh|]. split; [reflexivity|]. split; [reflexivity|].
  intros id b Hid. rewrite lookup_insert_ne; [exact Hid|].
  intros <-. apply Hfresh. apply elem_of_dom. eauto.
Qed.

(** *** Opening the editor *)

(** X14: the engine is loaded once.  Once [loadFFmpeg] has run, with or
    without success, [ffmpeg] is set, and every later call returns at
    once: a load that failed is not tried again, and the Edit button then
    opens the editor over the engine that failed to load. *)
Theorem loadFFmpeg_is_not_retried (st : St) :
  let st1 := fst (loadFFmpeg st) in
  ffmpeg st1 <> None
  /\ loadFFmpeg st1 = (st1, Flow.Value tt)
  /\ isEditorOpen (editor (editButton_onclick st1)) = true
  /\ ffmpeg (editButton_onclick st1) = ffmpeg st1.
Proof.
  cbn zeta.
  assert (exists fs, ffmpeg (fst (loadFFmpeg st)) = Some fs) as [fs Hfs].
  { unfold loadFFmpeg. destruct (ffmpeg st) as [fs|] eqn:E; [eauto|].
    destruct (ff_load ff_new) as [fs' [|]]; cbn; eauto. }
  set (st1 := fst (loadFFmpeg st)) in *. clearbody st1.
  assert (loadFFmpeg st1 = (st1, Flow.Value tt)) as Hagain
    by (unfold loadFFmpeg; now rewrite Hfs).
  split; [congruence|]. split; [exact Hagain|].
  unfold editButton_onclick. erewrite bind_value by exact Hagain.
  split; reflexivity.
Qed.

End EditorFacts.

Section BinFacts.

Context {Blob FS : Type}.
Context `{Eng : !MediaEngine Blob FS} `{Br : !Browser Blob}.
Context {DB : Type} `{Idb : !ClipDatabase Blob DB}.

Local Abbreviation St := (@State Blob FS).
Local Abbreviation Lib := (Library Blob FS DB).

(** X15: after a merge that succeeds the bin is empty and yet the merge
    button is enabled ([finally] enables it after [renderMergeBin] has
    disabled it); a click on it then only says that 2 videos are needed. *)
Theorem merge_leaves_button_enabled (st : St) (newBlob : Blob) :
  (List.length (mergeBin st) <? 2)%nat = false ->
  merge_succeeds st newBlob ->
  let st' := mergeVideosButton_onclick st in
  let st'' := mergeVideosButton_onclick st' in
  mergeBin st' = []
  /\ mergeVideosButton_disabled st' = false
  /\ statusEl st'' = JS.lit "Add at least 2 videos to merge."
  /\ mergeBin st'' = [] /\ video st'' = video st' /\ urls st'' = urls st'.
Proof.
  intros Hlen (fs & fs1 & fs2 & fs3 & Hff & Hstage & Hlist & Hx & Hr). cbn zeta.
  assert (mergeBin (mergeVideosButton_onclick st) = []
          /\ mergeVideosButton_disabled (mergeVideosButton_onclick st) = false)
    as [Hbin Hbutton].
  { unfold mergeVideosButton_onclick. rewrite Hlen, Hff.
    unfold Flow.try_catch_finally, merge_try.
    rewrite bind_gets.
    match goal with |- context [Flow.bind (merge_write_inputs 0 ?b []) _ ?s] =>
      change b with (mergeBin st);
      destruct (merge_write_inputs_run (mergeBin st) 0 [] s fs Hff)
        as (calls & Hrun & _ & _)
    end.
    rewrite Hstage in Hrun. cbn [fst snd] in Hrun.
    erewrite bind_value by exact Hrun.
    erewrite bind_value by (eapply ffmpeg_writeFile_ok; [reflexivity | exact Hlist]).
    erewrite bind_value by (eapply ffmpeg_exec_ok; [reflexivity | exact Hx]).
    erewrite bind_value by (eapply ffmpeg_readFile_ok; [reflexivity | exact Hr]).
    rewrite replace_video_bind, !bind_modify. unfold Flow.modify.
    split; reflexivity. }
  split; [exact Hbin|]. split; [exact Hbutton|].
  set (st' := mergeVideosButton_onclick st) in *. clearbody st'.
  unfold mergeVideosButton_onclick. rewrite Hbin. cbn.
  repeat split. exact Hbin.
Qed.

(** X16: the status line of the add-to-bin button.  When the listener has
    run to its end the status reads "Added to bin." whether or not a clip
    was added: the bin gets one more clip, made of the video of the
    player, exactly when that video could be fetched and a thumbnail was
    made of it, and is as before otherwise. *)
Theorem add_to_bin_says_added (thumbnail : Blob -> Thumbnail) (now : nat) (st st' : St) :
  src_truthy (video_src (video st)) = true ->
  addToMergeBinButton_onclick thumbnail now st = (st', Settled tt) ->
  statusEl st' = JS.lit "Added to bin."
  /\ match resource (video_src (video st)) st with
     | Some blob =>
         match thumbnail blob with
         | ThumbnailReady dataUrl =>
             mergeBin st'
             = mergeBin st ++
               [ {| clip_id := None; clip_name := "Clip " +:+ JSString.of_nat now;
                    clip_blob := blob; clip_thumbnail := dataUrl |} ]
             /\ mergeVideosButton_disabled st' = (List.length (mergeBin st) <? 1)%nat
         | _ => mergeBin st' = mergeBin st
         end
     | None => mergeBin st' = mergeBin st
     end.
Proof.
  intros Hsrc. unfold addToMergeBinButton_onclick. rewrite Hsrc. cbn [negb].
  unfold try_catch_finally_async, addToMergeBinButton_try.
  rewrite bind_gets. cbn [video set_statusEl].
  change (resource (video_src (video st)) st)
    with (resource (video_src (video st)) (set_statusEl (JS.lit "Adding to bin...") st)).
  destruct (resource _ (set_statusEl _ st)) as [blob|] eqn:Hres.
  - erewrite bind_value by (apply fetchFile_ok; exact Hres).
    destruct (thumbnail blob) as [dataUrl|message|]; cbn.
    + intros [= <-]. cbn. split; [reflexivity|]. split; [reflexivity|].
      rewrite length_app. cbn.
      destruct (List.length (mergeBin st)) as [|[|n]]; reflexivity.
    + intros [= <-]. split; reflexivity.
    + discriminate.
  - erewrite bind_raise by (apply fetchFile_fail; exact Hres).
    intros [= <-]. split; reflexivity.
Qed.

(** X17: at start-up the message about the database is never what is
    left on the status line.  The listener of [DOMContentLoaded] loads
    the engine right after the clips, whatever became of them, and
    [loadFFmpeg] writes the status line: after it the status tells about
    the editor, the engine is set, and the list holds the clips of the
    database when they could be read and is as before when not. *)
Theorem startup_overwrites_database_error (x : Lib) :
  ffmpeg (studio x) = None ->
  let x' := document_onDOMContentLoaded x in
  ffmpeg (studio x') = Some (fst (ff_load ff_new))
  /\ statusEl (studio x')
     = JS.lit (if snd (ff_load ff_new) then "Editor loaded."
               else "Loading video editor...")
  /\ myClips x'
     = match idb_open with
       | Some d => match idb_getAll d with Some clips => clips | None => myClips x end
       | None => myClips x
       end
  /\ db x' = match idb_open with Some d => Some d | None => db x end.
Proof.
  intros Hff. cbn zeta. unfold document_onDOMContentLoaded, load_clips.
  assert (forall st : St, ffmpeg st = None ->
            ffmpeg (fst (loadFFmpeg st)) = Some (fst (ff_load ff_new))
            /\ statusEl (fst (loadFFmpeg st))
               = JS.lit (if snd (ff_load ff_new) then "Editor loaded."
                         else "Loading video editor...")) as Hload.
  { intros st H. unfold loadFFmpeg. rewrite H.
    destruct (ff_load ff_new) as [fs' [|]]; split; reflexivity. }
  destruct idb_open as [d|]; [destruct (idb_getAll d) as [clips|]|]; cbn;
    match goal with
    | |- context [loadFFmpeg ?st] => destruct (Hload st Hff) as [H1 H2]
    end; repeat split; assumption.
Qed.

End BinFacts.

Section AgentFacts.

Context {Blob FS : Type}.
Context `{Eng : !MediaEngine Blob FS} `{Br : !Browser Blob}.
Context {H : Type} `{Chat : !ChatModel H}.

Local Abbreviation St := (@State Blob FS).
Local Abbreviation Ag := (@Agent Blob FS H).

Lemma tools_clickGenerate_own : tools !! "clickGenerate" = Some (@tools_clickGenerate Blob FS).
Proof.
  unfold tools. cbn [list_to_map foldr].
  repeat (rewrite lookup_insert_ne by discriminate).
  apply lookup_insert_eq.
Qed.

(** X18: the agent is not held back by the disabled buttons.  While a
    generation is running the Generate button is disabled and a click on
    it does nothing, but [clickGenerate] calls [generate] itself.  With no
    recording to take a frame of, the call sends one more request, with
    the settings as they are; with a recording, it starts on the frame of
    the recording and has sent nothing yet. *)
Theorem agent_generates_while_disabled (st : St) (args : option Args) :
  controls_disabled (config st) = true ->
  let st' := perform (CallTool "clickGenerate" args) st in
  perform (ClickGenerate false) st = st
  /\ match recordedVideoBlob (config st) with
     | None =>
         statusEl st' = JS.lit "Generating... This may take a few minutes."
         /\ exists request,
              submitted st' = submitted st ++ [request]
              /\ gv_prompt request = prompt (config st)
              /\ gv_aspectRatio request = aspectRatio (config st)
              /\ gv_durationSeconds request = duration (config st)
              /\ gv_resolution request = resolution (config st)
     | Some _ =>
         statusEl st' = JS.lit "Processing recorded video frame..."
         /\ submitted st' = submitted st
     end.
Proof.
  intros Hdis. cbn zeta. split.
  - cbn [perform]. unfold click. now rewrite Hdis.
  - cbn [perform]. unfold tool_of, JS.get. rewrite tools_clickGenerate_own.
    unfold tools_clickGenerate. rewrite bind_modify.
    unfold generate. cbn.
    destruct (recordedVideoBlob (config st)) as [blob|]; cbn.
    + split; reflexivity.
    + split; [reflexivity|]. eexists. split; [reflexivity|]. repeat split.
Qed.

(** *** The trace of an exchange *)

Lemma tool_calls_shown_app (l1 l2 : list Bubble) :
  tool_calls_shown (l1 ++ l2) = tool_calls_shown l1 ++ tool_calls_shown l2.
Proof. apply omap_app. Qed.

Lemma results_returned_app (l1 l2 : list Outgoing) :
  results_returned (l1 ++ l2) = results_returned l1 ++ results_returned l2.
Proof. apply omap_app. Qed.

(** **** No tool ends in an early [return;] *)















End AgentFacts.

(** *** Reading a number back *)

Lemma pretty_char_is_digit (d : N) : JSString.is_digit (pretty_N_char d) = true.
Proof.
  unfold pretty_N_char. repeat case_match; reflexivity.
Qed.

Lemma pretty_char_value (d : N) :
  (d < 10)%N -> N.of_nat (nat_of_ascii (pretty_N_char d) - 48) = d.
Proof.
  intros Hd.
  assert (d = 0 \/ d = 1 \/ d = 2 \/ d = 3 \/ d = 4 \/ d = 5 \/ d = 6
          \/ d = 7 \/ d = 8 \/ d = 9)%N as Hc by lia.
  destruct Hc as [->|[->|[->|[->|[->|[->|[->|[->|[->| ->]]]]]]]]]; reflexivity.
Qed.

(** Reading the digits of [x] gives [x]. *)
Lemma digits_value_pretty (x : N) :
  forall s, JSNumber.digits_value 0 (pretty_N_go x s) = JSNumber.digits_value x s.
Proof.
  induction (N.lt_wf_0 x) as [x _ IH]; intros s.
  destruct (decide (0 < x)%N) as [Hpos|Hz].
  - rewrite pretty_N_go_step by exact Hpos.
    rewrite IH by (apply N.div_lt; lia).
    cbn [JSNumber.digits_value]. rewrite pretty_char_is_digit.
    rewrite pretty_char_value by (apply N.mod_lt; lia).
    f_equal. rewrite N.mul_comm. symmetry. apply N.div_mod. lia.
  - replace x with 0%N by lia. reflexivity.
Qed.

Lemma pretty_go_digit_head (x : N) :
  forall s, (0 < x)%N ->
    exists d rest, pretty_N_go x s = String (pretty_N_char d) rest.
Proof.
  induction (N.lt_wf_0 x) as [x _ IH]; intros s Hpos.
  rewrite (pretty_N_go_step x s) by exact Hpos.
  destruct (decide (0 < x `div` 10)%N) as [Hd|Hd].
  - apply IH; [apply N.div_lt; lia | exact Hd].
  - assert (x `div` 10 = 0)%N as ->
      by (destruct (x `div` 10)%N; [reflexivity | exfalso; apply Hd; lia]).
    rewrite pretty_N_go_0. eauto.
Qed.

Lemma digit_no_space (c : ascii) : JSString.is_digit c = true -> Ascii.is_space c = false.
Proof.
  unfold JSString.is_digit. intros H.
  destruct c as [[] [] [] [] [] [] [] []]; try reflexivity; discriminate H.
Qed.

Lemma digit_no_sign (c : ascii) (rest : string) :
  JSString.is_digit c = true ->
  match String c rest with
  | String "-" r => (true, r)
  | String "+" r => (false, r)
  | _ => (false, String c rest)
  end = (false, String c rest).
Proof.
  unfold JSString.is_digit. intros H.
  destruct c as [[] [] [] [] [] [] [] []]; try reflexivity; discriminate H.
Qed.

Lemma digits_value_stops (acc : N) (rest : string) :
  JSNumber.starts_with_digit rest = false -> JSNumber.digits_value acc rest = acc.
Proof. destruct rest as [|c r]; cbn; [reflexivity | now intros ->]. Qed.

(** A whole number of at most 53 bits is a Number. *)
Lemma round64_integer (z : Z) :
  (Z.abs z <= 2 ^ 53)%Z -> JS.round64 (inject_Z z) = inject_Z z.
Proof.
  intros Hz.
  assert (JS.is_double (inject_Z z)) as Hd.
  { exists z, 0%Z. split; [exact Hz|]. split; [lia|].
    change (JS.pow2 0) with 1%Q. ring. }
  pose proof (round64_fixed _ Hd) as H. apply Qred_complete in H.
  assert (Qred (JS.round64 (inject_Z z)) = JS.round64 (inject_Z z)) as Hred
    by (unfold JS.round64; apply Qred_complete, Qred_correct).
  rewrite Hred in H. rewrite H. apply Qcanon.Qred_identity. cbn. apply Z.gcd_1_r.
Qed.

Lemma parseInt10_of_nat (n : nat) (rest : string) :
  (Z.of_nat n <= 2 ^ 53)%Z ->
  JSNumber.starts_with_digit rest = false ->
  JSNumber.parseInt10 (JSString.of_nat n +:+ rest) = JS.Fin (inject_Z (Z.of_nat n)).
Proof.
  intros Hn Hrest.
  assert (exists d tail,
            JSString.of_nat n +:+ rest = String (pretty_N_char d) tail
            /\ JSNumber.digits_value 0 (JSString.of_nat n +:+ rest) = N.of_nat n)
    as (d & tail & Heq & Hval).
  { unfold JSString.of_nat, pretty, pretty_nat, pretty, pretty_N.
    destruct (decide (N.of_nat n = 0%N)) as [E|E].
    - rewrite E. exists 0%N, rest. split; [reflexivity|].
      rewrite string_app_cons. cbn [JSNumber.digits_value].
      change (JSString.is_digit "0") with true. cbn.
      now apply digits_value_stops.
    - rewrite <- pretty_go_app.
      destruct (pretty_go_digit_head (N.of_nat n) rest ltac:(lia)) as (d & tail & Hd).
      exists d, tail. split; [exact Hd|].
      rewrite digits_value_pretty. now apply digits_value_stops. }
  unfold JSNumber.parseInt10. rewrite Heq in *.
  cbn [trim_left]. rewrite (digit_no_space _ (pretty_char_is_digit d)).
  rewrite (digit_no_sign _ tail (pretty_char_is_digit d)).
  cbn [JSNumber.starts_with_digit]. rewrite pretty_char_is_digit, Hval.
  rewrite nat_N_Z. now rewrite round64_integer by lia.
Qed.

Section GenerationFacts.

Context {Blob FS : Type}.
Context `{Eng : !MediaEngine Blob FS} `{Br : !Browser Blob}.

Local Abbreviation St := (@State Blob FS).
Local Abbreviation Pg := (@Page Blob FS).

(** X20: the duration field is read as a whole number: the digits at the
    start of its value are the duration, for a number of at most [2 ^ 53],
    and what follows them is dropped ("2.5" is 2 seconds, and so is
    "2e1"); a field left empty makes the duration [NaN], which is what
    the next request then asks for (when there is no recording to take a
    frame of first). *)
Theorem typed_duration_is_cut (n : nat) (rest : string) (st : St) :
  (Z.of_nat n <= 2 ^ 53)%Z ->
  JSNumber.starts_with_digit rest = false ->
  duration (config (durationInput_onchange (JSString.of_nat n +:+ rest) st))
  = VNumber (JS.Fin (inject_Z (Z.of_nat n)))
  /\ duration (config (durationInput_onchange EmptyString st)) = VNumber JS.NaN
  /\ (recordedVideoBlob (config st) = None ->
      exists request,
        submitted (generate false (durationInput_onchange EmptyString st))
        = submitted st ++ [request]
        /\ gv_durationSeconds request = VNumber JS.NaN).
Proof.
  intros Hn Hrest. split; [|split].
  - unfold durationInput_onchange. cbn. now rewrite parseInt10_of_nat.
  - reflexivity.
  - intros Hrec. unfold generate, durationInput_onchange. cbn. rewrite Hrec. cbn.
    eexists. split; reflexivity.
Qed.

(** *** A run of [generate] *)

(** The polls and the start of the downloads leave the player, the
    object URLs and, the polls, the list of downloads alone. *)
Lemma polled_frame (later : list (nat * Operation)) (st : St) :
  video (polled later st) = video st
  /\ urls (polled later st) = urls st
  /\ pending_fetches (polled later st) = pending_fetches st
  /\ config (polled later st) = config st.
Proof.
  unfold polled. revert st.
  induction later as [|a later IH]; intros st; [repeat split|].
  cbn [fold_left]. destruct (IH (set_statusEl
    [ JS.PStr "Generating... (";
      JS.PStr (nth (fst a mod 6) progress_messages EmptyString);
      JS.PStr ")" ] st)) as (H1 & H2 & H3 & H4).
  rewrite H1, H2, H3, H4. repeat split.
Qed.

Lemma start_downloads_frame (videos : list GeneratedVideo) :
  forall st : St,
    video (fold_left (fun st v => start_download v st) videos st) = video st
    /\ urls (fold_left (fun st v => start_download v st) videos st) = urls st
    /\ config (fold_left (fun st v => start_download v st) videos st) = config st.
Proof.
  induction videos as [|v0 rest IH]; intros st; [repeat split|].
  cbn [fold_left]. destruct (IH (start_download v0 st)) as (H1 & H2 & H3).
  rewrite H1, H2, H3. unfold start_download. destruct (download_url v0); repeat split.
Qed.

(** [generate] from [await generateContent(...)] on, when the service
    comes to an end with videos. *)
Lemma generate_await_done (isPreview : bool)
    (first : Operation) (later : list (nat * Operation))
    (rest : list (nat * option Operation))
    (parse : string -> JSError.ApiError) (rejection : JSError.Thrown)
    (v : GeneratedVideo) (vs : list GeneratedVideo) (x : Pg) :
  Forall (fun operation => done operation = false)
         (removelast (first :: map snd later)) ->
  done (List.last (first :: map snd later) first) = true ->
  generatedVideos (List.last (first :: map snd later) first) = Some (v :: vs) ->
  let statusDone := JS.lit (if isPreview then "Preview ready." else "Done.") in
  exists x',
    generate_await isPreview (Some first) (answered later rest) parse rejection x
    = (x', Settled tt)
    /\ statusEl (page x') = statusDone
    /\ controls_disabled (config (page x')) = false
    /\ quotaError_shown x' = quotaError_shown x
    /\ video (page x') = video (page x)
    /\ urls (page x') = urls (page x)
    /\ pending_fetches (page x')
       = pending_fetches (page x) ++ omap download_url (v :: vs)
    /\ forall i url,
         pending_fetches (page x') !! i = Some url -> fetch_url url = None ->
         statusEl (download_completes i (page x')) = statusDone
         /\ video (download_completes i (page x')) = video (page x).
Proof.
  intros Hwait Hdone Hvideos. cbn zeta.
  unfold generate_await, generateContent.
  erewrite bind_value by (apply poll_run; eassumption).
  cbv beta iota. rewrite Hvideos. rewrite bind_modify.
  destruct (polled_frame later (page x)) as (Hv & Hu & Hp & _).
  pose proof (start_downloads_pending (v :: vs) (polled later (page x))) as Hstarted.
  destruct (start_downloads_frame (v :: vs) (polled later (page x))) as (Hv' & Hu' & _).
  remember (fold_left (fun st v => start_download v st) (v :: vs)
              (polled later (page x))) as st2 eqn:E.
  clear E. unfold Flow.ret. eexists. split; [reflexivity|]. cbn.
  split; [reflexivity|]. split; [reflexivity|]. split; [reflexivity|].
  split; [congruence|]. split; [congruence|].
  split; [rewrite Hstarted, Hp; reflexivity|].
  intros i url Hi Hfail. unfold download_completes. cbn. rewrite Hi, Hfail. cbn.
  split; [reflexivity | congruence].
Qed.

(** The same when the service comes to an end with no video. *)
Lemma generate_await_no_videos (isPreview : bool)
    (first : Operation) (later : list (nat * Operation))
    (rest : list (nat * option Operation))
    (parse : string -> JSError.ApiError) (rejection : JSError.Thrown) (x : Pg) :
  Forall (fun operation => done operation = false)
         (removelast (first :: map snd later)) ->
  done (List.last (first :: map snd later) first) = true ->
  generatedVideos (List.last (first :: map snd later) first) = None
  \/ generatedVideos (List.last (first :: map snd later) first) = Some [] ->
  parse "No videos generated" = JSError.NotJson ->
  exists x',
    generate_await isPreview (Some first) (answered later rest) parse rejection x
    = (x', Settled tt)
    /\ statusEl (page x') = JS.lit "No videos generated"
    /\ controls_disabled (config (page x')) = false
    /\ quotaError_shown x' = quotaError_shown x
    /\ video (page x') = video (page x)
    /\ pending_fetches (page x') = pending_fetches (page x).
Proof.
  intros Hwait Hdone Hvideos Hparse.
  unfold generate_await, generateContent.
  erewrite bind_value by (apply poll_run; eassumption).
  cbv beta iota.
  destruct (polled_frame later (page x)) as (Hv & _ & Hp & _).
  remember (polled later (page x)) as st1 eqn:E. clear E.
  assert (forall q : bool,
            generate_catch parse (thrown_by rejection (Flow.Error "No videos generated"))
              {| page := st1; quotaError_shown := q |}
            = {| page := set_statusEl (JS.lit "No videos generated") st1;
                 quotaError_shown := q |}) as Hcatch.
  { intros q. cbn [thrown_by]. unfold generate_catch.
    change (JSError.includes "network" (JSString.toLowerCase "No videos generated")
            || JSError.includes "failed to fetch"
                 (JSString.toLowerCase "No videos generated")) with false.
    cbv iota.
    change (JSError.match_GoogleGenAI_Error "No videos generated") with (@None string).
    cbv iota zeta. rewrite Hparse. reflexivity. }
  destruct Hvideos as [-> | ->]; unfold Flow.raise, on_page; cbn [page quotaError_shown];
    rewrite Hcatch; eexists; (split; [reflexivity|]); cbn; repeat split; assumption.
Qed.

(** What [generate] has done when it calls [generateContent], with no
    recording to take a frame of, or with the frame of the recording
    made: the player, the object URLs and the downloads are as before. *)
Lemma generate_run_await (isPreview : bool) (thumbnail : Blob -> Thumbnail)
    (first : option Operation) (answers : list (nat * option Operation))
    (parse : string -> JSError.ApiError) (rejection : JSError.Thrown) (x : Pg) :
  frame_is_made thumbnail (page x) ->
  exists x1,
    generate_run isPreview thumbnail first answers parse rejection x
    = generate_await isPreview first answers parse rejection x1
    /\ quotaError_shown x1 = false
    /\ video (page x1) = video (page x)
    /\ urls (page x1) = urls (page x)
    /\ pending_fetches (page x1) = pending_fetches (page x).
Proof.
  unfold frame_is_made, generate_run. cbn zeta. cbn [page].
  assert (recordedVideoBlob (config (generate isPreview (page x)))
          = recordedVideoBlob (config (page x))) as Hrec.
  { unfold generate. cbn.
    destruct (recordedVideoBlob (config (page x))) eqn:E; cbn; rewrite ?E; reflexivity. }
  rewrite Hrec.
  destruct (recordedVideoBlob (config (page x))) as [blob|] eqn:Hblob.
  - intros [fullDataUrl ->]. eexists. split; [reflexivity|].
    unfold generate. cbn. rewrite Hblob. repeat split.
  - intros _. eexists. split; [reflexivity|].
    unfold generate. cbn. rewrite Hblob. repeat split.
Qed.

(** X21: "Done." comes before the video.  When the service has made one
    video or more, at once or after any number of polls, [generate] runs
    to its end as soon as the downloads are started: the status says that
    the video is done (or the preview ready) and the controls are enabled
    while the player still has the source it had, and a download that
    fails afterwards changes neither the status nor the player.  (There
    is no recording to take a frame of, or the frame is made.) *)
Theorem done_is_shown_before_the_video (isPreview : bool) (thumbnail : Blob -> Thumbnail)
    (first : Operation) (later : list (nat * Operation))
    (rest : list (nat * option Operation))
    (parse : string -> JSError.ApiError) (rejection : JSError.Thrown)
    (v : GeneratedVideo) (vs : list GeneratedVideo) (x : Pg) :
  let operations := first :: map snd later in
  let final := List.last operations first in
  frame_is_made thumbnail (page x) ->
  Forall (fun operation => done operation = false) (removelast operations) ->
  done final = true ->
  generatedVideos final = Some (v :: vs) ->
  let statusDone := JS.lit (if isPreview then "Preview ready." else "Done.") in
  exists x',
    generate_run isPreview thumbnail (Some first) (answered later rest) parse rejection x
    = (x', Settled tt)
    /\ statusEl (page x') = statusDone
    /\ controls_disabled (config (page x')) = false
    /\ quotaError_shown x' = false
    /\ video (page x') = video (page x)
    /\ urls (page x') = urls (page x)
    /\ pending_fetches (page x')
       = pending_fetches (page x) ++ omap download_url (v :: vs)
    /\ forall i url,
         pending_fetches (page x') !! i = Some url -> fetch_url url = None ->
         statusEl (download_completes i (page x')) = statusDone
         /\ video (download_completes i (page x')) = video (page x).
Proof.
  cbn zeta. intros Hframe Hwait Hdone Hvideos.
  destruct (generate_run_await isPreview thumbnail (Some first) (answered later rest)
              parse rejection x Hframe) as (x1 & -> & Hq & Hv & Hu & Hp).
  destruct (generate_await_done isPreview first later rest parse rejection v vs x1
              Hwait Hdone Hvideos)
    as (x' & Hrun & Hstatus & Hcontrols & Hquota & Hv' & Hu' & Hp' & Hfail).
  exists x'. split; [exact Hrun|]. split; [exact Hstatus|]. split; [exact Hcontrols|].
  split; [congruence|]. split; [congruence|]. split; [congruence|].
  split; [rewrite Hp', Hp; reflexivity|].
  intros i url Hi Hnone. destruct (Hfail i url Hi Hnone) as [H1 H2].
  split; [exact H1 | congruence].
Qed.

(** X22: a service that makes no video.  When the service comes to its
    end, at once or after any number of polls, with no video, [generate]
    runs to its end with the status "No videos generated" ([JSON.parse]
    does not take this text), the controls enabled, the quota panel
    hidden, no download started and the player as it was.  (There is no
    recording to take a frame of, or the frame is made.) *)
Theorem no_videos_is_reported (isPreview : bool) (thumbnail : Blob -> Thumbnail)
    (first : Operation) (later : list (nat * Operation))
    (rest : list (nat * option Operation))
    (parse : string -> JSError.ApiError) (rejection : JSError.Thrown) (x : Pg) :
  let operations := first :: map snd later in
  let final := List.last operations first in
  frame_is_made thumbnail (page x) ->
  Forall (fun operation => done operation = false) (removelast operations) ->
  done final = true ->
  generatedVideos final = None \/ generatedVideos final = Some [] ->
  parse "No videos generated" = JSError.NotJson ->
  exists x',
    generate_run isPreview thumbnail (Some first) (answered later rest) parse rejection x
    = (x', Settled tt)
    /\ statusEl (page x') = JS.lit "No videos generated"
    /\ controls_disabled (config (page x')) = false
    /\ quotaError_shown x' = false
    /\ video (page x') = video (page x)
    /\ pending_fetches (page x') = pending_fetches (page x).
Proof.
  cbn zeta. intros Hframe Hwait Hdone Hvideos Hparse.
  destruct (generate_run_await isPreview thumbnail (Some first) (answered later rest)
              parse rejection x Hframe) as (x1 & -> & Hq & Hv & _ & Hp).
  destruct (generate_await_no_videos isPreview first later rest parse rejection x1
              Hwait Hdone Hvideos Hparse)
    as (x' & Hrun & Hstatus & Hcontrols & Hquota & Hv' & Hp').
  exists x'. split; [exact Hrun|]. split; [exact Hstatus|]. split; [exact Hcontrols|].
  split; [congruence|]. split; congruence.
Qed.

End GenerationFacts.

(* ===================================================================== *)
(** ** The properties on concrete sessions *)
(* ===================================================================== *)

Local Existing Instance Ref.engine.
Local Existing Instance Ref.browser.

(** C1, as stated, fails: with the editor open on a clip of 10 seconds,
    [trimVideo(2, 5)] leaves a video of 3 seconds and a trim range that
    still reads [2, 5], not [0, 3]. *)
Lemma trim_2_5_leaves_range_2_5 :
  let st := video_onloadedmetadata
              (fst (tools_trimVideo (Some (Ref.trim_args 2 5)) (Ref.open_editor 10))) in
  video_duration (video st) = JS.Fin 3
  /\ trimStart st = JS.Fin 2
  /\ trimEnd st = JS.Fin 5
  /\ ~ (isEditorOpen (editor st) = true
        /\ trimStart st = JS.Fin 0 /\ trimEnd st = JS.Fin 3).
Proof.
  cbn zeta. split; [vm_compute; reflexivity|].
  split; [vm_compute; reflexivity|]. split; [vm_compute; reflexivity|].
  intros (_ & H & _). vm_compute in H. discriminate H.
Qed.

(** [edit_then_trim_range] on that trim. *)
Lemma edit_then_trim_range_witness :
  edit_succeeds EditTrim (Ref.with_range 2 5 (Ref.open_editor 10)) 3%Q
  /\ trimStart (apply_edit EditTrim (Ref.with_range 2 5 (Ref.open_editor 10))) = JS.Fin 2
  /\ trimEnd (apply_edit EditTrim (Ref.with_range 2 5 (Ref.open_editor 10))) = JS.Fin 5.
Proof.
  assert (edit_succeeds EditTrim (Ref.with_range 2 5 (Ref.open_editor 10)) 3%Q) as Hok.
  { exists (fst (Ref.load Ref.fresh)), 10%Q, (trim_command (JS.Fin 2) (JS.Fin 5)).
    do 2 eexists. repeat split; vm_compute; reflexivity. }
  split; [exact Hok|].
  destruct (edit_then_trim_range EditTrim _ _ Hok) as (_ & Hs & He & _).
  split; [rewrite Hs | rewrite He]; vm_compute; reflexivity.
Defined.

(** C5, as stated, fails: on a clip of no duration the editor opens with
    both bounds at 0, and after the start slider is moved its clamp, which
    stops at 0, leaves the start equal to the end. *)
Lemma start_slider_on_empty_clip_leaves_equal_bounds :
  let st := mutate_trim (MoveStartSlider (JS.Fin 0)) (Ref.open_editor 0) in
  JS.lt (trimStart st) (trimEnd st) = false
  /\ JS.ge (trimStart st) (trimEnd st) = true
  /\ JS.lt (readStart st) (readEnd st) = false.
Proof. cbn zeta. repeat split; vm_compute; reflexivity. Qed.

(** [trim_mutation_restores_order] on a start slider dragged past the
    end: the start is put at 4.9, below the end at 5. *)
Lemma trim_mutation_restores_order_witness :
  has_room (MoveStartSlider (JS.Fin 7)) (Ref.with_range 2 5 (Ref.open_editor 10)) = true
  /\ JS.lt (readStart (mutate_trim (MoveStartSlider (JS.Fin 7))
                         (Ref.with_range 2 5 (Ref.open_editor 10))))
           (readEnd (mutate_trim (MoveStartSlider (JS.Fin 7))
                       (Ref.with_range 2 5 (Ref.open_editor 10)))) = true.
Proof.
  split; [vm_compute; reflexivity|].
  apply trim_mutation_restores_order. vm_compute; reflexivity.
Defined.

(** The numbers of that run: the slider reads 4.9, the Number nearest to
    it is what the program computes with. *)
Lemma start_slider_dragged_past_end :
  let st := mutate_trim (MoveStartSlider (JS.Fin 7))
              (Ref.with_range 2 5 (Ref.open_editor 10)) in
  trimStart st = JS.Fin (49 # 10)
  /\ readStart st = JS.Fin (2758454771764429 # 562949953421312)
  /\ readEnd st = JS.Fin 5.
Proof. cbn zeta. repeat split; vm_compute; reflexivity. Qed.

(** Where the rounding leaves no room: with both bounds at [2 ^ 53], a
    tenth below the end is the end again, and the start slider stays on
    the end. *)
Lemma start_slider_at_2_53_leaves_equal_bounds :
  let st := mutate_trim (MoveStartSlider (JS.Fin 9007199254740992))
              (Ref.open_editor 9007199254740992) in
  JS.sub (JS.Fin 9007199254740992) JS.tenth = JS.Fin 9007199254740992
  /\ JS.lt (readStart st) (readEnd st) = false.
Proof. cbn zeta. split; vm_compute; reflexivity. Qed.

(** Where the duration is no number: after an effect, until the metadata
    of the new video is loaded, [video.duration] is [NaN], and a start
    typed into the numeric input makes the start slider [NaN]. *)
Lemma start_input_before_metadata_leaves_NaN :
  let st := mutate_trim (TypeStartTime (JS.Fin 1))
              (handleApplyEffect (Ref.with_effect "slowmo" (Ref.open_editor 10))) in
  trimStart st = JS.NaN /\ JS.lt (readStart st) (readEnd st) = false.
Proof. cbn zeta. split; vm_compute; reflexivity. Qed.

(** C4, as stated, fails: with an engine that never got loaded, the fade
    on a clip of 1 second ends in the general effect error, not in the
    message that the clip is too short. *)
Lemma fade_on_short_clip_with_unloaded_engine :
  let st := Ref.with_unloaded_engine (Ref.with_effect "fade" (Ref.open_editor 1)) in
  JS.lt (video_duration (video st)) JS.two = true
  /\ selected (effectsSelect (editor st)) = "fade"
  /\ statusEl (handleApplyEffect st)
     = JS.lit "An error occurred while applying the effect."
  /\ statusEl (handleApplyEffect st) <> JS.lit "Video is too short for a fade effect.".
Proof.
  cbn zeta. repeat split; try (vm_compute; reflexivity).
  intros H. vm_compute in H. discriminate H.
Qed.

(** [fade_on_short_clip] on a clip of 1 second, the engine loaded. *)
Lemma fade_on_short_clip_witness :
  (ffmpeg (Ref.with_effect "fade" (Ref.open_editor 1)) = Some (fst (Ref.load Ref.fresh))
   /\ src_truthy (video_src (video (Ref.with_effect "fade" (Ref.open_editor 1)))) = true
   /\ selected (effectsSelect (editor (Ref.with_effect "fade" (Ref.open_editor 1)))) = "fade"
   /\ JS.lt (video_duration (video (Ref.with_effect "fade" (Ref.open_editor 1)))) JS.two
      = true)
  /\ statusEl (handleApplyEffect (Ref.with_effect "fade" (Ref.open_editor 1)))
     = JS.lit "Video is too short for a fade effect."
  /\ video (handleApplyEffect (Ref.with_effect "fade" (Ref.open_editor 1)))
     = video (Ref.with_effect "fade" (Ref.open_editor 1)).
Proof.
  assert (ffmpeg (Ref.with_effect "fade" (Ref.open_editor 1))
          = Some (fst (Ref.load Ref.fresh))) as H1 by (vm_compute; reflexivity).
  assert (src_truthy (video_src (video (Ref.with_effect "fade" (Ref.open_editor 1))))
          = true) as H2 by (vm_compute; reflexivity).
  assert (selected (effectsSelect (editor (Ref.with_effect "fade" (Ref.open_editor 1))))
          = "fade") as H3 by (vm_compute; reflexivity).
  assert (JS.lt (video_duration (video (Ref.with_effect "fade" (Ref.open_editor 1))))
            JS.two = true) as H4 by (vm_compute; reflexivity).
  split; [repeat split; assumption|].
  destruct (fade_on_short_clip _ _ H1 H2 H3 H4) as (Hv & _ & _ & Hs).
  split; [rewrite Hs; vm_compute; reflexivity | exact Hv].
Defined.

(** [dispatcher_confirms_failed_edits] on [trimVideo(2, 5)] with an engine
    that rejects every command: the trim fails, the video stays, and the
    dispatcher answers that the video was trimmed. *)
Lemma dispatcher_confirms_failed_edits_witness :
  (isEditorOpen (editor (Ref.open_editor 10)) = true
   /\ valid_request (TrimRequest (JS.Fin 2) (JS.Fin 5)) (Ref.open_editor 10) = true)
  /\ snd (dispatch (Eng := Ref.broken_engine) (TrimRequest (JS.Fin 2) (JS.Fin 5))
            (Ref.open_editor 10))
     = Flow.Value (TText (JS.lit "Video trimmed successfully."))
  /\ video (fst (dispatch (Eng := Ref.broken_engine) (TrimRequest (JS.Fin 2) (JS.Fin 5))
                   (Ref.open_editor 10)))
     = video (Ref.open_editor 10)
  /\ statusEl (fst (dispatch (Eng := Ref.broken_engine) (TrimRequest (JS.Fin 2) (JS.Fin 5))
                      (Ref.open_editor 10)))
     = JS.lit "An error occurred during trimming.".
Proof.
  assert (isEditorOpen (editor (Ref.open_editor 10)) = true) as H1
    by (vm_compute; reflexivity).
  assert (valid_request (TrimRequest (JS.Fin 2) (JS.Fin 5)) (Ref.open_editor 10) = true)
    as H2 by (vm_compute; reflexivity).
  split; [split; assumption|].
  destruct (dispatcher_confirms_failed_edits (Eng := Ref.broken_engine) _ _ H1 H2)
    as (Hr & Hfail).
  split; [exact Hr|]. split; [|vm_compute; reflexivity].
  apply Hfail. intros b (fs & file & command & fs1 & fs2 & _ & _ & _ & _ & Hx & _).
  discriminate Hx.
Defined.

(** [merge_click] on a bin with clips of 4 and 6 seconds: the merge
    succeeds, the video is the clip of 10 seconds, the bin is empty. *)
Lemma merge_click_witness :
  merge_succeeds Ref.two_in_bin (4 + (6 + 0))%Q
  /\ resource (video_src (video (mergeVideosButton_onclick Ref.two_in_bin)))
              (mergeVideosButton_onclick Ref.two_in_bin) = Some (4 + (6 + 0))%Q
  /\ mergeBin (mergeVideosButton_onclick Ref.two_in_bin) = [].
Proof.
  assert (merge_succeeds Ref.two_in_bin (4 + (6 + 0))%Q) as Hok.
  { exists (fst (Ref.load Ref.fresh)). do 3 eexists.
    repeat split; vm_compute; reflexivity. }
  split; [exact Hok|].
  pose proof (merge_click Ref.two_in_bin) as H. cbn zeta in H.
  change ((List.length (mergeBin Ref.two_in_bin) <? 2)%nat) with false in H.
  destruct H as [Hsucc _]. destruct (Hsucc _ Hok) as (Hres & Hbin & _).
  split; [exact Hres | exact Hbin].
Defined.

(** C2, as stated, fails: when the response holds two videos and their
    downloads complete in the order of the response, the video that stays
    in the player is the second one, not the first. *)
Lemma second_video_replaces_first :
  let st := fst (generateContent (Some Ref.two_videos) [] Ref.empty_session) in
  let st' := download_completes 0 (download_completes 0 st) in
  pending_fetches st = ["a&key=k"; "bb&key=k"]
  /\ resource (video_src (video st')) st' = fetch_url "bb&key=k"
  /\ resource (video_src (video st')) st' <> fetch_url "a&key=k".
Proof.
  cbn zeta. split; [vm_compute; reflexivity|]. split; [vm_compute; reflexivity|].
  intros H. vm_compute in H. discriminate H.
Qed.

(** [generation_uses_every_video] on that response, come after two
    polls. *)
Lemma generation_uses_every_video_witness :
  (Forall (fun operation => done operation = false)
     (removelast (Ref.in_progress :: map snd [(3, Ref.in_progress); (7, Ref.two_videos)]))
   /\ done (List.last
              (Ref.in_progress :: map snd [(3, Ref.in_progress); (7, Ref.two_videos)])
              Ref.in_progress) = true)
  /\ pending_fetches
       (fst (generateContent (Some Ref.in_progress)
               (answered [(3, Ref.in_progress); (7, Ref.two_videos)] [])
               Ref.empty_session))
     = ["a&key=k"; "bb&key=k"].
Proof.
  assert (Forall (fun operation => done operation = false)
            (removelast (Ref.in_progress
                           :: map snd [(3, Ref.in_progress); (7, Ref.two_videos)])))
    as Hwait by (repeat constructor).
  split; [split; [exact Hwait | reflexivity]|].
  pose proof (generation_uses_every_video Ref.in_progress
                [(3, Ref.in_progress); (7, Ref.two_videos)] [] Ref.empty_session
                Hwait eq_refl) as H.
  cbn [map List.last generatedVideos Ref.two_videos] in H. cbn zeta in H.
  destruct H as (Hrun & Hpending & _).
  rewrite Hrun. cbn [fst]. rewrite Hpending. vm_compute. reflexivity.
Defined.

(** The status line during that run: the message of the second poll. *)
Lemma status_after_two_polls :
  statusEl (fst (generateContent (Some Ref.in_progress)
                   (answered [(3, Ref.in_progress); (7, Ref.two_videos)] [])
                   Ref.empty_session))
  = [ JS.PStr "Generating... ("; JS.PStr "Warming up the digital canvas...";
      JS.PStr ")" ].
Proof. vm_compute. reflexivity. Qed.

(** [dispatcher_never_throws] on [trimVideo(5, 2)] with the editor open on
    a clip of 10 seconds: the times are out of order, the answer says so
    and the session is as before. *)
Lemma dispatcher_never_throws_witness :
  (tools !! "trimVideo" = Some tools_trimVideo
   /\ declared_args "trimVideo" (Some (Ref.trim_args 5 2)))
  /\ tools_trimVideo (Some (Ref.trim_args 5 2)) (Ref.open_editor 10)
     = (Ref.open_editor 10,
        Flow.Value (TText
          [ JS.PStr "Invalid trim times. Start time must be less than end time and within the video bounds (0-";
            JS.PFix1 (JS.Fin 10); JS.PStr "s)." ])).
Proof.
  assert (tools !! "trimVideo" = Some tools_trimVideo) as H1 by reflexivity.
  assert (declared_args "trimVideo" (Some (Ref.trim_args 5 2))) as H2.
  { repeat split; try discriminate; eexists; reflexivity. }
  split; [split; assumption|].
  destruct (dispatcher_never_throws "trimVideo" tools_trimVideo
              (Some (Ref.trim_args 5 2)) (Ref.open_editor 10) H1 H2) as [_ Hreject].
  apply Hreject. vm_compute. reflexivity.
Defined.

(** Without its declared argument an operation can throw: [setDuration]
    called without [newDuration] ends in a [TypeError]. *)
Lemma setDuration_without_argument_throws :
  snd (tools_setDuration (Some no_args) Ref.empty_session) = Flow.Raise Flow.TypeError.
Proof. reflexivity. Qed.

(** [setQuality_sets_resolution] on the quality "high". *)
Lemma setQuality_sets_resolution_witness :
  newQuality (Ref.quality_args "high") = Some "high"
  /\ resolution (config (fst (tools_setQuality (Some (Ref.quality_args "high"))
                                Ref.empty_session)))
     = VString "1080p".
Proof.
  split; [reflexivity|].
  destruct (setQuality_sets_resolution Ref.empty_session (Ref.quality_args "high") "high"
              eq_refl) as (_ & _ & Hhigh & _).
  apply Hhigh. reflexivity.
Defined.

Local Existing Instance Ref.scripted.

(** The loop on an inherited name, from end to end: the model asks for
    "constructor", then answers in text.  The chat shows a tool call and
    the answer, no error, and the model was sent two messages. *)
Lemma constructor_is_run_as_a_tool :
  match sendMessage 2 (Ref.agent Ref.empty_session "hi"
                         [call_response "constructor" (Some no_args); Ref.says "Done."])
  with
  | Settled x =>
      chatWindow x = [ UserBubble "hi"; ToolBubble "constructor" (Some no_args);
                       AgentBubble (Some "Done.") ]
      /\ sent x = [ UserMessage "hi"; FunctionResponse "constructor" TObject ]
  | Pending => False
  end.
Proof. vm_compute. split; reflexivity. Qed.

(** The loop on a name nothing is found for: the error is shown and the
    model is not sent anything more. *)
Lemma unknown_tool_is_reported :
  match sendMessage 2 (Ref.agent Ref.empty_session "hi"
                         [call_response "makeCoffee" (Some no_args); Ref.says "Done."])
  with
  | Settled x =>
      chatWindow x = [ UserBubble "hi";
                       AgentBubble (Some (unknown_tool_message "makeCoffee"));
                       AgentBubble None ]
      /\ sent x = [ UserMessage "hi" ]
  | Pending => False
  end.
Proof. vm_compute. split; reflexivity. Qed.

(** The effect half of [edit_then_trim_range], run: slow motion on a clip
    of 10 seconds leaves the editor open on a clip of 20 seconds with the
    trim range [0, 20]. *)
Lemma slowmo_resets_range_to_0_20 :
  let st := video_onloadedmetadata
              (handleApplyEffect (Ref.with_effect "slowmo" (Ref.open_editor 10))) in
  isEditorOpen (editor st) = true
  /\ video_duration (video st) = JS.Fin 20
  /\ trimStart st = JS.Fin 0
  /\ trimEnd st = JS.Fin 20.
Proof. cbn zeta. repeat split; vm_compute; reflexivity. Qed.

(** The failure half of [merge_click], run: with an engine that rejects
    the concat command the two clips stay in the bin and the player stays
    empty. *)
Lemma failed_merge_keeps_bin :
  mergeBin (mergeVideosButton_onclick (Eng := Ref.broken_engine) Ref.two_in_bin)
  = [Ref.clip 4; Ref.clip 6]
  /\ video_src (video (mergeVideosButton_onclick (Eng := Ref.broken_engine)
                         Ref.two_in_bin)) = SrcEmpty
  /\ statusEl (mergeVideosButton_onclick (Eng := Ref.broken_engine) Ref.two_in_bin)
     = JS.lit "An error occurred during merging.".
Proof. repeat split; vm_compute; reflexivity. Qed.

(** C3, where the code departs from it: a concat that fails is taken for
    a merge.  [ffmpeg.exec] resolves when FFmpeg fails, with an exit code
    the click listener does not read, and nothing deletes the [output.mp4]
    an earlier edit has left in the engine.  After a trim of the saved
    clip, with the clip of 7 seconds in the player again and twice in the
    bin, the click writes the two clips as [input0.mp4] and [input1.mp4],
    lists them in that order and runs the concat command; the concat
    fails and writes nothing, and the click puts the 5 seconds of the
    trim into the player, empties the bin and reports a success. *)
Theorem failed_concat_is_taken_for_a_merge :
  let st := studio (perform_all_in_library
                      (Eng := RefLibrary.engine_failing_concat)
                      (Idb := RefLibrary.database)
                      RefLibrary.trim_then_fill_bin RefLibrary.at_startup) in
  let st' := perform (Eng := RefLibrary.engine_failing_concat) ClickMerge st in
  let beach := {| clip_id := Some 1; clip_name := "Beach"; clip_blob := 7%Q;
                  clip_thumbnail := "data:image/jpeg;base64,AA" |} in
  (resource (video_src (video st)) st = Some 7%Q
   /\ mergeBin st = [beach; beach]
   /\ mergeVideosButton_disabled st = false
   /\ ffmpeg st = Some {| Ref.input := Some 7%Q; Ref.inputs := [];
                          Ref.output := Some 5%Q; Ref.loaded := true |})
  /\ engine_calls st'
     = engine_calls st ++
       [ CallWriteFile [JS.PStr "input"; JS.PNum (JS.Fin 0); JS.PStr ".mp4"] (FBlob 7%Q);
         CallWriteFile [JS.PStr "input"; JS.PNum (JS.Fin 1); JS.PStr ".mp4"] (FBlob 7%Q);
         CallWriteFile (JS.lit "mylist.txt")
           (FText [ JS.PStr "file '"; JS.PStr "input"; JS.PNum (JS.Fin 0);
                    JS.PStr ".mp4"; JS.PStr ("'" ++ JS.newline);
                    JS.PStr "file '"; JS.PStr "input"; JS.PNum (JS.Fin 1);
                    JS.PStr ".mp4"; JS.PStr ("'" ++ JS.newline) ]);
         CallExec (map JS.lit [ "-f"; "concat"; "-safe"; "0"; "-i"; "mylist.txt";
                                "-c"; "copy"; "output.mp4" ]);
         CallReadFile (JS.lit "output.mp4") ]
  /\ ffmpeg st' = Some {| Ref.input := Some 7%Q; Ref.inputs := [7%Q; 7%Q];
                          Ref.output := Some 5%Q; Ref.loaded := true |}
  /\ resource (video_src (video st')) st' = Some 5%Q
  /\ mergeBin st' = []
  /\ statusEl st' = JS.lit "Merge successful!".
Proof. cbn zeta. repeat split; vm_compute; reflexivity. Qed.

(* ===================================================================== *)
(** ** The rest of the page on concrete sessions *)
(* ===================================================================== *)

Local Existing Instance RefLibrary.database.

(** [formatTime_tells_times_apart] on 59 and 60 seconds. *)
Lemma formatTime_tells_times_apart_witness :
  59 <> 60 /\ formatTime 59 <> formatTime 60.
Proof. split; [lia | apply formatTime_tells_times_apart; lia]. Defined.

(** [formatTime_below_100_minutes] on 75 seconds. *)
Lemma formatTime_below_100_minutes_witness :
  75 < 100 * 60 /\ formatTime 75 = "01:15".
Proof.
  split; [lia|].
  rewrite (formatTime_below_100_minutes 75) by lia. reflexivity.
Defined.

(** The texts of 59 and 60 seconds. *)
Lemma formatTime_59_60 : formatTime 59 = "00:59" /\ formatTime 60 = "01:00".
Proof. split; vm_compute; reflexivity. Qed.

(** [timer_text_while_recording] twelve ticks into a recording. *)
Lemma timer_text_while_recording_witness :
  Recording.isVideoRecording
    (Recording.run RefLibrary.twelve_seconds_in Recording.initial) = true
  /\ recordingTimer (Recording.run RefLibrary.twelve_seconds_in Recording.initial)
     = "00:12".
Proof.
  split; [reflexivity|].
  destruct (RecordingDisplay.timer_text_while_recording RefLibrary.twelve_seconds_in
              eq_refl) as [_ H].
  rewrite H. reflexivity.
Defined.

(** [upload_cancels_timer_not_recording] on a file chosen twelve ticks
    into a recording: however long the user waits, the recording stays on
    and its recorder is never stopped. *)
Lemma upload_cancels_timer_not_recording_witness :
  let r := Recording.run RefLibrary.twelve_seconds_in Recording.initial in
  (Recording.isVideoRecording r = true
   /\ Recording.recordingTimerInterval r = Some 1%positive
   /\ forall t', In t' (Recording.timers r) -> t' = 1%positive)
  /\ let r' := Recording.run (Recording.UploadChange :: repeat (Recording.TimerFires 1) 40) r in
     Recording.isVideoRecording r' = true /\ Recording.stopped r' = [].
Proof.
  cbn zeta.
  assert (forall t', In t' (Recording.timers
            (Recording.run RefLibrary.twelve_seconds_in Recording.initial))
          -> t' = 1%positive) as Honly.
  { intros t' [<-|[]]. reflexivity. }
  split; [split; [reflexivity | split; [reflexivity | exact Honly]]|].
  destruct (RecordingUpload.upload_cancels_timer_not_recording
              (Recording.run RefLibrary.twelve_seconds_in Recording.initial) 1%positive
              eq_refl eq_refl Honly) as (Hon & _ & Hstopped & Hticks).
  change (Recording.run (Recording.UploadChange :: repeat (Recording.TimerFires 1) 40)
            (Recording.run RefLibrary.twelve_seconds_in Recording.initial))
    with (Recording.run (map Recording.TimerFires (repeat 1%positive 40))
            (Recording.handle Recording.UploadChange
               (Recording.run RefLibrary.twelve_seconds_in Recording.initial))).
  rewrite Hticks. split; [exact Hon | rewrite Hstopped; reflexivity].
Defined.

(** [second_start_leaves_first_recorder_running] on two clicks: recorder 0
    and recorder 1 are started, and nothing the user does afterwards stops
    recorder 0. *)
Lemma second_start_leaves_first_recorder_running_witness :
  2 <= Recording.pending_starts (Recording.run RefLibrary.two_clicks Recording.initial)
  /\ ~ In 0 (Recording.stopped
               (Recording.run RefLibrary.everything_after
                  (Recording.run [Recording.GetUserMediaResolves;
                                  Recording.GetUserMediaResolves]
                     (Recording.run RefLibrary.two_clicks Recording.initial)))).
Proof.
  assert (2 <= Recording.pending_starts
                 (Recording.run RefLibrary.two_clicks Recording.initial)) as H.
  { cbn. lia. }
  split; [exact H|].
  exact (proj2 (RecordingUpload.second_start_leaves_first_recorder_running
                  RefLibrary.two_clicks RefLibrary.everything_after H)).
Defined.

(** The second recorder is stopped in that run. *)
Lemma second_recorder_is_stopped :
  Recording.stopped
    (Recording.run RefLibrary.everything_after
       (Recording.run [Recording.GetUserMediaResolves; Recording.GetUserMediaResolves]
          (Recording.run RefLibrary.two_clicks Recording.initial))) = [1; 1].
Proof. vm_compute. reflexivity. Qed.

(** [download_name_is_safe] on a prompt with capitals, a comma and an
    exclamation mark. *)
Lemma download_name_is_safe_witness :
  (src_truthy (SrcBlob 0) = true
   /\ prompt (config (promptEl_oninput "  A Cat,  flying! " (Ref.session_with_video 5)))
      = VString "  A Cat,  flying! "
   /\ JSString.ascii_text "  A Cat,  flying! " = true)
  /\ exists stem,
       downloadButton_onclick (SrcBlob 0)
         (promptEl_oninput "  A Cat,  flying! " (Ref.session_with_video 5))
       = Flow.Value {| href := SrcBlob 0; download := stem +:+ ".mp4" |}
       /\ safe_name stem = true
       /\ 1 <= String.length stem <= 50.
Proof.
  split; [repeat split|].
  exact (download_name_is_safe (SrcBlob 0)
           (promptEl_oninput "  A Cat,  flying! " (Ref.session_with_video 5))
           "  A Cat,  flying! " eq_refl eq_refl eq_refl).
Defined.

(** The name that prompt gives, and the name no prompt gives. *)
Lemma download_names :
  downloadButton_onclick (SrcBlob 0)
    (promptEl_oninput "  A Cat,  flying! " (Ref.session_with_video 5))
  = Flow.Value {| href := SrcBlob 0; download := "a-cat-flying.mp4" |}
  /\ downloadButton_onclick (SrcBlob 0) (Ref.session_with_video 5)
     = Flow.Value {| href := SrcBlob 0; download := "veo-generated-video.mp4" |}.
Proof. split; vm_compute; reflexivity. Qed.

(** [safe_prompt_is_kept] on a name that is safe. *)
Lemma safe_prompt_is_kept_witness :
  (safe_name "a-cat-2" = true /\ 1 <= String.length "a-cat-2" <= 50)
  /\ download_filename "a-cat-2" = "a-cat-2".
Proof.
  assert (1 <= String.length "a-cat-2" <= 50) as Hlen by (cbn; lia).
  split; [split; [reflexivity | exact Hlen]|].
  exact (proj2 (safe_prompt_is_kept "a-cat-2" eq_refl Hlen)).
Defined.

(** The page at start-up is consistent. *)
Lemma at_startup_consistent : consistent (studio RefLibrary.at_startup).
Proof.
  split; [reflexivity | repeat split | | reflexivity].
  unfold held_url. cbn. apply empty_subseteq.
Qed.

(** [session_stays_consistent] on a session of the user and the agent. *)
Lemma session_stays_consistent_witness :
  consistent (studio RefLibrary.at_startup)
  /\ let st' := studio (perform_all_in_library RefLibrary.busy_session
                          RefLibrary.at_startup) in
     timeupdate_listener (video st') = isEditorOpen (editor st')
     /\ applyTrimButton_disabled (editor st') = false
     /\ callable (prompt (config st')) = false.
Proof.
  split; [exact at_startup_consistent|].
  destruct (session_stays_consistent RefLibrary.busy_session RefLibrary.at_startup
              at_startup_consistent) as (H1 & H2 & _ & _ & _ & H6).
  repeat split; assumption.
Defined.

(** [save_button_never_saves] at the end of that session: there is a
    video in the player, the user gives a name, and nothing is saved. *)
Lemma save_button_never_saves_witness :
  consistent (studio RefLibrary.at_startup)
  /\ let x := perform_all_in_library RefLibrary.busy_session RefLibrary.at_startup in
     saveClipButton_onclick (VString "mine") RefLibrary.thumbnail x
     = (x, Flow.Raise Flow.TypeError).
Proof.
  split; [exact at_startup_consistent|]. cbn zeta.
  rewrite (save_button_never_saves RefLibrary.busy_session RefLibrary.at_startup
             (VString "mine") RefLibrary.thumbnail at_startup_consistent).
  reflexivity.
Defined.

(** Were [prompt] a function, as the listener takes it to be, the clip
    would be saved: the model of the listener does save. *)
Lemma save_with_a_callable_prompt :
  let x := RefLibrary.library
             (Ref.session_with_video 5 |> on_config (set_prompt (VBuiltin "valueOf"))) in
  let x' := fst (saveClipButton_onclick (VString " mine ") RefLibrary.thumbnail x) in
  map clip_name (myClips x') = ["Beach"; "mine"]
  /\ statusEl (studio x') = JS.lit "Clip saved!".
Proof. cbn zeta. split; vm_compute; reflexivity. Qed.



(** [edit_recycles_object_url] on the trim to [2, 5] of a clip of 10
    seconds: URL 0 is revoked and URL 1 is made for the 3 seconds left. *)
Lemma edit_recycles_object_url_witness :
  edit_succeeds EditTrim (Ref.with_range 2 5 (Ref.open_editor 10)) 3%Q
  /\ video_src (video (apply_edit EditTrim (Ref.with_range 2 5 (Ref.open_editor 10))))
     = SrcBlob 1
  /\ urls (apply_edit EditTrim (Ref.with_range 2 5 (Ref.open_editor 10))) !! 0 = None.
Proof.
  assert (edit_succeeds EditTrim (Ref.with_range 2 5 (Ref.open_editor 10)) 3%Q) as Hok.
  { exists (fst (Ref.load Ref.fresh)), 10%Q, (trim_command (JS.Fin 2) (JS.Fin 5)).
    do 2 eexists. repeat split; vm_compute; reflexivity. }
  split; [exact Hok|].
  destruct (edit_recycles_object_url EditTrim _ _ Hok) as (new & _ & Hsrc & Hurls).
  assert (video_src (video (apply_edit EditTrim
                              (Ref.with_range 2 5 (Ref.open_editor 10)))) = SrcBlob 1)
    as Hrun by (vm_compute; reflexivity).
  split; [exact Hrun|].
  rewrite Hrun in Hsrc. injection Hsrc as <-.
  rewrite Hurls. vm_compute. reflexivity.
Defined.

(** [download_never_revokes] on the first of two downloads, with a clip
    in the player: the clip keeps its URL 0, the video gets URL 1. *)
Lemma download_never_revokes_witness :
  let st := fst (generateContent (Some Ref.two_videos) [] (Ref.session_with_video 5)) in
  (pending_fetches st !! 0 = Some "a&key=k" /\ fetch_url "a&key=k" = Some 7%Q)
  /\ video_src (video (download_completes 0 st)) = SrcBlob 1
  /\ urls (download_completes 0 st) !! 0 = Some 5%Q.
Proof.
  cbn zeta.
  assert (pending_fetches
            (fst (generateContent (Some Ref.two_videos) [] (Ref.session_with_video 5)))
          !! 0 = Some "a&key=k") as Hpending by (vm_compute; reflexivity).
  assert (fetch_url "a&key=k" = Some 7%Q) as Hfetch by (vm_compute; reflexivity).
  split; [split; assumption|].
  destruct (download_never_revokes 0 _ "a&key=k" 7%Q Hpending Hfetch)
    as (new & _ & _ & _ & Hkept).
  split; [vm_compute; reflexivity|].
  apply Hkept. vm_compute. reflexivity.
Defined.

(** [merge_leaves_button_enabled] on the bin with two clips. *)
Lemma merge_leaves_button_enabled_witness :
  ((List.length (mergeBin Ref.two_in_bin) <? 2)%nat = false
   /\ merge_succeeds Ref.two_in_bin (4 + (6 + 0))%Q)
  /\ mergeBin (mergeVideosButton_onclick Ref.two_in_bin) = []
  /\ mergeVideosButton_disabled (mergeVideosButton_onclick Ref.two_in_bin) = false
  /\ statusEl (mergeVideosButton_onclick (mergeVideosButton_onclick Ref.two_in_bin))
     = JS.lit "Add at least 2 videos to merge.".
Proof.
  assert (merge_succeeds Ref.two_in_bin (4 + (6 + 0))%Q) as Hok.
  { exists (fst (Ref.load Ref.fresh)). do 3 eexists.
    repeat split; vm_compute; reflexivity. }
  split; [split; [reflexivity | exact Hok]|].
  destruct (merge_leaves_button_enabled Ref.two_in_bin _ eq_refl Hok)
    as (Hbin & Hbutton & Hstatus & _).
  repeat split; assumption.
Defined.

(** [add_to_bin_says_added] when no thumbnail can be made: nothing is
    added, and the status says that it was. *)
Lemma add_to_bin_says_added_witness :
  let st := Ref.session_with_video 5 in
  let st' := fst (addToMergeBinButton_onclick RefLibrary.no_thumbnail 17 st) in
  (src_truthy (video_src (video st)) = true
   /\ addToMergeBinButton_onclick RefLibrary.no_thumbnail 17 st = (st', Settled tt))
  /\ statusEl st' = JS.lit "Added to bin."
  /\ mergeBin st' = [].
Proof.
  cbn zeta. split; [split; vm_compute; reflexivity|].
  destruct (add_to_bin_says_added RefLibrary.no_thumbnail 17 (Ref.session_with_video 5)
              (fst (addToMergeBinButton_onclick RefLibrary.no_thumbnail 17
                      (Ref.session_with_video 5))) eq_refl eq_refl) as [Hstatus Hbin].
  split; [exact Hstatus | exact Hbin].
Defined.

(** [startup_overwrites_database_error] with a database that cannot be
    opened: the status ends as "Editor loaded.", not as the message about
    the clips. *)
Lemma startup_overwrites_database_error_witness :
  ffmpeg (studio RefLibrary.at_startup) = None
  /\ statusEl (studio (document_onDOMContentLoaded (Idb := RefLibrary.no_database)
                         RefLibrary.at_startup))
     = JS.lit "Editor loaded.".
Proof.
  split; [reflexivity|].
  exact (proj1 (proj2 (startup_overwrites_database_error (Idb := RefLibrary.no_database)
                         RefLibrary.at_startup eq_refl))).
Defined.

(** [agent_generates_while_disabled] while a generation is running. *)
Lemma agent_generates_while_disabled_witness :
  controls_disabled (config RefLibrary.generating) = true
  /\ perform (ClickGenerate false) RefLibrary.generating = RefLibrary.generating
  /\ List.length (submitted (perform (CallTool "clickGenerate" (Some no_args))
                               RefLibrary.generating)) = 1.
Proof.
  split; [reflexivity|].
  destruct (agent_generates_while_disabled RefLibrary.generating (Some no_args)
              eq_refl) as (Hclick & _ & request & Hsent & _).
  split; [exact Hclick|]. rewrite Hsent. reflexivity.
Defined.

(** The same call with a recording made: no request is sent by the
    call. *)
Lemma agent_generates_from_a_recording :
  let st := RefLibrary.recorded |> on_config (set_controls_disabled true) in
  let st' := perform (CallTool "clickGenerate" (Some no_args)) st in
  statusEl st' = JS.lit "Processing recorded video frame..." /\ submitted st' = [].
Proof. cbn zeta. split; vm_compute; reflexivity. Qed.

(** [applyTrim_never_closes_editor], run: after the trim to [2, 5] has
    succeeded the editor is still open. *)
Lemma trim_leaves_editor_open :
  let st := applyTrim (Ref.with_range 2 5 (Ref.open_editor 10)) in
  statusEl st = JS.lit "Trim successful!"
  /\ isEditorOpen (editor st) = true
  /\ timeupdate_listener (video st) = true.
Proof. cbn zeta. repeat split; vm_compute; reflexivity. Qed.

(** [loadFFmpeg_is_not_retried], run: with an engine that cannot be
    loaded, the second call leaves the status of the first and the Edit
    button opens the editor all the same. *)
Lemma failed_load_is_not_retried :
  let st1 := fst (loadFFmpeg (Eng := RefLibrary.unloadable_engine)
                    (studio RefLibrary.at_startup)) in
  let st2 := fst (loadFFmpeg (Eng := RefLibrary.unloadable_engine) st1) in
  ffmpeg st1 = Some Ref.fresh
  /\ st2 = st1
  /\ statusEl st2 = JS.lit "Loading video editor..."
  /\ isEditorOpen (editor (editButton_onclick (Eng := RefLibrary.unloadable_engine) st2))
     = true.
Proof. cbn zeta. repeat split; vm_compute; reflexivity. Qed.


(** [typed_duration_is_cut] on "2.5", and on an empty field. *)
Lemma typed_duration_is_cut_witness :
  ((Z.of_nat 2 <= 2 ^ 53)%Z /\ JSNumber.starts_with_digit ".5" = false)
  /\ duration (config (durationInput_onchange "2.5" Ref.empty_session))
     = VNumber (JS.Fin 2)
  /\ duration (config (durationInput_onchange EmptyString Ref.empty_session)) = VNumber JS.NaN.
Proof.
  assert (Z.of_nat 2 <= 2 ^ 53)%Z as Hn by (cbn; lia).
  split; [split; [exact Hn | reflexivity]|].
  destruct (typed_duration_is_cut 2 ".5" Ref.empty_session Hn eq_refl) as (H2 & Hnan & _).
  split; [exact H2 | exact Hnan].
Defined.

(** Above [2 ^ 53] the digits are not all kept: the duration read from
    "9007199254740993" is 9007199254740992. *)
Lemma long_duration_is_rounded :
  duration (config (durationInput_onchange "9007199254740993" Ref.empty_session))
  = VNumber (JS.Fin 9007199254740992).
Proof. vm_compute. reflexivity. Qed.

(** [done_is_shown_before_the_video] on a response with two videos that
    comes after one poll, a clip of 5 seconds in the player: "Done." is
    shown over that clip. *)
Lemma done_is_shown_before_the_video_witness :
  (frame_is_made RefLibrary.thumbnail
     (page (RefLibrary.page_of (Ref.session_with_video 5)))
   /\ Forall (fun operation => done operation = false)
        (removelast (Ref.in_progress :: map snd [(3, Ref.two_videos)]))
   /\ done (List.last (Ref.in_progress :: map snd [(3, Ref.two_videos)])
              Ref.in_progress) = true
   /\ generatedVideos (List.last (Ref.in_progress :: map snd [(3, Ref.two_videos)])
                         Ref.in_progress)
      = Some [ {| video_uri := "a" |}; {| video_uri := "bb" |} ])
  /\ exists x',
       generate_run false RefLibrary.thumbnail (Some Ref.in_progress)
         (answered [(3, Ref.two_videos)] []) RefLibrary.no_json
         (JSError.ThrownOther EmptyString) (RefLibrary.page_of (Ref.session_with_video 5))
       = (x', Settled tt)
       /\ statusEl (page x') = JS.lit "Done."
       /\ video (page x') = video (Ref.session_with_video 5)
       /\ pending_fetches (page x') = ["a&key=k"; "bb&key=k"].
Proof.
  assert (Forall (fun operation => done operation = false)
            (removelast (Ref.in_progress :: map snd [(3, Ref.two_videos)])))
    as Hwait by (repeat constructor).
  split; [split; [exact I | split; [exact Hwait | split; reflexivity]]|].
  destruct (done_is_shown_before_the_video false RefLibrary.thumbnail Ref.in_progress
              [(3, Ref.two_videos)] [] RefLibrary.no_json (JSError.ThrownOther EmptyString)
              {| video_uri := "a" |} [ {| video_uri := "bb" |} ]
              (RefLibrary.page_of (Ref.session_with_video 5)) I Hwait eq_refl eq_refl)
    as (x' & Hrun & Hstatus & _ & _ & Hvideo & _ & Hpending & _).
  exists x'. repeat split; assumption.
Defined.

(** [no_videos_is_reported] on a response with an empty list of videos,
    with a recording of 5 seconds whose frame is made. *)
Lemma no_videos_is_reported_witness :
  (frame_is_made RefLibrary.thumbnail (page (RefLibrary.page_of RefLibrary.recorded))
   /\ Forall (fun operation => done operation = false)
        (removelast (RefLibrary.no_videos :: map snd RefLibrary.no_polls))
   /\ done (List.last (RefLibrary.no_videos :: map snd RefLibrary.no_polls) RefLibrary.no_videos) = true
   /\ (generatedVideos (List.last (RefLibrary.no_videos :: map snd RefLibrary.no_polls)
                          RefLibrary.no_videos) = None
       \/ generatedVideos (List.last (RefLibrary.no_videos :: map snd RefLibrary.no_polls)
                             RefLibrary.no_videos) = Some [])
   /\ RefLibrary.no_json "No videos generated" = JSError.NotJson)
  /\ exists x',
       generate_run false RefLibrary.thumbnail (Some RefLibrary.no_videos)
         (answered RefLibrary.no_polls []) RefLibrary.no_json (JSError.ThrownOther EmptyString)
         (RefLibrary.page_of RefLibrary.recorded)
       = (x', Settled tt)
       /\ statusEl (page x') = JS.lit "No videos generated"
       /\ controls_disabled (config (page x')) = false.
Proof.
  assert (frame_is_made RefLibrary.thumbnail
            (page (RefLibrary.page_of RefLibrary.recorded))) as Hframe
    by (eexists; reflexivity).
  assert (Forall (fun operation => done operation = false)
            (removelast (RefLibrary.no_videos :: map snd RefLibrary.no_polls)))
    as Hwait by constructor.
  split; [split; [exact Hframe|]; split; [exact Hwait|]; split; [reflexivity|];
          split; [right; reflexivity | reflexivity]|].
  destruct (no_videos_is_reported false RefLibrary.thumbnail RefLibrary.no_videos
              RefLibrary.no_polls [] RefLibrary.no_json (JSError.ThrownOther EmptyString)
              (RefLibrary.page_of RefLibrary.recorded) Hframe Hwait eq_refl
              (or_intror eq_refl) eq_refl)
    as (x' & Hrun & Hstatus & Hcontrols & _).
  exists x'. repeat split; assumption.
Defined.
